(** * memcached-go-server: the binary-protocol codec, the key/value store
      and the GET / SET command handlers, embedded from
      [server/utils.go], [server/server.go] and [server/handlers.go].

    Conventions of the embedding.
    - Go's [uintN] values are [Z] with the wrap-around written out
      ([wrap N]); Go's [int] is the 64-bit signed integer of the usual
      targets ([wrap_int]).
    - Go's [byte] is [Byte.byte]; a [[]byte] is a [list byte]; a Go
      [string] used as a map key is a [string].
    - An index or slice expression out of range panics in Go; here it
      yields [None] in the pure codec and the error [Panic] in handlers.
    - [time.Now().Second()] is [Second clock] for a clock in seconds.
    - The buffered reader is a list of chunks (what successive [Read]
      calls can deliver), the buffered writer an output byte list with the
      number of bytes the connection still accepts before it fails. *)

From Stdlib Require Import ZArith Lia Strings.Byte Sorting.Sorted.
From Stdlib Require DecimalString HexadecimalString.
From stdpp Require Import gmap strings list fin_maps.

Local Open Scope Z_scope.

(** ** Machine integers and bytes *)

Definition wrap (w : Z) (z : Z) : Z := z mod 2 ^ w.

(** Two's complement 64-bit [int]. *)
Definition wrap_int (z : Z) : Z := (z + 2 ^ 63) mod 2 ^ 64 - 2 ^ 63.

Definition byteZ (b : byte) : Z := Z.of_N (Byte.to_N b).

(** The conversion [byte(x)] of an unsigned integer: the low 8 bits. *)
Definition to_byte (z : Z) : byte :=
  match Byte.of_N (Z.to_N (wrap 8 z)) with
  | Some b => b
  | None => x00
  end.

Definition len {A} (l : list A) : Z := Z.of_nat (length l).

(** [[]byte("...")] *)
Definition bytes_of (s : string) : list byte := String.list_byte_of_string s.

(** [string(buf)] *)
Definition string_of (buf : list byte) : string := String.string_of_list_byte buf.

(** ** utils.go: the byte codec *)

(** [uint16(buf[0])<<8 | uint16(buf[1])] *)
Definition GetUint16 (buf : list byte) : option Z :=
  b0 ← buf !! 0%nat;
  b1 ← buf !! 1%nat;
  Some (Z.lor (wrap 16 (Z.shiftl (byteZ b0) 8)) (byteZ b1)).

(** [uint32(GetUint16(buf))<<16 | uint32(GetUint16(buf[2:]))] *)
Definition GetUint32 (buf : list byte) : option Z :=
  h ← GetUint16 buf;
  l ← GetUint16 (drop 2 buf);
  Some (Z.lor (wrap 32 (Z.shiftl h 16)) l).

(** [uint64(GetUint32(buf))<<32 | uint64(GetUint32(buf[4:]))] *)
Definition GetUint64 (buf : list byte) : option Z :=
  h ← GetUint32 buf;
  l ← GetUint32 (drop 4 buf);
  Some (Z.lor (wrap 64 (Z.shiftl h 32)) l).

Definition GetNthByteFromUint16 (v : Z) (pos : Z) : byte :=
  match pos with
  | 0 => to_byte (Z.shiftr v 8)
  | _ => to_byte (Z.land v 0x00ff)
  end.

Definition GetNthByteFromUint32 (v : Z) (pos : Z) : byte :=
  let l := wrap 16 (Z.shiftr v 16) in
  let r := wrap 16 (Z.land v 0x0000ffff) in
  match pos with
  | 0 => GetNthByteFromUint16 l 0
  | 1 => GetNthByteFromUint16 l 1
  | 2 => GetNthByteFromUint16 r 0
  | _ => GetNthByteFromUint16 r 1
  end.

(** ** server.go: headers and constants *)

Record RequestHeader := mkRequestHeader {
  rqMagic : Z;
  rqOpcode : Z;
  rqKeyLength : Z;
  rqExtraLength : Z;
  rqDataType : Z;
  rqVBucketID : Z;
  rqTotalBodyLength : Z;
  rqOpaque : Z;
  rqCAS : Z
}.

Record ResponseHeader := mkResponseHeader {
  Magic : Z;
  Opcode : Z;
  KeyLength : Z;
  ExtraLength : Z;
  DataType : Z;
  Status : Z;
  TotalBodyLength : Z;
  Opaque : Z;
  CAS : Z
}.

(** [ResponseHeader{}] *)
Definition ResponseHeader0 : ResponseHeader := mkResponseHeader 0 0 0 0 0 0 0 0 0.

Definition CodeNoError : Z := 0x0000.
Definition CodeKeyNotFound : Z := 0x0001.
Definition CodeKeyExists : Z := 0x0002.

Definition OpGet : Z := 0x00.
Definition OpSet : Z := 0x01.
Definition OpAdd : Z := 0x02.
Definition OpReplace : Z := 0x03.
Definition OpQuit : Z := 0x07.
Definition OpGetQ : Z := 0x09.
Definition OpNoOp : Z := 0x0a.
Definition OpVersion : Z := 0x0b.
Definition OpGetK : Z := 0x0c.
Definition OpGetKQ : Z := 0x0d.
Definition OpSetQ : Z := 0x11.
Definition OpAddQ : Z := 0x12.
Definition OpReplaceQ : Z := 0x13.

Definition MagicRequest : Z := 0x80.
Definition MagicResponse : Z := 0x81.

Definition MaxReqLen : Z := 1024 * 1024 * 1024.

(** The values a header's fields can hold, from their Go types. *)
Definition uint (w : Z) (z : Z) : Prop := 0 <= z < 2 ^ w.

Record wf_RequestHeader (h : RequestHeader) : Prop := {
  wf_rqMagic : uint 8 (rqMagic h);
  wf_rqOpcode : uint 8 (rqOpcode h);
  wf_rqKeyLength : uint 16 (rqKeyLength h);
  wf_rqExtraLength : uint 8 (rqExtraLength h);
  wf_rqDataType : uint 8 (rqDataType h);
  wf_rqVBucketID : uint 16 (rqVBucketID h);
  wf_rqTotalBodyLength : uint 32 (rqTotalBodyLength h);
  wf_rqOpaque : uint 32 (rqOpaque h);
  wf_rqCAS : uint 64 (rqCAS h)
}.

Record wf_ResponseHeader (h : ResponseHeader) : Prop := {
  wf_Magic : uint 8 (Magic h);
  wf_Opcode : uint 8 (Opcode h);
  wf_KeyLength : uint 16 (KeyLength h);
  wf_ExtraLength : uint 8 (ExtraLength h);
  wf_DataType : uint 8 (DataType h);
  wf_Status : uint 16 (Status h);
  wf_TotalBodyLength : uint 32 (TotalBodyLength h);
  wf_Opaque : uint 32 (Opaque h);
  wf_CAS : uint 64 (CAS h)
}.

(** ** utils.go: the key/value store *)

Record SimpleValue := mkSimpleValue {
  RawData : list byte;
  Flag : Z;
  svCAS : Z;
  TTL : Z
}.

(** [SimpleValue{}] *)
Definition SimpleValue0 : SimpleValue := mkSimpleValue [] 0 0 0.

Definition set_svCAS (v : SimpleValue) (c : Z) : SimpleValue :=
  mkSimpleValue (RawData v) (Flag v) c (TTL v).

(** The package-level variables [simplekvMap] and [casID]. *)
Record Store := mkStore {
  simplekvMap : gmap string SimpleValue;
  casID : Z
}.

(** [atomic.AddUint64(&casID, 1)]: the counter after the step, which is
    also the value returned. *)
Definition AddUint64 (c : Z) (d : Z) : Z := wrap 64 (c + d).

(** [time.Now().Second()] for a clock counting seconds. *)
Definition Second (clock : Z) : Z := clock mod 60.

(** [GetFromSimpleKV]. The function holds the shared lock for the first
    lookup and the exclusive lock for the second; [env] is what other
    connections do to the store between the two critical sections. *)
Definition GetFromSimpleKV_env (env : Store -> Store)
    (key : string) (clock : Z) (s : Store) : (SimpleValue * bool) * Store :=
  match simplekvMap s !! key with
  | None => ((SimpleValue0, false), s)
  | Some val =>
      let cas := svCAS val in
      if negb (TTL val =? 0) && (TTL val <? Second clock) then
        let s' := env s in
        match simplekvMap s' !! key with
        | Some val' =>
            if svCAS val' =? cas
            then ((SimpleValue0, false),
                  mkStore (delete key (simplekvMap s')) (casID s'))
            else ((val', true), s')
        | None => ((SimpleValue0, false), s')
        end
      else ((val, true), s)
  end.

(** [GetFromSimpleKV] when no other connection interferes. *)
Definition GetFromSimpleKV (key : string) (clock : Z) (s : Store)
    : (SimpleValue * bool) * Store :=
  GetFromSimpleKV_env id key clock s.

(** The statements shared by [AddToSimpleKV] and [SetToSimpleKV]:
    [newVal.CAS = atomic.AddUint64(&casID, 1)], once more if that is 0.
    Returns the CAS and the counter after it. *)
Definition bumpCAS (c : Z) : Z * Z :=
  let c1 := AddUint64 c 1 in
  if c1 =? 0 then let c2 := AddUint64 c1 1 in (c2, c2) else (c1, c1).

Definition AddToSimpleKV (key : string) (newVal : SimpleValue) (s : Store)
    : (SimpleValue * bool) * Store :=
  match simplekvMap s !! key with
  | Some _ => ((newVal, false), s)
  | None =>
      let '(cas, c) := bumpCAS (casID s) in
      let newVal := set_svCAS newVal cas in
      ((newVal, true), mkStore (<[key := newVal]> (simplekvMap s)) c)
  end.

(** Returns the set value, "is key missing" and "is successful". *)
Definition SetToSimpleKV (key : string) (newVal : SimpleValue) (cas : Z) (replace : bool)
    (s : Store) : (SimpleValue * bool * bool) * Store :=
  let oldVal := simplekvMap s !! key in
  let ok := bool_decide (is_Some oldVal) in
  if negb ok && replace then ((newVal, true, false), s)
  else if ok && negb (cas =? 0) && negb (cas =? svCAS (default SimpleValue0 oldVal))
  then ((newVal, false, false), s)
  else
    let '(cas', c) := bumpCAS (casID s) in
    let newVal := set_svCAS newVal cas' in
    ((newVal, false, true), mkStore (<[key := newVal]> (simplekvMap s)) c).

(** ** Errors, results and the handler monad *)

Inductive error :=
| ErrMagic (magic : Z)          (* "Magic byte is not 0x80" *)
| ErrOpcode (opcode : Z)        (* "Opcode byte is not recognized" *)
| ErrDataType (dt : Z)          (* "DataType byte is supposed to be 0x00" *)
| ErrBodyLength                 (* total body length below key + extra *)
| ErrGetExtra                   (* "Get must NOT have ExtraLength" *)
| ErrGetNoKey                   (* "Get must have NONE-ZERON KeyLength" *)
| ErrGetHasValue                (* "Get must NOT have value" *)
| ErrTooLarge                   (* "request size ... is too large" *)
| ErrSetShape                   (* "Set/Add/Replace commands MUST have key and extra" *)
| ErrNoBody                     (* Version / NoOp / Quit with key, extra or value *)
| EOF                           (* io.EOF *)
| ErrIO                         (* a failed write on the connection *)
| Panic                         (* index or slice bounds out of range *)
| Diverge.                      (* a loop that never ends *)

Inductive Res (A : Type) : Type :=
| Ok (a : A)
| Err (e : error).
Arguments Ok {A} a.
Arguments Err {A} e.

#[global] Instance Res_ret : MRet Res := fun _ a => Ok a.
#[global] Instance Res_bind : MBind Res := fun _ _ f r =>
  match r with
  | Ok a => f a
  | Err e => Err e
  end.

(** A Go operation that panics where the codec has no value. *)
Definition must {A} (o : option A) : Res A :=
  match o with
  | Some a => Ok a
  | None => Err Panic
  end.

(** [*bufio.ReadWriter]: [rd] holds what successive reads will deliver,
    [wr] what the writer has accepted, in order.  [room] is a number of
    bytes the writer is sure to accept: the free space of its buffer
    (4096 bytes when a command starts) and what its flushes still get
    through.  Results and output are stated under the room they need.
    Beyond it the model reports the error at the byte where the room ends,
    whereas [bufio.Writer] reports it at its next flush, which may be
    later: there only what holds for every writer is stated. *)
Record ReadWriter := mkReadWriter {
  rd : list (list byte);
  wr : list byte;
  room : nat
}.

(** [ConnectionContext]: the fields the handlers use. *)
Record ConnectionContext := mkConnectionContext {
  RW : ReadWriter;
  ReadBuf : list byte
}.

Record State := mkState {
  store : Store;
  clock : Z;
  ctx : ConnectionContext
}.

Definition M (A : Type) : Type := State -> Res A * State.

#[global] Instance M_ret : MRet M := fun _ a st => (Ok a, st).
#[global] Instance M_bind : MBind M := fun _ _ f m st =>
  match m st with
  | (Ok a, st') => f a st'
  | (Err e, st') => (Err e, st')
  end.

Definition throw {A} (e : error) : M A := fun st => (Err e, st).

Definition liftRes {A} (r : Res A) : M A := fun st => (r, st).

Definition gets {A} (f : State -> A) : M A := fun st => (Ok (f st), st).

Definition set_RW (rw : ReadWriter) (st : State) : State :=
  mkState (store st) (clock st) (mkConnectionContext rw (ReadBuf (ctx st))).

Definition set_ReadBuf (b : list byte) (st : State) : State :=
  mkState (store st) (clock st) (mkConnectionContext (RW (ctx st)) b).

Definition set_store (s : Store) (st : State) : State :=
  mkState s (clock st) (ctx st).

Definition modify (f : State -> State) : M unit := fun st => (Ok tt, f st).

(** Run a store primitive on the package-level store. *)
Definition onStore {A} (f : Store -> A * Store) : M A := fun st =>
  let '(a, s) := f (store st) in (Ok a, set_store s st).

(** [ctx.RW.Read(p)] for [len(p) = n]: at most what the next chunk holds. *)
Definition Read (n : nat) : M (list byte) := fun st =>
  let rw := RW (ctx st) in
  match rd rw with
  | [] => (Err EOF, st)
  | c :: rest =>
      let k := Nat.min n (length c) in
      let rest' := if (k <? length c)%nat then drop k c :: rest else rest in
      (Ok (take k c), set_RW (mkReadWriter rest' (wr rw) (room rw)) st)
  end.

(** [ctx.RW.WriteByte(c)]: accepted while there is room. *)
Definition WriteByte (c : byte) : M unit := fun st =>
  let rw := RW (ctx st) in
  match room rw with
  | O => (Err ErrIO, st)
  | S r => (Ok tt, set_RW (mkReadWriter (rd rw) (wr rw ++ [c]) r) st)
  end.

(** [ctx.RW.Write(buf)]: all of [buf] and [len(buf)] while there is room. *)
Definition Write (buf : list byte) : M Z := fun st =>
  let rw := RW (ctx st) in
  if (length buf <=? room rw)%nat
  then (Ok (len buf),
        set_RW (mkReadWriter (rd rw) (wr rw ++ buf) (room rw - length buf)) st)
  else (Err ErrIO,
        set_RW (mkReadWriter (rd rw) (wr rw ++ take (room rw) buf) 0) st).

(** [for pos := 0; pos < 4; pos++ { body }] *)
Definition for4 (body : Z -> M unit) : M unit :=
  body 0;; body 1;; body 2;; body 3.

(** [for _, c := range bs { err = ctx.RW.WriteByte(c); ... }] *)
Fixpoint writeEach (bs : list byte) : M unit :=
  match bs with
  | [] => mret tt
  | c :: bs' => WriteByte c;; writeEach bs'
  end.

(** [for writeLen < l { n, err := ctx.RW.Write(buf); writeLen += n; buf = buf[n:] }] *)
Fixpoint writeLoop (fuel : nat) (writeLen l : Z) (buf : list byte) : M unit :=
  if writeLen <? l then
    match fuel with
    | O => throw Diverge
    | S fuel' =>
        n ← Write buf;
        writeLoop fuel' (writeLen + n) l (drop (Z.to_nat n) buf)
    end
  else mret tt.

Definition writeAll (buf : list byte) : M unit :=
  writeLoop (S (length buf)) 0 (len buf) buf.

(** What [Read] does to the slice it is given: [data] lands in [b] from
    offset [off] on. *)
Definition overwrite (off : nat) (data b : list byte) : list byte :=
  take off b ++ data ++ drop (off + length data) b.

(** [for readLen < int(total) { reqLen, err := ctx.RW.Read(buf[readLen:]); readLen += reqLen }]
    where [buf] is [ctx.ReadBuf[:total]]: what is read lands in [ReadBuf]. *)
Fixpoint readLoop (fuel : nat) (readLen total : Z) : M unit :=
  if readLen <? total then
    match fuel with
    | O => throw Diverge
    | S fuel' =>
        data ← Read (Z.to_nat (total - readLen));
        modify (fun st =>
          set_ReadBuf (overwrite (Z.to_nat readLen) data (ReadBuf (ctx st))) st);;
        readLoop fuel' (readLen + len data) total
    end
  else mret tt.

(** [for nsize < int(total) { nsize *= 2 }] *)
Fixpoint growSize (fuel : nat) (nsize total : Z) : option Z :=
  if nsize <? total then
    match fuel with
    | O => None
    | S fuel' => growSize fuel' (wrap_int (nsize * 2)) total
    end
  else Some nsize.

(** The body-reading prologue of [GetHandler] and [SetHandler] (the same
    statements in both): grow [ctx.ReadBuf] if needed, then fill
    [buf := ctx.ReadBuf[:header.TotalBodyLength]] from the connection. *)
Definition readBody (header : RequestHeader) : M (list byte) :=
  let total := rqTotalBodyLength header in
  rb ← gets (fun st => ReadBuf (ctx st));
  (if wrap 32 (len rb) <? total then
     if MaxReqLen <? total then throw ErrTooLarge
     else
       match growSize 64 (len rb) total with
       | None => throw Diverge
       | Some nsize => modify (set_ReadBuf (replicate (Z.to_nat nsize) x00))
       end
   else mret tt);;
  rb ← gets (fun st => ReadBuf (ctx st));
  (if len rb <? total then throw Panic else mret tt);;
  fuel ← gets (fun st => S (length (rd (RW (ctx st)))));
  readLoop fuel 0 total;;
  gets (fun st => take (Z.to_nat total) (ReadBuf (ctx st))).

(** ** server.go: writing a response header *)

Definition writeResponseHeader (header : ResponseHeader) : M unit :=
  WriteByte (to_byte (Magic header));;
  WriteByte (to_byte (Opcode header));;
  WriteByte (GetNthByteFromUint16 (KeyLength header) 0);;
  WriteByte (GetNthByteFromUint16 (KeyLength header) 1);;
  WriteByte (to_byte (ExtraLength header));;
  WriteByte (to_byte (DataType header));;
  WriteByte (GetNthByteFromUint16 (Status header) 0);;
  WriteByte (GetNthByteFromUint16 (Status header) 1);;
  for4 (fun pos => WriteByte (GetNthByteFromUint32 (TotalBodyLength header) pos));;
  for4 (fun pos => WriteByte (GetNthByteFromUint32 (Opaque header) pos));;
  let l := wrap 32 (Z.shiftr (CAS header) 32) in
  let r := wrap 32 (Z.land (CAS header) 0x00000000ffffffff) in
  for4 (fun pos => WriteByte (GetNthByteFromUint32 l pos));;
  for4 (fun pos => WriteByte (GetNthByteFromUint32 r pos)).

(** ** handlers.go *)

Definition set_Magic (h : ResponseHeader) (v : Z) : ResponseHeader :=
  mkResponseHeader v (Opcode h) (KeyLength h) (ExtraLength h) (DataType h)
    (Status h) (TotalBodyLength h) (Opaque h) (CAS h).
Definition set_Opcode (h : ResponseHeader) (v : Z) : ResponseHeader :=
  mkResponseHeader (Magic h) v (KeyLength h) (ExtraLength h) (DataType h)
    (Status h) (TotalBodyLength h) (Opaque h) (CAS h).
Definition set_KeyLength (h : ResponseHeader) (v : Z) : ResponseHeader :=
  mkResponseHeader (Magic h) (Opcode h) v (ExtraLength h) (DataType h)
    (Status h) (TotalBodyLength h) (Opaque h) (CAS h).
Definition set_ExtraLength (h : ResponseHeader) (v : Z) : ResponseHeader :=
  mkResponseHeader (Magic h) (Opcode h) (KeyLength h) v (DataType h)
    (Status h) (TotalBodyLength h) (Opaque h) (CAS h).
Definition set_Status (h : ResponseHeader) (v : Z) : ResponseHeader :=
  mkResponseHeader (Magic h) (Opcode h) (KeyLength h) (ExtraLength h) (DataType h)
    v (TotalBodyLength h) (Opaque h) (CAS h).
Definition set_TotalBodyLength (h : ResponseHeader) (v : Z) : ResponseHeader :=
  mkResponseHeader (Magic h) (Opcode h) (KeyLength h) (ExtraLength h) (DataType h)
    (Status h) v (Opaque h) (CAS h).
Definition set_Opaque (h : ResponseHeader) (v : Z) : ResponseHeader :=
  mkResponseHeader (Magic h) (Opcode h) (KeyLength h) (ExtraLength h) (DataType h)
    (Status h) (TotalBodyLength h) v (CAS h).
Definition set_CAS (h : ResponseHeader) (v : Z) : ResponseHeader :=
  mkResponseHeader (Magic h) (Opcode h) (KeyLength h) (ExtraLength h) (DataType h)
    (Status h) (TotalBodyLength h) (Opaque h) v.

Definition HandleFunc : Type := RequestHeader -> M unit.

(** The first three assignments of every handler's response. *)
Definition respFor (header : RequestHeader) : ResponseHeader :=
  let respHeader := ResponseHeader0 in
  let respHeader := set_Magic respHeader MagicResponse in
  let respHeader := set_Opcode respHeader (rqOpcode header) in
  set_Opaque respHeader (rqOpaque header).

Definition GetHandler : HandleFunc := fun header =>
  if 0 <? rqExtraLength header then throw ErrGetExtra
  else if rqKeyLength header =? 0 then throw ErrGetNoKey
  else if negb (rqTotalBodyLength header
                =? wrap 32 (rqKeyLength header + rqExtraLength header))
  then throw ErrGetHasValue
  else
    buf ← readBody header;
    now ← gets clock;
    '(val, ok) ← onStore (GetFromSimpleKV (string_of buf) now);
    let respHeader := respFor header in
    if negb ok then
      if (rqOpcode header =? OpGetQ) || (rqOpcode header =? OpGetKQ) then mret tt
      else
        let respHeader := set_Status respHeader CodeKeyNotFound in
        let respHeader := set_TotalBodyLength respHeader
                            (wrap 32 (len (bytes_of "Not found"))) in
        writeResponseHeader respHeader;;
        writeEach (bytes_of "Not found")
    else
      let respHeader := set_Status respHeader CodeNoError in
      let respHeader := set_ExtraLength respHeader 0x04 in
      let respHeader :=
        if (rqOpcode header =? OpGetK) || (rqOpcode header =? OpGetKQ)
        then set_KeyLength respHeader (wrap 16 (len buf))
        else respHeader in
      let respHeader := set_TotalBodyLength respHeader
        (wrap 32 (wrap 32 (wrap 32 (len (RawData val)) + ExtraLength respHeader)
                  + KeyLength respHeader)) in
      let respHeader := set_CAS respHeader (svCAS val) in
      writeResponseHeader respHeader;;
      for4 (fun pos => WriteByte (GetNthByteFromUint32 (Flag val) pos));;
      (if 0 <? KeyLength respHeader then writeAll buf else mret tt);;
      writeAll (RawData val).

(** What the store access of [SetHandler] leaves for the [output:] label. *)
Record SetOutcome := mkSetOutcome {
  shouldFail : bool;
  responseCode : Z;
  responseCAS : Z
}.

Definition SetHandler : HandleFunc := fun header =>
  if negb (rqExtraLength header =? 8) || (rqKeyLength header =? 0)
  then throw ErrSetShape
  else
    buf ← readBody header;
    newFlag ← liftRes (must (GetUint32 buf));
    raw_ttl ← liftRes (must (if 4 <=? len buf then GetUint32 (drop 4 buf) else None));
    let ttl := raw_ttl in
    now ← gets clock;
    let ttl := if 0 <? ttl then wrap_int (ttl + Second now) else ttl in
    (* [8+header.KeyLength] is a uint16 sum; the upper bound of a slice
       expression is checked against the capacity, here that of ReadBuf *)
    let hi := wrap 16 (8 + rqKeyLength header) in
    rb ← gets (fun st => ReadBuf (ctx st));
    (if (8 <=? hi) && (hi <=? len rb) then mret tt else throw Panic);;
    let key := string_of (take (Z.to_nat (hi - 8)) (drop 8 rb)) in
    (if hi <=? len buf then mret tt else throw Panic);;
    let buf := drop (Z.to_nat hi) buf in
    let newBuf := buf in
    let newVal := mkSimpleValue newBuf newFlag 0 ttl in
    out ←
      (if (rqOpcode header =? OpAdd) || (rqOpcode header =? OpAddQ) then
         '(newVal, ok) ← onStore (AddToSimpleKV key newVal);
         (if negb ok then mret (mkSetOutcome true CodeKeyExists 0)
          else mret (mkSetOutcome false CodeNoError (svCAS newVal)) : M SetOutcome)
       else
         '(newVal, notfound, ok) ← onStore (SetToSimpleKV key newVal (rqCAS header)
              ((rqOpcode header =? OpReplace) || (rqOpcode header =? OpReplaceQ)));
         (if (notfound : bool) then mret (mkSetOutcome true CodeKeyNotFound 0)
          else if negb ok then mret (mkSetOutcome true CodeKeyExists 0)
          else mret (mkSetOutcome false CodeNoError (svCAS newVal)) : M SetOutcome));
    (* output: *)
    let respHeader := respFor header in
    let respHeader := set_Status respHeader CodeNoError in
    let respHeader := set_CAS respHeader (responseCAS out) in
    let errStr := EmptyString in
    if shouldFail out then
      let respHeader := set_Status respHeader (wrap 16 (responseCode out)) in
      let '(respHeader, errStr) :=
        if responseCode out =? CodeKeyNotFound then
          (set_TotalBodyLength respHeader (wrap 32 (len (bytes_of "Not found"))),
           "Not found")
        else if responseCode out =? CodeKeyExists then
          (set_TotalBodyLength respHeader (wrap 32 (len (bytes_of "Data exists for key."))),
           "Data exists for key.")
        else (respHeader, errStr) in
      writeResponseHeader respHeader;;
      writeEach (bytes_of errStr)
    else if (rqOpcode header =? OpAddQ) || (rqOpcode header =? OpReplaceQ)
            || (rqOpcode header =? OpSetQ)
    then mret tt
    else
      writeResponseHeader respHeader;;
      writeEach (bytes_of errStr).

(** The statements of [SetHandler] from the label [output:] on, for what
    the store access left in [shouldFail], [responseCode] and
    [responseCAS]. *)
Definition set_output (header : RequestHeader) (out : SetOutcome) : M unit :=
  let respHeader := respFor header in
  let respHeader := set_Status respHeader CodeNoError in
  let respHeader := set_CAS respHeader (responseCAS out) in
  let errStr := EmptyString in
  if shouldFail out then
    let respHeader := set_Status respHeader (wrap 16 (responseCode out)) in
    let '(respHeader, errStr) :=
      if responseCode out =? CodeKeyNotFound then
        (set_TotalBodyLength respHeader (wrap 32 (len (bytes_of "Not found"))),
         "Not found")
      else if responseCode out =? CodeKeyExists then
        (set_TotalBodyLength respHeader (wrap 32 (len (bytes_of "Data exists for key."))),
         "Data exists for key.")
      else (respHeader, errStr) in
    writeResponseHeader respHeader;;
    writeEach (bytes_of errStr)
  else if (rqOpcode header =? OpAddQ) || (rqOpcode header =? OpReplaceQ)
          || (rqOpcode header =? OpSetQ)
  then mret tt
  else
    writeResponseHeader respHeader;;
    writeEach (bytes_of errStr).

Definition hasBody (header : RequestHeader) : bool :=
  (0 <? rqKeyLength header) || (0 <? rqExtraLength header)
  || (0 <? rqTotalBodyLength header).

Definition VersionHandler : HandleFunc := fun header =>
  if hasBody header then throw ErrNoBody
  else
    let respHeader := respFor header in
    let respHeader := set_Status respHeader CodeNoError in
    let respHeader := set_TotalBodyLength respHeader (wrap 32 (len (bytes_of "1.4.24"))) in
    writeResponseHeader respHeader;;
    writeAll (bytes_of "1.4.24").

Definition NoOpHandler : HandleFunc := fun header =>
  if hasBody header then throw ErrNoBody
  else
    let respHeader := respFor header in
    let respHeader := set_Status respHeader CodeNoError in
    writeResponseHeader respHeader.

Definition QuitHandler : HandleFunc := fun header =>
  if hasBody header then throw ErrNoBody
  else
    let respHeader := respFor header in
    let respHeader := set_Status respHeader CodeNoError in
    writeResponseHeader respHeader;;
    throw EOF.

(** [OpHandler], the map from opcode to handler. *)
Definition OpHandler : gmap Z HandleFunc :=
  <[OpSet := SetHandler]> (<[OpSetQ := SetHandler]> (
  <[OpAdd := SetHandler]> (<[OpAddQ := SetHandler]> (
  <[OpReplace := SetHandler]> (<[OpReplaceQ := SetHandler]> (
  <[OpGet := GetHandler]> (<[OpGetQ := GetHandler]> (
  <[OpGetK := GetHandler]> (<[OpGetKQ := GetHandler]> (
  <[OpVersion := VersionHandler]> (<[OpNoOp := NoOpHandler]> (
  <[OpQuit := QuitHandler]> ∅)))))))))))).

(** ** server.go: parsing a request header *)

(** [buf[i]] and [buf[n:]] with their bounds checks. *)
Definition index (buf : list byte) (i : nat) : Res byte := must (buf !! i).

Definition sliceFrom (n : nat) (buf : list byte) : Res (list byte) :=
  if (n <=? length buf)%nat then Ok (drop n buf) else Err Panic.

Definition parseRequestHeader (bufHeader : list byte) : Res RequestHeader :=
  let buf := bufHeader in
  b ← index buf 0;
  let Magic := byteZ b in
  if negb (Magic =? MagicRequest) then Err (ErrMagic Magic) else
  buf ← sliceFrom 1 buf;
  b ← index buf 0;
  let Opcode := byteZ b in
  if negb (bool_decide (is_Some (OpHandler !! Opcode))) then Err (ErrOpcode Opcode) else
  buf ← sliceFrom 1 buf;
  KeyLength ← must (GetUint16 buf);
  buf ← sliceFrom 2 buf;
  b ← index buf 0;
  let ExtraLength := byteZ b in
  buf ← sliceFrom 1 buf;
  b ← index buf 0;
  let DataType := byteZ b in
  if negb (DataType =? 0x00) then Err (ErrDataType DataType) else
  buf ← sliceFrom 1 buf;
  VBucketID ← must (GetUint16 buf);
  buf ← sliceFrom 2 buf;
  TotalBodyLength ← must (GetUint32 buf);
  if wrap 64 TotalBodyLength <? wrap 64 (wrap 64 KeyLength + wrap 64 ExtraLength)
  then Err ErrBodyLength else
  buf ← sliceFrom 4 buf;
  Opaque ← must (GetUint32 buf);
  buf ← sliceFrom 4 buf;
  CAS ← must (GetUint64 buf);
  Ok (mkRequestHeader Magic Opcode KeyLength ExtraLength DataType VBucketID
        TotalBodyLength Opaque CAS).

(** ** server.go: one command *)

(** [fmt]'s verbs [%d] and [%x] on an unsigned integer. *)
Definition fmt_d (z : Z) : string :=
  DecimalString.NilZero.string_of_uint (N.to_uint (Z.to_N z)).

Definition fmt_x (z : Z) : string :=
  HexadecimalString.NilZero.string_of_uint (N.to_hex_uint (Z.to_N z)).

(** [err.Error()] for the errors [parseRequestHeader] returns.  [error]
    keeps which check failed and the byte it failed on; the three lengths
    of the last message are the fields the parser had decoded from
    [bufHeader] when it built the message.  A panic is no error value and
    has no text. *)
Definition errorText (e : error) (bufHeader : list byte) : option string :=
  match e with
  | ErrMagic magic => Some ("Magic byte is not 0x80: " +:+ fmt_x magic)
  | ErrOpcode opcode => Some ("Opcode byte is not recognized: " +:+ fmt_x opcode)
  | ErrDataType dt => Some ("DataType byte is supposed to be 0x00: " +:+ fmt_x dt)
  | ErrBodyLength =>
      total ← GetUint32 (drop 8 bufHeader);
      key ← GetUint16 (drop 2 bufHeader);
      extra ← bufHeader !! 4%nat;
      Some ("TotaoBodyLength is supposed to be no less than KeyLength + ExtraLength: total: "
            +:+ fmt_d total +:+ " key: " +:+ fmt_d key +:+ " extra "
            +:+ fmt_d (byteZ extra))
  | _ => None
  end.

(** A connection: the state its handlers run in and the two fields of
    [ConnectionContext] that [handleCommand] alone updates. *)
Record Conn := mkConn {
  cState : State;
  CommandSeq : Z;
  LastReqTime : Z
}.

(** [handleCommand]: read the 24 bytes of a header into [ReadBuf[:24]],
    count the command, parse, and hand over to the opcode's handler.  A
    header that does not parse is answered with a line of text, whose
    write result is dropped.  The log line on standard output is not part
    of the connection. *)
Definition handleCommand (c : Conn) : Res unit * Conn :=
  let st := cState c in
  if (length (ReadBuf (ctx st)) <? 24)%nat then (Err Panic, c) else
  match readLoop (S (length (rd (RW (ctx st))))) 0 24 st with
  | (Err e, st1) => (Err e, mkConn st1 (CommandSeq c) (LastReqTime c))
  | (Ok _, st1) =>
      let next st' := mkConn st' (wrap 64 (CommandSeq c + 1)) (clock st1) in
      let bufHeader := take 24 (ReadBuf (ctx st1)) in
      match parseRequestHeader bufHeader with
      | Err e =>
          match errorText e bufHeader with
          | Some text =>
              (Err e,
               next (snd (Write (bytes_of "Error " ++ bytes_of text ++ [x0a]) st1)))
          | None => (Err e, next st1)
          end
      | Ok reqHeader =>
          match OpHandler !! rqOpcode reqHeader with
          | Some Handle =>
              let (r, st2) := (Handle : HandleFunc) reqHeader st1 in (r, next st2)
          | None => (Err Panic, next st1)
          end
      end
  end.

(** * Connection states *)

Definition roomOf (st : State) : nat := room (RW (ctx st)).

Definition wrOf (st : State) : list byte := wr (RW (ctx st)).

Definition rdOf (st : State) : list (list byte) := rd (RW (ctx st)).

Definition rbOf (st : State) : list byte := ReadBuf (ctx st).

(** The state after [bs] went out on the connection. *)
Definition emit (bs : list byte) (st : State) : State :=
  let rw := RW (ctx st) in
  set_RW (mkReadWriter (rd rw) (wr rw ++ bs) (room rw - length bs)) st.

(** The state after the read loop took [rd'] as what is left to read and
    left [rb'] in the read buffer. *)
Definition afterRead (rd' : list (list byte)) (rb' : list byte) (st : State) : State :=
  mkState (store st) (clock st)
    (mkConnectionContext (mkReadWriter rd' (wrOf st) (roomOf st)) rb').

(** The read buffer of a connection: 4096 bytes at first, doubled when a
    body needs more, never beyond [MaxReqLen]. *)
Definition ReadBuf_ok (rb : list byte) : Prop :=
  exists k : nat, (k <= 30)%nat /\ len rb = 2 ^ Z.of_nat k.

(** The state in which a handler starts: the header is consumed and lies
    in [ReadBuf[:24]]. *)
Definition afterHeader (rd' : list (list byte)) (st : State) : State :=
  afterRead rd' (overwrite 0 (take 24 (concat (rdOf st))) (rbOf st)) st.

(** The connection [c] when the clock shows [t]. *)
Definition later (t : Z) (c : Conn) : Conn :=
  mkConn (mkState (store (cState c)) t (ctx (cState c))) (CommandSeq c) (LastReqTime c).

(** * The design's wording

    The definitions of this part follow the design document, not the code:
    the theorems compare the two. *)

(** ** The wire format (section 4.1) *)

(** The big-endian encoding of [v] on [n] bytes. *)
(** Big-endian encoding and decoding, as the wire format defines them. *)
Fixpoint be_bytes (n : nat) (v : Z) : list byte :=
  match n with
  | O => []
  | S n' => be_bytes n' (v / 256) ++ [to_byte v]
  end.

(** The big-endian value of a byte string. *)
Definition be_decode (bs : list byte) : Z :=
  fold_left (fun acc b => acc * 256 + byteZ b) bs 0.

(** The big-endian value of the [n] bytes of [bs] from offset [lo]. *)
Definition field (bs : list byte) (lo n : nat) : Z := be_decode (take n (drop lo bs)).

(** The 24 bytes of a response header: magic(1), opcode(1),
    key_length(2), extra_length(1), data_type(1), status(2),
    total_body_length(4), opaque(4), cas(8), in network byte order. *)
Definition headerBytes (h : ResponseHeader) : list byte :=
  [to_byte (Magic h); to_byte (Opcode h)] ++ be_bytes 2 (KeyLength h)
  ++ [to_byte (ExtraLength h); to_byte (DataType h)] ++ be_bytes 2 (Status h)
  ++ be_bytes 4 (TotalBodyLength h) ++ be_bytes 4 (Opaque h) ++ be_bytes 8 (CAS h).

(** Reading a response header back: byte 0 magic, 1 opcode, 2-3 key
    length, 4 extras length, 5 data type, 6-7 status, 8-11 total body
    length, 12-15 opaque, 16-23 CAS, with the decoders of [utils.go]. *)
Definition decodeResponseHeader (bs : list byte) : option ResponseHeader :=
  magic ← bs !! 0%nat;
  opcode ← bs !! 1%nat;
  keyLength ← GetUint16 (drop 2 bs);
  extraLength ← bs !! 4%nat;
  dataType ← bs !! 5%nat;
  status ← GetUint16 (drop 6 bs);
  totalBodyLength ← GetUint32 (drop 8 bs);
  opaque ← GetUint32 (drop 12 bs);
  cas ← GetUint64 (drop 16 bs);
  Some (mkResponseHeader (byteZ magic) (byteZ opcode) keyLength (byteZ extraLength)
          (byteZ dataType) status totalBodyLength opaque cas).

(** The opcodes of the dispatch table (section 6). *)
Definition opcodes : list Z :=
  [0x00; 0x01; 0x02; 0x03; 0x07; 0x09; 0x0a; 0x0b; 0x0c; 0x0d; 0x11; 0x12; 0x13].

(** The 24 bytes of a request header on the wire (section 4.1). *)
Definition requestBytes (h : RequestHeader) : list byte :=
  [to_byte (rqMagic h); to_byte (rqOpcode h)] ++ be_bytes 2 (rqKeyLength h)
  ++ [to_byte (rqExtraLength h); to_byte (rqDataType h)] ++ be_bytes 2 (rqVBucketID h)
  ++ be_bytes 4 (rqTotalBodyLength h) ++ be_bytes 4 (rqOpaque h) ++ be_bytes 8 (rqCAS h).

(** A header the parser lets through (section 4.1). *)
Record valid_header (h : RequestHeader) : Prop := {
  vh_wf : wf_RequestHeader h;
  vh_magic : rqMagic h = MagicRequest;
  vh_opcode : rqOpcode h ∈ opcodes;
  vh_datatype : rqDataType h = 0;
  vh_total : rqKeyLength h + rqExtraLength h <= rqTotalBodyLength h
}.

(** ** The store primitives (sections 3 and 4.2) *)

Inductive AddResult :=
| added (e : SimpleValue)
| already_exists.

Inductive SetResult :=
| stored (e : SimpleValue)
| not_found
| cas_mismatch.

(** The CAS counter: advanced by one step, and again if the value after
    the step is 0. *)
Definition fresh_cas (c : Z) : Z :=
  let c1 := (c + 1) mod 2 ^ 64 in
  if c1 =? 0 then (c1 + 1) mod 2 ^ 64 else c1.

(** Stamp the candidate with a fresh CAS and store it under the key. *)
Definition store_entry (key : string) (candidate : SimpleValue) (s : Store)
    : SimpleValue * Store :=
  let e := set_svCAS candidate (fresh_cas (casID s)) in
  (e, mkStore (<[key := e]> (simplekvMap s)) (fresh_cas (casID s))).

(** [add]: already_exists if the key is present; otherwise a fresh CAS
    is stamped into the candidate, which is inserted and returned. *)
Definition add (key : string) (candidate : SimpleValue) (s : Store)
    : AddResult * Store :=
  match simplekvMap s !! key with
  | Some _ => (already_exists, s)
  | None => let '(e, s') := store_entry key candidate s in (added e, s')
  end.

(** [set_or_replace]: (1) absent and replace_only: not_found;
    (2) present, expected_cas nonzero and different from the current CAS:
    cas_mismatch; (3) otherwise stamp a fresh CAS, overwrite or insert,
    return the stored entry. *)
Definition set_or_replace (key : string) (candidate : SimpleValue)
    (expected_cas : Z) (replace_only : bool) (s : Store) : SetResult * Store :=
  match simplekvMap s !! key with
  | None =>
      if replace_only then (not_found, s)
      else let '(e, s') := store_entry key candidate s in (stored e, s')
  | Some current =>
      if negb (expected_cas =? 0) && negb (expected_cas =? svCAS current)
      then (cas_mismatch, s)
      else let '(e, s') := store_entry key candidate s in (stored e, s')
  end.

(** How the callers read the results of the Go functions. *)
Definition AddResult_of (r : SimpleValue * bool) : AddResult :=
  let '(v, ok) := r in if ok then added v else already_exists.

Definition SetResult_of (r : SimpleValue * bool * bool) : SetResult :=
  let '(v, notfound, ok) := r in
  if notfound then not_found else if ok then stored v else cas_mismatch.

(** ** Responses (sections 4.3 and 4.4) *)

Record Response := mkResponse {
  respHeader : ResponseHeader;
  respBody : list byte
}.

(** What goes on the wire for a response, nothing when it is suppressed. *)
Definition wire (r : option Response) : list byte :=
  match r with
  | Some r => headerBytes (respHeader r) ++ respBody r
  | None => []
  end.

Definition quietGet (opcode : Z) : bool := (opcode =? 0x09) || (opcode =? 0x0d).

Definition returnsKey (opcode : Z) : bool := (opcode =? 0x0c) || (opcode =? 0x0d).

Definition quietSet (opcode : Z) : bool :=
  (opcode =? 0x11) || (opcode =? 0x12) || (opcode =? 0x13).

(** The response of the GET family to a lookup result. *)
Definition get_response (header : RequestHeader) (key : list byte)
    (hit : option SimpleValue) : option Response :=
  match hit with
  | None =>
      if quietGet (rqOpcode header) then None
      else Some (mkResponse
                   (mkResponseHeader 0x81 (rqOpcode header) 0 0 0 0x0001 9
                                     (rqOpaque header) 0)
                   (bytes_of "Not found"))
  | Some entry =>
      let key_out := if returnsKey (rqOpcode header) then key else [] in
      Some (mkResponse
              (mkResponseHeader 0x81 (rqOpcode header) (len key_out) 4 0 0x0000
                                (4 + len key_out + len (RawData entry))
                                (rqOpaque header) (svCAS entry))
              (be_bytes 4 (Flag entry) ++ key_out ++ RawData entry))
  end.

Definition isAdd (opcode : Z) : bool := (opcode =? 0x02) || (opcode =? 0x12).

Definition isReplace (opcode : Z) : bool := (opcode =? 0x03) || (opcode =? 0x13).

(** The body of a SET-family request: 4 bytes of flag, 4 bytes of raw TTL,
    the key, and the value as the remainder. *)
Definition body_flag (body : list byte) : Z := field body 0 4.

Definition body_raw_ttl (body : list byte) : Z := field body 4 4.

Definition body_key (header : RequestHeader) (body : list byte) : list byte :=
  take (Z.to_nat (rqKeyLength header)) (drop 8 body).

Definition body_value (header : RequestHeader) (body : list byte) : list byte :=
  drop (8 + Z.to_nat (rqKeyLength header)) body.

(** TTL normalization. *)
Definition ttl_deadline (raw_ttl now_seconds : Z) : Z :=
  if 0 <? raw_ttl then raw_ttl + now_seconds else 0.

(** The candidate entry a SET-family request decodes to. *)
Definition candidate (header : RequestHeader) (body : list byte) (clock : Z)
    : SimpleValue :=
  mkSimpleValue (body_value header body) (body_flag body) 0
                (ttl_deadline (body_raw_ttl body) (Second clock)).

Inductive Outcome :=
| Stored (e : SimpleValue)
| Failed (status : Z) (message : string).

(** Dispatch of the SET family on the opcode. *)
Definition dispatch (header : RequestHeader) (key : string) (cand : SimpleValue)
    (s : Store) : Outcome * Store :=
  if isAdd (rqOpcode header) then
    match add key cand s with
    | (added e, s') => (Stored e, s')
    | (already_exists, s') => (Failed 0x0002 "Data exists for key.", s')
    end
  else
    match set_or_replace key cand (rqCAS header) (isReplace (rqOpcode header)) s with
    | (stored e, s') => (Stored e, s')
    | (not_found, s') => (Failed 0x0001 "Not found", s')
    | (cas_mismatch, s') => (Failed 0x0002 "Data exists for key.", s')
    end.

(** Response emission of the SET family. *)
Definition set_response (header : RequestHeader) (o : Outcome) : option Response :=
  match o with
  | Stored e =>
      if quietSet (rqOpcode header) then None
      else Some (mkResponse
                   (mkResponseHeader 0x81 (rqOpcode header) 0 0 0 0x0000 0
                                     (rqOpaque header) (svCAS e)) [])
  | Failed status message =>
      Some (mkResponse
              (mkResponseHeader 0x81 (rqOpcode header) 0 0 0 status
                                (len (bytes_of message)) (rqOpaque header) 0)
              (bytes_of message))
  end.

(** * Runs of the store and the states the server reaches *)

Inductive operation :=
| DoAdd (key : string) (newVal : SimpleValue)
| DoSet (key : string) (newVal : SimpleValue) (cas : Z) (replace : bool)
| DoGet (key : string) (clock : Z).

(** One operation: the CAS it stamped, if it was a successful mutation,
    and the store after it. *)
Definition apply_op (o : operation) (s : Store) : option Z * Store :=
  match o with
  | DoAdd key newVal =>
      let '((e, ok), s') := AddToSimpleKV key newVal s in
      (if ok then Some (svCAS e) else None, s')
  | DoSet key newVal cas replace =>
      let '((e, _, ok), s') := SetToSimpleKV key newVal cas replace s in
      (if ok then Some (svCAS e) else None, s')
  | DoGet key clock => (None, snd (GetFromSimpleKV key clock s))
  end.

(** The CAS values stamped by a sequence, in order, and the final store. *)
Fixpoint run (ops : list operation) (s : Store) : list Z * Store :=
  match ops with
  | [] => ([], s)
  | o :: ops' =>
      let '(r, s1) := apply_op o s in
      let '(cs, s2) := run ops' s1 in
      (match r with Some c => c :: cs | None => cs end, s2)
  end.

(** No live entry has CAS 0. *)
Definition live_nonzero (s : Store) : Prop :=
  forall k e, simplekvMap s !! k = Some e -> svCAS e <> 0.

(** Every live CAS was issued by the counter. *)
Definition live_issued (s : Store) : Prop :=
  forall k e, simplekvMap s !! k = Some e -> 0 < svCAS e <= casID s.

(** No two live entries share a CAS. *)
Definition live_unique (s : Store) : Prop :=
  forall k1 k2 e1 e2,
    simplekvMap s !! k1 = Some e1 -> simplekvMap s !! k2 = Some e2 ->
    svCAS e1 = svCAS e2 -> k1 = k2.

(** Values come from request bodies, which [MaxReqLen] bounds. *)
Definition store_sized (s : Store) : Prop :=
  forall k e, simplekvMap s !! k = Some e -> len (RawData e) <= MaxReqLen.

(** A SET-family request the parser lets through, whose key leaves the
    uint16 sum [8+KeyLength] below 65536, with its body on the connection
    and room for the response. *)
Record set_ready (header : RequestHeader) (st : State) : Prop := {
  sr_extra : rqExtraLength header = 8;
  sr_key : 0 < rqKeyLength header;
  sr_key16 : 8 + rqKeyLength header < 2 ^ 16;
  sr_total : rqKeyLength header + rqExtraLength header <= rqTotalBodyLength header;
  sr_max : rqTotalBodyLength header <= MaxReqLen;
  sr_buf : ReadBuf_ok (rbOf st);
  sr_avail : (Z.to_nat (rqTotalBodyLength header) <= length (concat (rdOf st)))%nat;
  sr_room : (44 <= roomOf st)%nat
}.

(** The request body the connection delivers. *)
Definition set_body (header : RequestHeader) (st : State) : list byte :=
  take (Z.to_nat (rqTotalBodyLength header)) (concat (rdOf st)).

(** ** Sample requests and states *)

Definition ex_value : SimpleValue := mkSimpleValue (bytes_of "World") 5 1 15.

Definition ex_store : Store := mkStore {[ "Hello"%string := ex_value ]} 1.

Definition ex_store0 : Store := mkStore ∅ 0.

(** A connection with a 32-byte read buffer and room for 100 bytes. *)
Definition ex_state (s : Store) (clock : Z) (chunks : list (list byte)) : State :=
  mkState s clock
    (mkConnectionContext (mkReadWriter chunks [] 100) (replicate 32 x00)).

(** GetK "Hello", opaque 7. *)
Definition ex_get : RequestHeader := mkRequestHeader 0x80 0x0c 5 0 0 0 5 7 0.

(** A SET-family header for key "Hello", value "World", opaque 7. *)
Definition ex_set (opcode : Z) : RequestHeader :=
  mkRequestHeader 0x80 opcode 5 8 0 0 18 7 0.

(** Flag 5, raw TTL 10, key "Hello", value "World". *)
Definition ex_set_body : list byte :=
  [x00; x00; x00; x05; x00; x00; x00; x0a] ++ bytes_of "Hello" ++ bytes_of "World".

(** The header of [ex_set 0x01] on the wire. *)
Definition ex_header_bytes : list byte :=
  [x80; x01; x00; x05; x08; x00; x00; x00; x00; x00; x00; x12;
   x00; x00; x00; x07; x00; x00; x00; x00; x00; x00; x00; x00].

Definition ex_response : ResponseHeader :=
  mkResponseHeader 0x81 0x0c 5 4 0 0 14 7 1.

(** A fresh connection on [st]: no command handled yet. *)
Definition ex_conn (st : State) : Conn := mkConn st 0 0.

(** * Proofs *)

(** ** Bytes and bit operations *)

Lemma byteZ_range b : 0 <= byteZ b < 256.
Proof. unfold byteZ. pose proof (Byte.to_N_bounded b). lia. Qed.

Lemma to_byte_byteZ b : to_byte (byteZ b) = b.
Proof.
  unfold to_byte, wrap. rewrite Z.mod_small by (apply byteZ_range).
  unfold byteZ. rewrite N2Z.id, Byte.of_to_N. reflexivity.
Qed.

Lemma byteZ_to_byte z : byteZ (to_byte z) = z mod 256.
Proof.
  unfold to_byte, wrap. change (2 ^ 8) with 256.
  pose proof (Z.mod_pos_bound z 256 ltac:(lia)) as Hm.
  destruct (Byte.of_N (Z.to_N (z mod 256))) as [b|] eqn:E.
  - apply Byte.to_of_N in E. unfold byteZ. rewrite E. lia.
  - apply Byte.of_N_None_iff in E. lia.
Qed.

Lemma testbit_small b n i : 0 <= b < 2 ^ n -> n <= i -> Z.testbit b i = false.
Proof.
  intros Hb Hi. destruct (Z.eq_dec b 0) as [->|Hne]; [apply Z.bits_0|].
  apply Z.bits_above_log2; [lia|].
  apply Z.lt_le_trans with n; [|lia].
  apply Z.log2_lt_pow2; lia.
Qed.

Lemma lor_shiftl_add a b n :
  0 <= n -> 0 <= b < 2 ^ n -> Z.lor (Z.shiftl a n) b = a * 2 ^ n + b.
Proof.
  intros Hn Hb. rewrite Z.shiftl_mul_pow2 by lia.
  assert (Z.land (a * 2 ^ n) b = 0) as Hland.
  { apply Z.bits_inj'; intros i Hi. rewrite Z.land_spec, Z.bits_0.
    destruct (Z.lt_ge_cases i n).
    - rewrite Z.mul_pow2_bits_low by lia. reflexivity.
    - rewrite (testbit_small b n i) by lia. apply andb_false_r. }
  rewrite <- Z.lxor_lor by exact Hland.
  symmetry. apply Z.add_nocarry_lxor. exact Hland.
Qed.

Lemma land_low v n : 0 <= n -> Z.land v (2 ^ n - 1) = v mod 2 ^ n.
Proof.
  intros Hn. rewrite <- Z.land_ones by lia. f_equal.
  rewrite Z.ones_equiv. lia.
Qed.

Lemma byteZ_inj a b : byteZ a = byteZ b -> a = b.
Proof. intros H. rewrite <- (to_byte_byteZ a), <- (to_byte_byteZ b). congruence. Qed.

Lemma to_byte_mod a b : a mod 256 = b mod 256 -> to_byte a = to_byte b.
Proof. intros H. apply byteZ_inj. rewrite !byteZ_to_byte. exact H. Qed.

(** ** The big-endian codec *)

Lemma be_decode_snoc bs b : be_decode (bs ++ [b]) = be_decode bs * 256 + byteZ b.
Proof. unfold be_decode. rewrite fold_left_app. reflexivity. Qed.

Lemma length_be_bytes n v : length (be_bytes n v) = n.
Proof.
  revert v. induction n as [|n IH]; intros v; simpl; [reflexivity|].
  rewrite length_app, IH. simpl. lia.
Qed.

Lemma be_decode_be_bytes n v : be_decode (be_bytes n v) = v mod 256 ^ Z.of_nat n.
Proof.
  revert v. induction n as [|n IH]; intros v.
  - simpl. rewrite Z.mod_1_r. reflexivity.
  - cbn [be_bytes]. rewrite be_decode_snoc, IH, byteZ_to_byte.
    rewrite Nat2Z.inj_succ, Z.pow_succ_r by lia.
    rewrite Z.rem_mul_r by lia. lia.
Qed.

Ltac arith :=
  unfold wrap; rewrite ?Z.shiftr_div_pow2 by lia;
  rewrite ?(land_low _ 8), ?(land_low _ 16), ?(land_low _ 32) by lia;
  Z.div_mod_to_equations; lia.

Lemma Nth16_0 v : GetNthByteFromUint16 v 0 = to_byte (v / 256).
Proof. apply to_byte_mod. cbn [GetNthByteFromUint16]. arith. Qed.

Lemma Nth16_1 v : GetNthByteFromUint16 v 1 = to_byte v.
Proof.
  apply to_byte_mod. cbn [GetNthByteFromUint16].
  change 0x00ff with (2 ^ 8 - 1). arith.
Qed.

Lemma Nth32 v :
  [GetNthByteFromUint32 v 0; GetNthByteFromUint32 v 1;
   GetNthByteFromUint32 v 2; GetNthByteFromUint32 v 3] = be_bytes 4 v.
Proof.
  cbn [be_bytes app GetNthByteFromUint32]. rewrite !Nth16_0, !Nth16_1.
  change 0x0000ffff with (2 ^ 16 - 1).
  repeat (apply (f_equal2 cons); [apply to_byte_mod; arith|]). reflexivity.
Qed.

Lemma Nth32_app v rest :
  GetNthByteFromUint32 v 0 :: GetNthByteFromUint32 v 1 ::
  GetNthByteFromUint32 v 2 :: GetNthByteFromUint32 v 3 :: rest = be_bytes 4 v ++ rest.
Proof. rewrite <- Nth32. reflexivity. Qed.

Lemma Nth64 v :
  let l := wrap 32 (Z.shiftr v 32) in
  let r := wrap 32 (Z.land v 0x00000000ffffffff) in
  [GetNthByteFromUint32 l 0; GetNthByteFromUint32 l 1;
   GetNthByteFromUint32 l 2; GetNthByteFromUint32 l 3;
   GetNthByteFromUint32 r 0; GetNthByteFromUint32 r 1;
   GetNthByteFromUint32 r 2; GetNthByteFromUint32 r 3] = be_bytes 8 v.
Proof.
  intros l r.
  change ([GetNthByteFromUint32 l 0; GetNthByteFromUint32 l 1;
           GetNthByteFromUint32 l 2; GetNthByteFromUint32 l 3]
          ++ [GetNthByteFromUint32 r 0; GetNthByteFromUint32 r 1;
              GetNthByteFromUint32 r 2; GetNthByteFromUint32 r 3] = be_bytes 8 v).
  rewrite !Nth32. subst l r. cbn [be_bytes app]. change 0x00000000ffffffff with (2 ^ 32 - 1).
  repeat (apply (f_equal2 cons); [apply to_byte_mod; arith|]). reflexivity.
Qed.

Lemma be_decode_range bs : 0 <= be_decode bs < 256 ^ len bs.
Proof.
  induction bs as [|b bs IH] using rev_ind.
  - change (0 <= 0 < 1). lia.
  - rewrite be_decode_snoc. unfold len in *. rewrite length_app. cbn [length].
    replace (Z.of_nat (length bs + 1)) with (Z.succ (Z.of_nat (length bs))) by lia.
    rewrite Z.pow_succ_r by lia. pose proof (byteZ_range b). lia.
Qed.

Lemma GetUint16_be b0 b1 rest :
  GetUint16 (b0 :: b1 :: rest) = Some (be_decode [b0; b1]).
Proof.
  unfold GetUint16. cbn [lookup list_lookup mbind option_bind].
  pose proof (byteZ_range b0). pose proof (byteZ_range b1).
  f_equal. unfold wrap. rewrite Z.shiftl_mul_pow2 by lia.
  rewrite Z.mod_small by lia. rewrite <- Z.shiftl_mul_pow2 by lia.
  rewrite lor_shiftl_add by lia. cbn. lia.
Qed.

Lemma GetUint32_be b0 b1 b2 b3 rest :
  GetUint32 (b0 :: b1 :: b2 :: b3 :: rest) = Some (be_decode [b0; b1; b2; b3]).
Proof.
  unfold GetUint32. cbn [drop]. rewrite !GetUint16_be. cbn [mbind option_bind].
  pose proof (be_decode_range [b0; b1]) as H0. pose proof (be_decode_range [b2; b3]) as H1.
  change (256 ^ len [b0; b1]) with 65536 in H0. change (256 ^ len [b2; b3]) with 65536 in H1.
  f_equal. unfold wrap. rewrite Z.shiftl_mul_pow2 by lia.
  rewrite Z.mod_small by lia. rewrite <- Z.shiftl_mul_pow2 by lia.
  rewrite lor_shiftl_add by lia.
  change [b0; b1; b2; b3] with ([b0; b1] ++ [b2] ++ [b3]).
  change [b2; b3] with ([b2] ++ [b3]) in *.
  rewrite !app_assoc, !be_decode_snoc. cbn. lia.
Qed.

Lemma GetUint64_be b0 b1 b2 b3 b4 b5 b6 b7 rest :
  GetUint64 (b0 :: b1 :: b2 :: b3 :: b4 :: b5 :: b6 :: b7 :: rest)
  = Some (be_decode [b0; b1; b2; b3; b4; b5; b6; b7]).
Proof.
  unfold GetUint64. cbn [drop]. rewrite !GetUint32_be. cbn [mbind option_bind].
  pose proof (be_decode_range [b0; b1; b2; b3]) as H0.
  pose proof (be_decode_range [b4; b5; b6; b7]) as H1.
  change (256 ^ len [b0; b1; b2; b3]) with (2 ^ 32) in H0.
  change (256 ^ len [b4; b5; b6; b7]) with (2 ^ 32) in H1.
  f_equal. unfold wrap. rewrite Z.shiftl_mul_pow2 by lia.
  rewrite Z.mod_small by lia. rewrite <- Z.shiftl_mul_pow2 by lia.
  rewrite lor_shiftl_add by lia.
  unfold be_decode. cbn [fold_left]. lia.
Qed.

(** ** Running the writer *)

Lemma emit_emit a b st : emit b (emit a st) = emit (a ++ b) st.
Proof.
  unfold emit, set_RW. cbn.
  rewrite length_app, <- app_assoc, Nat.sub_add_distr. reflexivity.
Qed.

Lemma emit_nil st : emit [] st = st.
Proof.
  destruct st as [s c [[r w m] b]]. unfold emit, set_RW. cbn.
  rewrite app_nil_r, Nat.sub_0_r. reflexivity.
Qed.

Lemma roomOf_emit bs st : roomOf (emit bs st) = (roomOf st - length bs)%nat.
Proof. reflexivity. Qed.

Lemma WriteByte_run c st :
  (1 <= roomOf st)%nat -> WriteByte c st = (Ok tt, emit [c] st).
Proof.
  unfold roomOf, WriteByte, emit. intros H.
  destruct (room (RW (ctx st))) as [|r]; [lia|].
  cbn [length]. replace (S r - 1)%nat with r by lia. reflexivity.
Qed.

Lemma bind_run {A B} (m : M A) (f : A -> M B) st a st' :
  m st = (Ok a, st') -> (m ≫= f) st = f a st'.
Proof. intros H. unfold mbind, M_bind. rewrite H. reflexivity. Qed.

Lemma writeEach_run bs st :
  (length bs <= roomOf st)%nat -> writeEach bs st = (Ok tt, emit bs st).
Proof.
  revert st. induction bs as [|c bs IH]; intros st H.
  - rewrite emit_nil. reflexivity.
  - cbn [writeEach]. cbn [length] in H.
    rewrite (bind_run _ _ _ _ _ (WriteByte_run c st ltac:(lia))).
    rewrite IH by (rewrite roomOf_emit; cbn [length]; lia).
    rewrite emit_emit. reflexivity.
Qed.

Lemma length_headerBytes h : length (headerBytes h) = 24%nat.
Proof. reflexivity. Qed.

Ltac write_step :=
  match goal with
  | |- context [WriteByte ?c ?st] =>
      rewrite (WriteByte_run c st) by (rewrite ?roomOf_emit; cbn [length]; lia)
  end.

Lemma writeResponseHeader_run h st :
  (24 <= roomOf st)%nat ->
  writeResponseHeader h st = (Ok tt, emit (headerBytes h) st).
Proof.
  intros Hroom. unfold writeResponseHeader, for4, mbind, M_bind.
  do 24 (write_step; rewrite ?emit_emit; cbn [app]).
  f_equal. f_equal.
  pose proof (Nth64 (CAS h)) as Hc. cbv zeta in Hc. rewrite Hc.
  rewrite !Nth32_app, !Nth16_0, !Nth16_1. reflexivity.
Qed.

(** ** Reading a response header back *)

Lemma be_decode_2 v : be_decode [to_byte (v / 256); to_byte v] = v mod 2 ^ 16.
Proof. exact (be_decode_be_bytes 2 v). Qed.

Lemma be_decode_4 v :
  be_decode [to_byte (v / 256 / 256 / 256); to_byte (v / 256 / 256);
             to_byte (v / 256); to_byte v] = v mod 2 ^ 32.
Proof. exact (be_decode_be_bytes 4 v). Qed.

Lemma be_decode_8 v :
  be_decode [to_byte (v / 256 / 256 / 256 / 256 / 256 / 256 / 256);
             to_byte (v / 256 / 256 / 256 / 256 / 256 / 256);
             to_byte (v / 256 / 256 / 256 / 256 / 256);
             to_byte (v / 256 / 256 / 256 / 256);
             to_byte (v / 256 / 256 / 256); to_byte (v / 256 / 256);
             to_byte (v / 256); to_byte v] = v mod 2 ^ 64.
Proof. exact (be_decode_be_bytes 8 v). Qed.

Lemma decode_headerBytes h :
  wf_ResponseHeader h -> decodeResponseHeader (headerBytes h) = Some h.
Proof.
  intros [Hm Ho Hk He Hd Hs Ht Hq Hc]. unfold uint in *.
  unfold decodeResponseHeader.
  cbn [headerBytes be_bytes app drop lookup list_lookup].
  rewrite !GetUint16_be, !GetUint32_be, GetUint64_be.
  rewrite !be_decode_2, !be_decode_4, be_decode_8.
  cbn [mbind option_bind]. rewrite !byteZ_to_byte.
  change 256 with (2 ^ 8).
  rewrite !Z.mod_small by assumption. destruct h; reflexivity.
Qed.

(** ** The dispatch table *)

Lemma OpHandler_dom op : is_Some (OpHandler !! op) <-> op ∈ opcodes.
Proof.
  unfold OpHandler, opcodes. rewrite !lookup_insert_is_Some', lookup_empty.
  rewrite !elem_of_cons, elem_of_nil, <- not_eq_None_Some.
  unfold OpSet, OpSetQ, OpAdd, OpAddQ, OpReplace, OpReplaceQ, OpGet, OpGetQ,
    OpGetK, OpGetKQ, OpVersion, OpNoOp, OpQuit.
  intuition congruence.
Qed.

Lemma be_decode_1 b : be_decode [b] = byteZ b.
Proof. unfold be_decode. cbn [fold_left]. lia. Qed.

(** ** The store primitives *)

Lemma bumpCAS_fresh c : bumpCAS c = (fresh_cas c, fresh_cas c).
Proof.
  unfold bumpCAS, fresh_cas, AddUint64, wrap.
  destruct ((c + 1) mod 2 ^ 64 =? 0); reflexivity.
Qed.

Lemma fresh_cas_nonzero c : fresh_cas c <> 0.
Proof.
  unfold fresh_cas. destruct (Z.eqb_spec ((c + 1) mod 2 ^ 64) 0) as [E|E].
  - rewrite E. discriminate.
  - exact E.
Qed.

Lemma fresh_cas_succ c : 0 <= c -> c + 1 < 2 ^ 64 -> fresh_cas c = c + 1.
Proof.
  intros H0 H1. unfold fresh_cas. rewrite Z.mod_small by lia.
  destruct (Z.eqb_spec (c + 1) 0); [lia | reflexivity].
Qed.

Lemma AddToSimpleKV_add key newVal s :
  prod_map AddResult_of id (AddToSimpleKV key newVal s) = add key newVal s.
Proof.
  unfold AddToSimpleKV, add, store_entry.
  destruct (simplekvMap s !! key); [reflexivity|].
  rewrite bumpCAS_fresh. reflexivity.
Qed.

Lemma SetToSimpleKV_set_or_replace key newVal cas replace s :
  prod_map SetResult_of id (SetToSimpleKV key newVal cas replace s)
  = set_or_replace key newVal cas replace s.
Proof.
  unfold SetToSimpleKV, set_or_replace, store_entry. rewrite bumpCAS_fresh.
  destruct (simplekvMap s !! key) as [cur|] eqn:E.
  - rewrite bool_decide_eq_true_2 by eauto. cbn [negb andb default from_option id].
    destruct (negb (cas =? 0) && negb (cas =? svCAS cur)); reflexivity.
  - rewrite bool_decide_eq_false_2 by (intros [? [=]]). cbn [negb andb].
    destruct replace; reflexivity.
Qed.

Lemma AddToSimpleKV_cases key newVal s :
  AddToSimpleKV key newVal s = ((newVal, false), s) /\ is_Some (simplekvMap s !! key)
  \/ AddToSimpleKV key newVal s
     = ((fst (store_entry key newVal s), true), snd (store_entry key newVal s))
     /\ simplekvMap s !! key = None.
Proof.
  unfold AddToSimpleKV. rewrite bumpCAS_fresh.
  destruct (simplekvMap s !! key) eqn:E; [left | right]; eauto.
Qed.

Lemma SetToSimpleKV_cases key newVal cas replace s :
  (exists notfound, SetToSimpleKV key newVal cas replace s = ((newVal, notfound, false), s))
  \/ SetToSimpleKV key newVal cas replace s
     = ((fst (store_entry key newVal s), false, true), snd (store_entry key newVal s)).
Proof.
  unfold SetToSimpleKV. rewrite bumpCAS_fresh.
  destruct (negb _ && replace); [left; eauto|].
  destruct (_ && _); [left; eauto | right; reflexivity].
Qed.

Lemma GetFromSimpleKV_cases key clock s :
  snd (GetFromSimpleKV key clock s) = s
  \/ snd (GetFromSimpleKV key clock s) = mkStore (delete key (simplekvMap s)) (casID s).
Proof.
  unfold GetFromSimpleKV, GetFromSimpleKV_env.
  destruct (simplekvMap s !! key) as [v|] eqn:E; [|left; reflexivity].
  destruct (negb _ && _); [|left; reflexivity].
  cbn [id]. rewrite E, Z.eqb_refl. right. reflexivity.
Qed.

(** ** Sequences of store operations *)

Lemma apply_op_cases o s :
  apply_op o s = (None, s)
  \/ (exists key, apply_op o s = (None, mkStore (delete key (simplekvMap s)) (casID s)))
  \/ (exists key newVal,
        apply_op o s = (Some (fresh_cas (casID s)), snd (store_entry key newVal s))).
Proof.
  destruct o as [key v | key v cas replace | key clock]; cbn [apply_op].
  - destruct (AddToSimpleKV_cases key v s) as [[-> _] | [-> _]]; [left; reflexivity|].
    right; right. exists key, v. reflexivity.
  - destruct (SetToSimpleKV_cases key v cas replace s) as [[nf ->] | ->]; [left; reflexivity|].
    right; right. exists key, v. reflexivity.
  - destruct (GetFromSimpleKV_cases key clock s) as [-> | ->]; [left; reflexivity|].
    right; left. exists key. reflexivity.
Qed.

Lemma live_nonzero_step o s : live_nonzero s -> live_nonzero (snd (apply_op o s)).
Proof.
  intros H. destruct (apply_op_cases o s) as [-> | [[key ->] | [key [v ->]]]]; [exact H | |].
  - intros k e. cbn. intros Hk. apply lookup_delete_Some in Hk as [_ Hk]. eauto.
  - intros k e. cbn. intros Hk. apply lookup_insert_Some in Hk as [[_ <-] | [_ Hk]].
    + apply fresh_cas_nonzero.
    + eauto.
Qed.

Lemma live_step o s :
  0 <= casID s -> casID s + 1 < 2 ^ 64 -> live_issued s ->
  let '(r, s') := apply_op o s in
  live_issued s' /\ (live_unique s -> live_unique s')
  /\ match r with
     | Some c => c = casID s + 1 /\ casID s' = c
     | None => casID s' = casID s
     end.
Proof.
  intros H0 H1 Hb.
  destruct (apply_op_cases o s) as [-> | [[key ->] | [key [v ->]]]].
  - auto.
  - split; [|split; [|reflexivity]].
    + intros k e. cbn. intros Hk. apply lookup_delete_Some in Hk as [_ Hk]. eauto.
    + intros Hu k1 k2 e1 e2. cbn. intros Hk1 Hk2.
      apply lookup_delete_Some in Hk1 as [_ Hk1].
      apply lookup_delete_Some in Hk2 as [_ Hk2]. eauto.
  - rewrite fresh_cas_succ by lia. cbn. rewrite fresh_cas_succ by lia.
    unfold live_issued, live_unique. cbn [simplekvMap casID].
    split; [|split; [|split; reflexivity]].
    + intros k e Hk. apply lookup_insert_Some in Hk as [[_ <-] | [_ Hk]].
      * cbn. lia.
      * apply Hb in Hk. lia.
    + intros Hu k1 k2 e1 e2 Hk1 Hk2 Hc.
      apply lookup_insert_Some in Hk1 as [[<- <-] | [Hn1 Hk1]];
        apply lookup_insert_Some in Hk2 as [[<- <-] | [Hn2 Hk2]].
      * reflexivity.
      * apply Hb in Hk2. cbn in Hc. lia.
      * apply Hb in Hk1. cbn in Hc. lia.
      * eauto.
Qed.

Lemma run_sorted ops : forall s,
  0 <= casID s -> casID s + len ops < 2 ^ 64 -> live_issued s ->
  let '(cs, s') := run ops s in
  StronglySorted Z.lt cs /\ Forall (fun c => casID s < c) cs
  /\ live_issued s' /\ (live_unique s -> live_unique s').
Proof.
  induction ops as [|o ops IH]; intros s H0 H1 Hb.
  - cbn. split; [constructor|]. split; [constructor|]. auto.
  - unfold len in H1. cbn [length] in H1. cbn [run].
    pose proof (live_step o s H0 ltac:(lia) Hb) as Hstep.
    destruct (apply_op o s) as [r s1]. destruct Hstep as (Hb1 & Hu1 & Hr).
    assert (casID s <= casID s1 <= casID s + 1) as Hc1 by (destruct r; lia).
    specialize (IH s1 ltac:(lia) ltac:(unfold len; lia) Hb1).
    destruct (run ops s1) as [cs s2]. destruct IH as (Hs & Hf & Hb2 & Hu2).
    assert (Forall (fun c => casID s < c) cs) as Hf'.
    { eapply Forall_impl; [exact Hf|]. cbn. intros c Hc. lia. }
    destruct r as [c|].
    + destruct Hr as [-> Hr]. split; [|split; [|auto]].
      * constructor; [exact Hs|]. eapply Forall_impl; [exact Hf|]. cbn. intros; lia.
      * constructor; [lia | exact Hf'].
    + split; [exact Hs|]. split; [exact Hf'|]. auto.
Qed.

(** ** Reading a request body *)

Lemma length_overwrite off data (b : list byte) :
  (off + length data <= length b)%nat -> length (overwrite off data b) = length b.
Proof.
  intros H. unfold overwrite. rewrite !length_app, length_take, length_drop. lia.
Qed.

Lemma overwrite_nil off (b : list byte) : overwrite off [] b = b.
Proof. unfold overwrite. cbn [app length]. rewrite Nat.add_0_r. apply take_drop. Qed.

Lemma overwrite_overwrite off d1 d2 (b : list byte) :
  (off + length d1 + length d2 <= length b)%nat ->
  overwrite (off + length d1) d2 (overwrite off d1 b) = overwrite off (d1 ++ d2) b.
Proof.
  intros H. unfold overwrite.
  assert (length (take off b) = off) as Ht by (rewrite length_take; lia).
  rewrite (app_assoc (take off b) d1).
  rewrite take_app_length' by (rewrite length_app; lia).
  rewrite drop_app_ge by (rewrite length_app; lia).
  rewrite length_app, Ht.
  rewrite drop_drop. rewrite <- !app_assoc, length_app.
  do 4 f_equal. lia.
Qed.

Lemma take_overwrite_0 data (b : list byte) :
  take (length data) (overwrite 0 data b) = data.
Proof. unfold overwrite. rewrite take_0. cbn [app]. apply take_app_length. Qed.

Lemma readLoop_done fuel readLen total st :
  total <= readLen -> readLoop fuel readLen total st = (Ok tt, st).
Proof.
  intros H. destruct fuel; cbn [readLoop];
    destruct (Z.ltb_spec readLen total); try lia; reflexivity.
Qed.

Lemma afterRead_id st : afterRead (rdOf st) (rbOf st) st = st.
Proof. destruct st as [s c [[r w m] b]]. reflexivity. Qed.

Lemma readLoop_run chunks : forall fuel (r t : nat) st,
  rdOf st = chunks -> (length chunks < fuel)%nat ->
  (r <= t)%nat -> (t <= length (rbOf st))%nat ->
  (t - r <= length (concat chunks))%nat ->
  exists rd',
    readLoop fuel (Z.of_nat r) (Z.of_nat t) st
    = (Ok tt, afterRead rd' (overwrite r (take (t - r) (concat chunks)) (rbOf st)) st)
    /\ concat rd' = drop (t - r) (concat chunks)
    /\ (length rd' <= length chunks)%nat.
Proof.
  induction chunks as [|c rest IH]; intros fuel r t st Hrd Hfuel Hrt Hrb Hav.
  - cbn [concat length] in Hav. assert (r = t) as -> by lia.
    exists []. rewrite readLoop_done by lia. rewrite Nat.sub_diag. cbn [take concat drop].
    rewrite overwrite_nil. rewrite <- Hrd at 1. rewrite afterRead_id. auto.
  - destruct (Nat.eq_dec r t) as [->|Hne].
    { exists (c :: rest). rewrite readLoop_done by lia. rewrite Nat.sub_diag.
      cbn [take drop]. rewrite overwrite_nil. rewrite <- Hrd at 1.
      rewrite afterRead_id. auto. }
    destruct fuel as [|fuel]; [lia|]. cbn [readLoop].
    destruct (Z.ltb_spec (Z.of_nat r) (Z.of_nat t)); [|lia].
    replace (Z.to_nat (Z.of_nat t - Z.of_nat r)) with (t - r)%nat by lia.
    unfold mbind at 1, M_bind at 1. unfold Read at 1.
    unfold rdOf in Hrd. rewrite Hrd.
    unfold mbind at 1, M_bind at 1. unfold modify at 1.
    rewrite Nat2Z.id. cbn [concat] in *. rewrite length_app in Hav.
    destruct (Nat.ltb_spec (Nat.min (t - r) (length c)) (length c)) as [Hlt|Hge].
    + (* the chunk holds more than the loop still needs *)
      assert (t - r < length c)%nat as Hc by lia.
      rewrite Nat.min_l by lia.
      rewrite readLoop_done
        by (unfold len; rewrite length_take; lia).
      exists (drop (t - r) c :: rest). cbn [concat length].
      rewrite take_app_le, drop_app_le by lia. auto.
    + assert (length c <= t - r)%nat as Hc by lia.
      rewrite Nat.min_r by lia. rewrite take_ge by lia.
      unfold len. rewrite <- Nat2Z.inj_add.
      match goal with |- context [readLoop fuel _ _ ?st1] =>
        destruct (IH fuel (r + length c)%nat t st1) as (rd' & Hrun & Hcat & Hlen)
      end.
      * reflexivity.
      * cbn [length] in Hfuel. lia.
      * lia.
      * unfold rbOf, set_ReadBuf, set_RW. cbn. rewrite length_overwrite; unfold rbOf in *; lia.
      * lia.
      * exists rd'. rewrite Hrun. split; [|split].
        -- f_equal. unfold afterRead, rbOf, set_ReadBuf, set_RW, wrOf, roomOf. cbn.
           rewrite overwrite_overwrite
             by (rewrite length_take; unfold rbOf in *; lia).
           rewrite (take_app_ge c) by lia.
           replace (t - (r + length c))%nat with (t - r - length c)%nat by lia.
           reflexivity.
        -- rewrite Hcat, drop_app_ge by lia. f_equal. lia.
        -- cbn [length]. lia.
Qed.

Lemma growSize_run fuel : forall (k : nat) total,
  (k <= 30)%nat -> total <= MaxReqLen -> (30 - k < fuel)%nat ->
  exists k' : nat, (k <= k' <= 30)%nat
    /\ growSize fuel (2 ^ Z.of_nat k) total = Some (2 ^ Z.of_nat k')
    /\ total <= 2 ^ Z.of_nat k'.
Proof.
  induction fuel as [|fuel IH]; intros k total Hk Ht Hf; [lia|].
  cbn [growSize]. destruct (Z.ltb_spec (2 ^ Z.of_nat k) total) as [Hlt|Hge].
  - assert (k < 30)%nat as Hk'.
    { destruct (Nat.eq_dec k 30%nat) as [->|]; [|lia].
      change (2 ^ Z.of_nat 30) with MaxReqLen in Hlt. lia. }
    assert (wrap_int (2 ^ Z.of_nat k * 2) = 2 ^ Z.of_nat (S k)) as ->.
    { rewrite Nat2Z.inj_succ, Z.pow_succ_r by lia.
      assert (0 < 2 ^ Z.of_nat k <= 2 ^ 30) as Hp.
      { split; [apply Z.pow_pos_nonneg; lia | apply Z.pow_le_mono_r; lia]. }
      unfold wrap_int. rewrite Z.mod_small; lia. }
    destruct (IH (S k) total ltac:(lia) Ht ltac:(lia)) as (k' & Hk'' & Hg & Hle).
    exists k'. split; [lia|]. auto.
  - exists k. split; [lia|]. auto.
Qed.

Lemma readBody_start header st :
  let total := rqTotalBodyLength header in
  0 <= total <= MaxReqLen ->
  ReadBuf_ok (rbOf st) ->
  exists rb0, ReadBuf_ok rb0 /\ (Z.to_nat total <= length rb0)%nat /\
    (length (rbOf st) <= length rb0)%nat /\
    readBody header st
    = (let (r, st') := readLoop (S (length (rdOf st))) 0 total (afterRead (rdOf st) rb0 st) in
       match r with
       | Ok _ => (Ok (take (Z.to_nat total) (ReadBuf (ctx st'))), st')
       | Err e => (Err e, st')
       end).
Proof.
  intros total Ht [k [Hk Hrb]].
  assert (2 ^ Z.of_nat k <= MaxReqLen) as Hpow
    by (change MaxReqLen with (2 ^ 30); apply Z.pow_le_mono_r; lia).
  unfold readBody. fold total. destruct st as [s c [[r w m] b]].
  cbv [mbind M_bind gets rbOf rdOf afterRead wrOf roomOf] in *.
  cbn [ReadBuf ctx RW rd wr room store clock] in *.
  unfold wrap. rewrite Hrb. rewrite Z.mod_small by (unfold MaxReqLen in *; lia).
  destruct (Z.ltb_spec (2 ^ Z.of_nat k) total) as [Hlt|Hge].
  - destruct (Z.ltb_spec MaxReqLen total); [lia|].
    destruct (growSize_run 64 k total Hk ltac:(lia) ltac:(lia)) as (k' & Hk' & -> & Hle).
    exists (replicate (Z.to_nat (2 ^ Z.of_nat k')) x00).
    assert (len (replicate (Z.to_nat (2 ^ Z.of_nat k')) x00) = 2 ^ Z.of_nat k') as Hl.
    { unfold len. rewrite length_replicate. lia. }
    split; [exists k'; split; [lia | exact Hl]|].
    split; [unfold len in Hl; lia|].
    split; [assert (2 ^ Z.of_nat k <= 2 ^ Z.of_nat k') by (apply Z.pow_le_mono_r; lia);
            unfold len in *; lia|].
    cbv [modify set_ReadBuf mret M_ret]. cbn [ReadBuf ctx RW rd wr room store clock].
    rewrite Hl.
    destruct (Z.ltb_spec (2 ^ Z.of_nat k') total); [lia|]. reflexivity.
  - exists b. split; [exists k; auto|]. split; [unfold len in Hrb; lia|].
    split; [lia|].
    cbv [mret M_ret]. cbn [ReadBuf ctx RW rd wr room store clock]. rewrite Hrb.
    destruct (Z.ltb_spec (2 ^ Z.of_nat k) total); [lia|]. reflexivity.
Qed.

Lemma readBody_run header st :
  let t := Z.to_nat (rqTotalBodyLength header) in
  0 <= rqTotalBodyLength header <= MaxReqLen ->
  ReadBuf_ok (rbOf st) ->
  (t <= length (concat (rdOf st)))%nat ->
  exists rd' rb',
    readBody header st = (Ok (take t (concat (rdOf st))), afterRead rd' rb' st)
    /\ concat rd' = drop t (concat (rdOf st))
    /\ ReadBuf_ok rb'
    /\ (t <= length rb')%nat
    /\ take t rb' = take t (concat (rdOf st))
    /\ (length (rbOf st) <= length rb')%nat.
Proof.
  intros t Ht [k [Hk Hrb]] Hav.
  set (total := rqTotalBodyLength header) in *.
  assert (2 ^ Z.of_nat k <= MaxReqLen) as Hpow
    by (change MaxReqLen with (2 ^ 30); apply Z.pow_le_mono_r; lia).
  destruct (readBody_start header st Ht (ex_intro _ k (conj Hk Hrb)))
    as (rb0 & Hok0 & Hlen0 & Hgrow & ->). fold total t in Hlen0 |- *.
  destruct (readLoop_run (rdOf st) (S (length (rdOf st))) 0 t (afterRead (rdOf st) rb0 st))
    as (rd' & Hrun & Hcat & _); try reflexivity; try lia.
  { cbn. exact Hlen0. }
  change (Z.of_nat 0) with 0 in Hrun. replace (Z.of_nat t) with total in Hrun by lia.
  rewrite Nat.sub_0_r in *.
  exists rd', (overwrite 0 (take t (concat (rdOf st))) rb0).
  rewrite Hrun. cbn [rbOf afterRead ctx ReadBuf].
  fold t.
  assert (length (take t (concat (rdOf st))) = t) as Hlt by (rewrite length_take; lia).
  assert (take t (overwrite 0 (take t (concat (rdOf st))) rb0) = take t (concat (rdOf st))) as Htk.
  { rewrite <- Hlt at 1. apply take_overwrite_0. }
  rewrite Htk. split; [reflexivity|]. split; [exact Hcat|].
  assert (length (overwrite 0 (take t (concat (rdOf st))) rb0) = length rb0) as Hlo
    by (apply length_overwrite; lia).
  split; [|split; [lia | split; [reflexivity | lia]]].
  destruct Hok0 as [k0 [Hk0 Hl0]]. exists k0. split; [exact Hk0|].
  unfold len in *. rewrite Hlo. exact Hl0.
Qed.

(** ** The GET family *)

Lemma GetFromSimpleKV_hit_live key clock s :
  snd (fst (GetFromSimpleKV key clock s)) = true ->
  simplekvMap s !! key = Some (fst (fst (GetFromSimpleKV key clock s))).
Proof.
  unfold GetFromSimpleKV, GetFromSimpleKV_env.
  destruct (simplekvMap s !! key) as [v|] eqn:E; [|discriminate].
  destruct (negb _ && _); [|reflexivity].
  cbn [id]. rewrite E, Z.eqb_refl. discriminate.
Qed.

Lemma gets_run {A} (f : State -> A) st : gets f st = (Ok (f st), st).
Proof. reflexivity. Qed.

Lemma onStore_run {A} (f : Store -> A * Store) st :
  onStore f st = (Ok (fst (f (store st))), set_store (snd (f (store st))) st).
Proof. unfold onStore. destruct (f (store st)); reflexivity. Qed.

Lemma Write_run buf st :
  (length buf <= roomOf st)%nat -> Write buf st = (Ok (len buf), emit buf st).
Proof.
  intros H. unfold Write, roomOf in *.
  destruct (Nat.leb_spec (length buf) (room (RW (ctx st)))); [reflexivity | lia].
Qed.

Lemma writeLoop_done fuel writeLen l buf st :
  l <= writeLen -> writeLoop fuel writeLen l buf st = (Ok tt, st).
Proof.
  intros H. destruct fuel; cbn [writeLoop];
    destruct (Z.ltb_spec writeLen l); try lia; reflexivity.
Qed.

Lemma writeAll_run buf st :
  (length buf <= roomOf st)%nat -> writeAll buf st = (Ok tt, emit buf st).
Proof.
  intros H. unfold writeAll. cbn [writeLoop].
  destruct (Z.ltb_spec 0 (len buf)) as [Hlt|Hge].
  - rewrite (bind_run _ _ _ _ _ (Write_run buf st H)).
    apply writeLoop_done. lia.
  - destruct buf; [|unfold len in Hge; cbn [length] in Hge; lia].
    rewrite emit_nil. reflexivity.
Qed.

Lemma for4_run v st :
  (4 <= roomOf st)%nat ->
  for4 (fun pos => WriteByte (GetNthByteFromUint32 v pos)) st
  = (Ok tt, emit (be_bytes 4 v) st).
Proof.
  intros H. unfold for4, mbind, M_bind.
  do 4 (write_step; rewrite ?emit_emit; cbn [app]).
  rewrite Nth32. reflexivity.
Qed.

Lemma wrOf_emit bs st : wrOf (emit bs st) = wrOf st ++ bs.
Proof. reflexivity. Qed.

Lemma store_emit bs st : store (emit bs st) = store st.
Proof. reflexivity. Qed.

Lemma rbOf_emit bs st : rbOf (emit bs st) = rbOf st.
Proof. reflexivity. Qed.

Ltac room_tac :=
  rewrite ?roomOf_emit, ?length_app, ?length_headerBytes, ?length_be_bytes; lia.

Ltac run_with lem := erewrite bind_run by (apply lem; room_tac).

Lemma GetHandler_run (header : RequestHeader) (st : State) :
  wf_RequestHeader header ->
  rqExtraLength header = 0 -> 0 < rqKeyLength header ->
  rqTotalBodyLength header = rqKeyLength header ->
  ReadBuf_ok (rbOf st) ->
  (Z.to_nat (rqKeyLength header) <= length (concat (rdOf st)))%nat ->
  store_sized (store st) ->
  let key := take (Z.to_nat (rqKeyLength header)) (concat (rdOf st)) in
  let lookup := GetFromSimpleKV (string_of key) (clock st) (store st) in
  let hit := if snd (fst lookup) then Some (fst (fst lookup)) else None in
  let resp := get_response header key hit in
  (length (wire resp) <= roomOf st)%nat ->
  exists st', GetHandler header st = (Ok tt, st')
              /\ wrOf st' = wrOf st ++ wire resp
              /\ store st' = snd lookup
              /\ ReadBuf_ok (rbOf st')
              /\ exists rd',
                   concat rd' = drop (Z.to_nat (rqKeyLength header)) (concat (rdOf st))
                   /\ st' = emit (wire resp)
                              (set_store (snd lookup) (afterRead rd' (rbOf st') st))
                   /\ (length (rbOf st) <= length (rbOf st'))%nat.
Proof.
  intros Hwf He Hk Ht Hrb Hav Hsz key lookup hit resp Hroom.
  destruct Hwf as [_ _ Hkl _ _ _ _ _ _]. unfold uint in Hkl.
  unfold GetHandler. rewrite He, Ht. cbn [Z.ltb Z.compare].
  destruct (Z.eqb_spec (rqKeyLength header) 0); [lia|].
  unfold wrap at 1. rewrite Z.add_0_r, Z.mod_small by lia. rewrite Z.eqb_refl. cbn [negb].
  destruct (readBody_run header st)
    as (rd' & rb' & Hread & Hcat & Hrb' & Hlen' & Htake & Hgrow).
  { rewrite Ht. unfold MaxReqLen. lia. }
  { exact Hrb. }
  { rewrite Ht. exact Hav. }
  rewrite Ht in Hread, Hcat. fold key in Hread.
  rewrite (bind_run _ _ _ _ _ Hread).
  rewrite (bind_run _ _ _ _ _ (gets_run _ _)).
  rewrite (bind_run _ _ _ _ _ (onStore_run _ _)).
  change (clock (afterRead rd' rb' st)) with (clock st).
  change (store (afterRead rd' rb' st)) with (store st).
  fold lookup. subst resp hit.
  assert (len key = rqKeyLength header) as Hlk.
  { unfold len, key. rewrite length_take. lia. }
  pose proof (GetFromSimpleKV_hit_live (string_of key) (clock st) (store st)) as Hlive.
  fold lookup in Hlive.
  set (st2 := set_store (snd lookup) (afterRead rd' rb' st)).
  assert (roomOf st2 = roomOf st) as Hr2 by reflexivity.
  assert (wrOf st2 = wrOf st) as Hw2 by reflexivity.
  assert (store st2 = snd lookup) as Hs2 by reflexivity.
  assert (rbOf st2 = rb') as Hb2 by reflexivity.
  assert (st2 = set_store (snd lookup) (afterRead rd' rb' st)) as Hst2 by reflexivity.
  clearbody st2.
  destruct lookup as [[val ok] s']. cbn [fst snd] in *. destruct ok; cbn [negb].
  - (* hit *)
    specialize (Hsz _ _ (Hlive eq_refl)). clear Hlive.
    cbn [get_response wire respHeader respBody] in Hroom |- *.
    rewrite !length_app, length_headerBytes, length_be_bytes in Hroom.
    set (h1 := if (rqOpcode header =? OpGetK) || (rqOpcode header =? OpGetKQ)
               then _ else _).
    set (key_out := if returnsKey (rqOpcode header) then key else []) in *.
    assert (KeyLength h1 = len key_out /\ ExtraLength h1 = 4 /\
            h1 = mkResponseHeader 0x81 (rqOpcode header) (len key_out) 4 0 0
                   0 (rqOpaque header) 0) as (Hk1 & He1 & Hh1).
    { subst h1 key_out. unfold returnsKey, OpGetK, OpGetKQ.
      destruct ((rqOpcode header =? 12) || (rqOpcode header =? 13)).
      - cbn. unfold wrap. rewrite Hlk, Z.mod_small by lia. auto.
      - cbn. auto. }
    assert (0 <= len key_out <= 65535) as Hko.
    { subst key_out. destruct (returnsKey _); [lia | unfold len; cbn; lia]. }
    rewrite Hk1, He1.
    assert (wrap 32 (wrap 32 (wrap 32 (len (RawData val)) + 4) + len key_out)
            = 4 + len key_out + len (RawData val)) as ->.
    { assert (0 <= len (RawData val)) by (unfold len; lia).
      unfold wrap, MaxReqLen in *.
      rewrite (Z.mod_small (len (RawData val))) by lia.
      rewrite (Z.mod_small (len (RawData val) + 4)) by lia.
      rewrite Z.mod_small by lia. lia. }
    rewrite Hh1. clear Hk1 He1 Hh1 h1. cbn [set_TotalBodyLength set_CAS Magic Opcode KeyLength ExtraLength
                        DataType Status TotalBodyLength Opaque CAS].
    run_with writeResponseHeader_run. run_with for4_run.
    rewrite emit_emit.
    match goal with |- context [emit ?bs st2] => set (st3 := emit bs st2) end.
    assert (roomOf st3 = (roomOf st2 - 28)%nat) as Hr3.
    { subst st3. rewrite roomOf_emit, length_app, length_headerBytes, length_be_bytes.
      reflexivity. }
    assert ((if 0 <? len key_out then writeAll key else mret tt) st3
            = (Ok tt, emit key_out st3)) as Hkey.
    { subst key_out. destruct (returnsKey (rqOpcode header)).
      - rewrite Hlk. destruct (Z.ltb_spec 0 (rqKeyLength header)); [|lia].
        apply writeAll_run. lia.
      - cbn [len length Z.of_nat Z.ltb Z.compare]. rewrite emit_nil. reflexivity. }
    rewrite (bind_run _ _ _ _ _ Hkey).
    rewrite writeAll_run by (rewrite roomOf_emit; lia).
    subst st3. rewrite !emit_emit. eexists. split; [reflexivity|].
    rewrite wrOf_emit, store_emit, rbOf_emit, Hw2, Hs2, Hb2, <- !app_assoc.
    do 3 (split; [auto|]). exists rd'. split; [exact Hcat|].
    split; [rewrite Hst2; reflexivity | exact Hgrow].
  - (* miss *)
    clear Hlive.
    cbn [get_response] in Hroom |- *. unfold quietGet, OpGetQ, OpGetKQ in *.
    destruct ((rqOpcode header =? 9) || (rqOpcode header =? 13)).
    + exists st2. cbn [wire]. rewrite app_nil_r, Hb2.
      do 4 (split; [auto|]). exists rd'. split; [exact Hcat|].
      rewrite emit_nil. split; [exact Hst2 | exact Hgrow].
    + cbn [wire respHeader respBody] in Hroom |- *.
      rewrite length_app, length_headerBytes in Hroom.
      run_with writeResponseHeader_run.
      rewrite writeEach_run by room_tac.
      rewrite emit_emit. eexists. split; [reflexivity|].
      rewrite wrOf_emit, store_emit, rbOf_emit, Hw2, Hs2, Hb2.
      do 3 (split; [auto|]). exists rd'. split; [exact Hcat|].
      split; [rewrite Hst2; reflexivity | exact Hgrow].
Qed.

(** ** The SET family *)

Lemma GetUint32_field buf :
  (4 <= length buf)%nat -> GetUint32 buf = Some (field buf 0 4).
Proof.
  intros H. destruct buf as [|b0 [|b1 [|b2 [|b3 rest]]]]; cbn [length] in H; try lia.
  rewrite GetUint32_be. reflexivity.
Qed.

Lemma take_drop_take {A} (n m t : nat) (l : list A) :
  (m + n <= t)%nat -> take n (drop m (take t l)) = take n (drop m l).
Proof.
  intros H. rewrite !take_drop_commute, take_take. f_equal. f_equal. lia.
Qed.

Lemma ret_run {A} (a : A) st : (mret a : M A) st = (Ok a, st).
Proof. reflexivity. Qed.

Lemma liftRes_run {A} (a : A) st : liftRes (Ok a) st = (Ok a, st).
Proof. reflexivity. Qed.

Lemma SetHandler_access header st :
  rqExtraLength header = 8 ->
  0 < rqKeyLength header ->
  8 + rqKeyLength header < 2 ^ 16 ->
  rqKeyLength header + rqExtraLength header <= rqTotalBodyLength header ->
  rqTotalBodyLength header <= MaxReqLen ->
  ReadBuf_ok (rbOf st) ->
  (Z.to_nat (rqTotalBodyLength header) <= length (concat (rdOf st)))%nat ->
  let body := set_body header st in
  let key := string_of (body_key header body) in
  let d := dispatch header key (candidate header body (clock st)) (store st) in
  exists out rd' rb',
    SetHandler header st
    = set_output header out (set_store (snd d) (afterRead rd' rb' st))
    /\ concat rd' = drop (Z.to_nat (rqTotalBodyLength header)) (concat (rdOf st))
    /\ ReadBuf_ok rb'
    /\ (length (rbOf st) <= length rb')%nat
    /\ match fst d with
       | Stored e => out = mkSetOutcome false CodeNoError (svCAS e)
       | Failed status message =>
           out = mkSetOutcome true status 0
           /\ (status = CodeKeyNotFound /\ message = "Not found"%string
               \/ status = CodeKeyExists /\ message = "Data exists for key."%string)
       end.
Proof.
  intros He Hk Hk16 Htot Hmax Hrb Hav body key d.
  unfold SetHandler. rewrite He. cbn [Z.eqb Pos.eqb negb orb].
  destruct (Z.eqb_spec (rqKeyLength header) 0); [lia|].
  destruct (readBody_run header st)
    as (rd' & rb' & Hread & Hcat & Hrb' & Hlen' & Htake & Hgrow);
    [lia | exact Hrb | exact Hav |].
  fold (set_body header st) in Hread, Htake. fold body in Hread, Htake.
  set (t := Z.to_nat (rqTotalBodyLength header)) in *.
  set (kl := Z.to_nat (rqKeyLength header)) in *.
  assert (length body = t) as Hlb by (unfold body, set_body; rewrite length_take; lia).
  assert (8 + kl <= t)%nat as Hkt by lia.
  rewrite (bind_run _ _ _ _ _ Hread).
  rewrite (GetUint32_field body) by lia. cbn [must]. rewrite (bind_run _ _ _ _ _ (liftRes_run _ _)).
  destruct (Z.leb_spec 4 (len body)); [|unfold len in *; lia].
  rewrite (GetUint32_field (drop 4 body)) by (rewrite length_drop; lia). cbn [must].
  rewrite (bind_run _ _ _ _ _ (liftRes_run _ _)).
  rewrite (bind_run _ _ _ _ _ (gets_run _ _)).
  assert (wrap 16 (8 + rqKeyLength header) = 8 + rqKeyLength header) as ->
    by (unfold wrap; rewrite Z.mod_small; lia).
  rewrite (bind_run _ _ _ _ _ (gets_run _ _)).
  change (ReadBuf (ctx (afterRead rd' rb' st))) with rb'.
  change (clock (afterRead rd' rb' st)) with (clock st).
  destruct (Z.leb_spec 8 (8 + rqKeyLength header)); [|lia].
  destruct (Z.leb_spec (8 + rqKeyLength header) (len rb')); [|unfold len in *; lia].
  cbn [andb]. rewrite (bind_run _ _ _ _ _ (ret_run tt _)).
  destruct (Z.leb_spec (8 + rqKeyLength header) (len body)); [|unfold len in *; lia].
  rewrite (bind_run _ _ _ _ _ (ret_run tt _)).
  replace (Z.to_nat (8 + rqKeyLength header - 8)) with kl by lia.
  replace (Z.to_nat (8 + rqKeyLength header)) with (8 + kl)%nat by lia.
  assert (take kl (drop 8 rb') = body_key header body) as ->.
  { unfold body_key. fold kl. rewrite <- Htake. symmetry. apply take_drop_take. lia. }
  fold key.
  assert (mkSimpleValue (drop (8 + kl) body) (field body 0 4) 0
            (if 0 <? field (drop 4 body) 0 4
             then wrap_int (field (drop 4 body) 0 4 + Second (clock st))
             else field (drop 4 body) 0 4)
          = candidate header body (clock st)) as ->.
  { unfold candidate, body_value, body_flag, body_raw_ttl, ttl_deadline. fold kl.
    f_equal. unfold field at 4 5. unfold field at 1 2 3. rewrite !drop_0.
    pose proof (be_decode_range (take 4 (drop 4 body))) as Hr.
    assert (len (take 4 (drop 4 body)) = 4) as Hl4
      by (unfold len; rewrite length_take, length_drop; lia).
    rewrite Hl4 in Hr. change (256 ^ 4) with (2 ^ 32) in Hr.
    assert (0 <= Second (clock st) < 60) as Hs by (apply Z.mod_pos_bound; lia).
    destruct (Z.ltb_spec 0 (be_decode (take 4 (drop 4 body)))); [|lia].
    unfold wrap_int. rewrite Z.mod_small; lia. }
  set (cand := candidate header body (clock st)) in *.
  set (st1 := afterRead rd' rb' st).
  assert (store st1 = store st) as Hs1 by reflexivity.
  assert (roomOf st1 = roomOf st) as Hr1 by reflexivity.
  assert (wrOf st1 = wrOf st) as Hw1 by reflexivity.
  assert (rbOf st1 = rb') as Hb1 by reflexivity.
  assert (st1 = afterRead rd' rb' st) as Hst1 by reflexivity.
  clearbody st1. clear Hread Htake Hlen' Hav Hrb.
  (* the store access *)
  match goal with
  | |- context [mbind _ ?m] =>
      match type of m with M SetOutcome => set (access := m) end
  end.
  assert (exists out,
    access st1 = (Ok out, set_store (snd d) st1) /\
    match fst d with
    | Stored e => out = mkSetOutcome false CodeNoError (svCAS e)
    | Failed status message =>
        out = mkSetOutcome true status 0
        /\ (status = CodeKeyNotFound /\ message = "Not found"%string
            \/ status = CodeKeyExists /\ message = "Data exists for key."%string)
    end) as (out & Hacc & Hout).
  { subst access d. unfold dispatch, isAdd, isReplace, OpAdd, OpAddQ, OpReplace, OpReplaceQ.
    destruct ((rqOpcode header =? 2) || (rqOpcode header =? 18)).
    - rewrite (bind_run _ _ _ _ _ (onStore_run _ _)). rewrite Hs1.
      pose proof (AddToSimpleKV_add key cand (store st)) as Hadd.
      destruct (AddToSimpleKV key cand (store st)) as [[v ok] s'].
      rewrite <- Hadd. cbn [prod_map fst snd AddResult_of id].
      destruct ok; cbn [negb fst snd]; eexists; (split; [reflexivity|]); auto.
    - rewrite (bind_run _ _ _ _ _ (onStore_run _ _)). rewrite Hs1.
      pose proof (SetToSimpleKV_set_or_replace key cand (rqCAS header)
                    ((rqOpcode header =? 3) || (rqOpcode header =? 19)) (store st)) as Hset.
      destruct (SetToSimpleKV _ _ _ _ _) as [[[v nf] ok] s'].
      rewrite <- Hset. cbn [prod_map fst snd SetResult_of id].
      destruct nf; [|destruct ok]; cbn [negb fst snd]; eexists;
        (split; [reflexivity|]); auto. }
  rewrite (bind_run _ _ _ _ _ Hacc). rewrite Hst1.
  exists out, rd', rb'. split; [reflexivity|]. auto.
Qed.

Lemma SetHandler_run header st :
  set_ready header st ->
  let body := set_body header st in
  let key := string_of (body_key header body) in
  let d := dispatch header key (candidate header body (clock st)) (store st) in
  exists st', SetHandler header st = (Ok tt, st')
              /\ wrOf st' = wrOf st ++ wire (set_response header (fst d))
              /\ store st' = snd d
              /\ ReadBuf_ok (rbOf st')
              /\ exists rd',
                   concat rd'
                   = drop (Z.to_nat (rqTotalBodyLength header)) (concat (rdOf st))
                   /\ st' = emit (wire (set_response header (fst d)))
                              (set_store (snd d) (afterRead rd' (rbOf st') st))
                   /\ (length (rbOf st) <= length (rbOf st'))%nat.
Proof.
  intros [He Hk Hk16 Htot Hmax Hrb Hav Hroom] body key d.
  destruct (SetHandler_access header st He Hk Hk16 Htot Hmax Hrb Hav)
    as (out & rd' & rb' & Hacc & Hcat & Hrb' & Hgrow & Hout).
  fold body key d in Hacc, Hout. rewrite Hacc. clear Hacc. unfold set_output.
  set (st2 := set_store (snd d) (afterRead rd' rb' st)).
  assert (store st2 = snd d) as Hs2 by reflexivity.
  assert (roomOf st2 = roomOf st) as Hr2 by reflexivity.
  assert (wrOf st2 = wrOf st) as Hw2 by reflexivity.
  assert (rbOf st2 = rb') as Hb2 by reflexivity.
  assert (st2 = set_store (snd d) (afterRead rd' rb' st)) as Hst2 by reflexivity.
  clearbody st2. clear Hav Hrb.
  destruct (fst d) as [e | status message].
  - subst out. cbn [shouldFail responseCode responseCAS set_response].
    unfold quietSet, OpAddQ, OpReplaceQ, OpSetQ.
    replace ((rqOpcode header =? 18) || (rqOpcode header =? 19) || (rqOpcode header =? 17))
      with ((rqOpcode header =? 17) || (rqOpcode header =? 18) || (rqOpcode header =? 19))
      by (destruct (rqOpcode header =? 17), (rqOpcode header =? 18),
                   (rqOpcode header =? 19); reflexivity).
    destruct (_ || _ || _).
    + exists st2. cbn [wire]. rewrite app_nil_r, Hb2.
      do 4 (split; [auto|]). exists rd'. split; [exact Hcat|].
      rewrite emit_nil. split; [exact Hst2 | exact Hgrow].
    + run_with writeResponseHeader_run. cbn [bytes_of String.list_byte_of_string writeEach].
      eexists. split; [reflexivity|]. cbn [wire respHeader respBody].
      rewrite wrOf_emit, store_emit, rbOf_emit, Hw2, Hs2, Hb2, !app_nil_r.
      do 3 (split; [auto|]). exists rd'. split; [exact Hcat|].
      split; [rewrite Hst2; reflexivity | exact Hgrow].
  - destruct Hout as [-> [[-> ->] | [-> ->]]];
      cbn [shouldFail responseCode responseCAS set_response];
      cbn [Z.eqb Pos.eqb CodeKeyNotFound CodeKeyExists];
      run_with writeResponseHeader_run;
      rewrite writeEach_run by (rewrite roomOf_emit, length_headerBytes; cbn [length bytes_of String.list_byte_of_string]; cbn; lia);
      rewrite emit_emit; eexists; (split; [reflexivity|]);
      cbn [wire respHeader respBody];
      rewrite wrOf_emit, store_emit, rbOf_emit, Hw2, Hs2, Hb2;
      (do 3 (split; [auto|])); exists rd'; (split; [exact Hcat|]);
      (split; [rewrite Hst2; reflexivity | exact Hgrow]).
Qed.

Lemma OpHandler_table :
  OpHandler !! OpGet = Some GetHandler /\ OpHandler !! OpGetQ = Some GetHandler
  /\ OpHandler !! OpGetK = Some GetHandler /\ OpHandler !! OpGetKQ = Some GetHandler
  /\ OpHandler !! OpSet = Some SetHandler /\ OpHandler !! OpSetQ = Some SetHandler
  /\ OpHandler !! OpAdd = Some SetHandler /\ OpHandler !! OpAddQ = Some SetHandler
  /\ OpHandler !! OpReplace = Some SetHandler
  /\ OpHandler !! OpReplaceQ = Some SetHandler
  /\ OpHandler !! OpVersion = Some VersionHandler
  /\ OpHandler !! OpNoOp = Some NoOpHandler /\ OpHandler !! OpQuit = Some QuitHandler.
Proof. repeat split; reflexivity. Qed.

(** ** What a dispatch leaves in the store *)

Lemma store_entry_lookup key cand s :
  simplekvMap (snd (store_entry key cand s)) !! key = Some (fst (store_entry key cand s)).
Proof. unfold store_entry. cbn. apply lookup_insert_eq. Qed.

Lemma dispatch_cases header key cand s :
  (exists status message, dispatch header key cand s = (Failed status message, s)
     /\ (status = 0x0001 /\ message = "Not found"%string
         \/ status = 0x0002 /\ message = "Data exists for key."%string))
  \/ dispatch header key cand s
     = (Stored (fst (store_entry key cand s)), snd (store_entry key cand s)).
Proof.
  unfold dispatch, add, set_or_replace.
  destruct (isAdd (rqOpcode header)).
  - destruct (simplekvMap s !! key); [left; eauto 6 | right; reflexivity].
  - destruct (simplekvMap s !! key) as [cur|].
    + destruct (negb _ && negb _); [left; eauto 6 | right; reflexivity].
    + destruct (isReplace (rqOpcode header)); [left; eauto 6 | right; reflexivity].
Qed.

Lemma length_body_value header st :
  (length (body_value header (set_body header st))
   <= Z.to_nat (rqTotalBodyLength header))%nat.
Proof.
  unfold body_value, set_body. rewrite length_drop, length_take. lia.
Qed.

(** The handlers keep values within [MaxReqLen]: the hypothesis of the
    GET family on the store holds in every state the server reaches. *)
Lemma SetHandler_store_sized header st :
  set_ready header st -> store_sized (store st) ->
  exists st', SetHandler header st = (Ok tt, st')
              /\ store_sized (store st') /\ ReadBuf_ok (rbOf st').
Proof.
  intros Hready Hsz.
  destruct (SetHandler_run header st Hready) as (st' & Hrun & _ & Hst & Hrb & _).
  exists st'. split; [exact Hrun|]. split; [|exact Hrb].
  rewrite Hst.
  destruct (dispatch_cases header
              (string_of (body_key header (set_body header st)))
              (candidate header (set_body header st) (clock st)) (store st))
    as [(status & message & -> & _) | ->]; [exact Hsz|].
  intros k e. unfold store_entry. cbn [snd simplekvMap]. intros Hk.
  apply lookup_insert_Some in Hk as [[_ <-] | [_ Hk]].
  - cbn [RawData set_svCAS candidate].
    pose proof (length_body_value header st) as Hl.
    destruct Hready as [_ _ _ _ Hmax _ _ _]. unfold len, MaxReqLen in *. lia.
  - eauto.
Qed.

Lemma GetFromSimpleKV_store_sized key clock s :
  store_sized s -> store_sized (snd (GetFromSimpleKV key clock s)).
Proof.
  intros Hsz. destruct (GetFromSimpleKV_cases key clock s) as [-> | ->]; [exact Hsz|].
  intros k e. cbn. intros Hk. apply lookup_delete_Some in Hk as [_ Hk]. eauto.
Qed.

(** ** Lookup and expiry *)

Section Expiry.
Variables (key : string) (clock : Z) (s : Store) (e : SimpleValue).
Hypothesis Hlive : simplekvMap s !! key = Some e.

(** What other connections do between the two critical sections. *)
Variable env : Store -> Store.

Lemma GetFromSimpleKV_env_live :
  TTL e = 0 \/ Second clock <= TTL e ->
  GetFromSimpleKV_env env key clock s = ((e, true), s).
Proof.
  intros Hok. unfold GetFromSimpleKV_env. rewrite Hlive.
  destruct (Z.eqb_spec (TTL e) 0) as [E|E]; cbn [negb andb]; [reflexivity|].
  destruct (Z.ltb_spec (TTL e) (Second clock)); [lia | reflexivity].
Qed.

Lemma GetFromSimpleKV_env_expired :
  TTL e <> 0 -> TTL e < Second clock ->
  GetFromSimpleKV_env env key clock s
  = match simplekvMap (env s) !! key with
    | Some e' =>
        if svCAS e' =? svCAS e
        then ((SimpleValue0, false),
              mkStore (delete key (simplekvMap (env s))) (casID (env s)))
        else ((e', true), env s)
    | None => ((SimpleValue0, false), env s)
    end.
Proof.
  intros Hne Hlt. unfold GetFromSimpleKV_env. rewrite Hlive.
  destruct (Z.eqb_spec (TTL e) 0) as [E|E]; [lia|]. cbn [negb andb].
  destruct (Z.ltb_spec (TTL e) (Second clock)); [reflexivity | lia].
Qed.
End Expiry.

Lemma GetFromSimpleKV_other key clock s k :
  k <> key ->
  simplekvMap (snd (GetFromSimpleKV key clock s)) !! k = simplekvMap s !! k.
Proof.
  intros Hne. destruct (GetFromSimpleKV_cases key clock s) as [-> | ->]; [reflexivity|].
  cbn. apply lookup_delete_ne. congruence.
Qed.

Lemma AddToSimpleKV_keeps key newVal s k :
  is_Some (simplekvMap s !! k) ->
  is_Some (simplekvMap (snd (AddToSimpleKV key newVal s)) !! k).
Proof.
  intros Hk. destruct (AddToSimpleKV_cases key newVal s) as [[-> _] | [-> _]]; [exact Hk|].
  cbn. rewrite lookup_insert_is_Some'. auto.
Qed.

Lemma SetToSimpleKV_keeps key newVal cas replace s k :
  is_Some (simplekvMap s !! k) ->
  is_Some (simplekvMap (snd (SetToSimpleKV key newVal cas replace s)) !! k).
Proof.
  intros Hk.
  destruct (SetToSimpleKV_cases key newVal cas replace s) as [[nf ->] | ->]; [exact Hk|].
  cbn. rewrite lookup_insert_is_Some'. auto.
Qed.

(** ** Decoding short and long slices *)

Lemma GetUint16_None buf : GetUint16 buf = None <-> (length buf < 2)%nat.
Proof.
  destruct buf as [|b0 [|b1 rest]]; cbn [length].
  - split; [lia | reflexivity].
  - split; [lia | reflexivity].
  - rewrite GetUint16_be. split; [discriminate | lia].
Qed.

Lemma GetUint32_None buf : GetUint32 buf = None <-> (length buf < 4)%nat.
Proof.
  destruct buf as [|b0 [|b1 [|b2 [|b3 rest]]]]; cbn [length];
    try (split; [lia | reflexivity]).
  rewrite GetUint32_be. split; [discriminate | lia].
Qed.

Lemma GetUint64_None buf : GetUint64 buf = None <-> (length buf < 8)%nat.
Proof.
  destruct buf as [|b0 [|b1 [|b2 [|b3 [|b4 [|b5 [|b6 [|b7 rest]]]]]]]]; cbn [length];
    try (split; [lia | reflexivity]).
  rewrite GetUint64_be. split; [discriminate | lia].
Qed.

Lemma Nth32_at v :
  GetNthByteFromUint32 v 0 = to_byte (v / 256 / 256 / 256)
  /\ GetNthByteFromUint32 v 1 = to_byte (v / 256 / 256)
  /\ GetNthByteFromUint32 v 2 = to_byte (v / 256)
  /\ GetNthByteFromUint32 v 3 = to_byte v.
Proof.
  pose proof (Nth32 v) as Hn. cbn [be_bytes app] in Hn.
  injection Hn as H0 H1 H2 H3. repeat split; assumption.
Qed.

(** ** The parser on explicit bytes *)

Lemma parse_explicit b0 b1 b2 b3 b4 b5 b6 b7 b8 b9 b10 b11 b12 b13 b14 b15
    b16 b17 b18 b19 b20 b21 b22 b23 rest :
  parseRequestHeader
    (b0 :: b1 :: b2 :: b3 :: b4 :: b5 :: b6 :: b7 :: b8 :: b9 :: b10 :: b11
     :: b12 :: b13 :: b14 :: b15 :: b16 :: b17 :: b18 :: b19 :: b20 :: b21
     :: b22 :: b23 :: rest)
  = if negb (byteZ b0 =? 0x80) then Err (ErrMagic (byteZ b0))
    else if negb (bool_decide (is_Some (OpHandler !! byteZ b1)))
    then Err (ErrOpcode (byteZ b1))
    else if negb (byteZ b5 =? 0) then Err (ErrDataType (byteZ b5))
    else if be_decode [b8; b9; b10; b11] <? be_decode [b2; b3] + byteZ b4
    then Err ErrBodyLength
    else Ok (mkRequestHeader (byteZ b0) (byteZ b1) (be_decode [b2; b3]) (byteZ b4)
               (byteZ b5) (be_decode [b6; b7]) (be_decode [b8; b9; b10; b11])
               (be_decode [b12; b13; b14; b15])
               (be_decode [b16; b17; b18; b19; b20; b21; b22; b23])).
Proof.
  unfold parseRequestHeader.
  cbn [index sliceFrom must lookup list_lookup drop length Nat.leb mbind Res_bind].
  rewrite !GetUint16_be, !GetUint32_be, GetUint64_be.
  cbn [must mbind Res_bind].
  pose proof (be_decode_range [b8; b9; b10; b11]) as Ht.
  pose proof (be_decode_range [b2; b3]) as Hk.
  pose proof (byteZ_range b4) as He.
  change (256 ^ len [b8; b9; b10; b11]) with (2 ^ 32) in Ht.
  change (256 ^ len [b2; b3]) with (2 ^ 16) in Hk.
  replace (wrap 64 (be_decode [b8; b9; b10; b11])) with (be_decode [b8; b9; b10; b11])
    by (unfold wrap; rewrite Z.mod_small; lia).
  replace (wrap 64 (wrap 64 (be_decode [b2; b3]) + wrap 64 (byteZ b4)))
    with (be_decode [b2; b3] + byteZ b4)
    by (unfold wrap; rewrite !Z.mod_small; rewrite ?Z.mod_small; lia).
  reflexivity.
Qed.

Ltac parse_short_case :=
  unfold parseRequestHeader;
  cbn [index sliceFrom must lookup list_lookup drop length Nat.leb mbind Res_bind];
  rewrite ?GetUint16_be, ?GetUint32_be;
  rewrite ?(proj2 (GetUint16_None _)) by (cbn [length]; lia);
  rewrite ?(proj2 (GetUint32_None _)) by (cbn [length]; lia);
  rewrite ?(proj2 (GetUint64_None _)) by (cbn [length]; lia);
  cbn [must mbind Res_bind];
  repeat match goal with
         | |- context [if ?c then _ else _] => destruct c
         end;
  eauto.

Lemma parse_short buf :
  (length buf < 24)%nat -> exists e, parseRequestHeader buf = Err e.
Proof.
  intros H.
  do 24 (destruct buf as [|? buf]; [parse_short_case|]).
  cbn [length] in H. lia.
Qed.

(** A header that parses is one the handlers can rely on: every field
    is within its Go type, the magic is 0x80, the data type 0, the opcode
    has a handler in [OpHandler], and the total body length covers key and
    extras. *)
Lemma parse_ok (buf : list byte) (h : RequestHeader) :
  parseRequestHeader buf = Ok h ->
  wf_RequestHeader h
  /\ rqMagic h = MagicRequest /\ rqDataType h = 0
  /\ is_Some (OpHandler !! rqOpcode h)
  /\ rqKeyLength h + rqExtraLength h <= rqTotalBodyLength h
  /\ (24 <= length buf)%nat.
Proof.
  intros Hp.
  destruct (Nat.lt_ge_cases (length buf) 24) as [Hlt|Hge].
  { destruct (parse_short buf Hlt) as [e He]. congruence. }
  destruct buf as
    [|b0 [|b1 [|b2 [|b3 [|b4 [|b5 [|b6 [|b7 [|b8 [|b9 [|b10 [|b11 [|b12 [|b13
     [|b14 [|b15 [|b16 [|b17 [|b18 [|b19 [|b20 [|b21 [|b22 [|b23 rest
     ]]]]]]]]]]]]]]]]]]]]]]]]; cbn [length] in Hge; try lia.
  rewrite parse_explicit in Hp. unfold MagicRequest.
  destruct (Z.eqb_spec (byteZ b0) 128) as [Em|Em]; cbn [negb] in Hp; [|discriminate].
  destruct (bool_decide_reflect (is_Some (OpHandler !! byteZ b1))) as [Eo|Eo];
    cbn [negb] in Hp; [|discriminate].
  destruct (Z.eqb_spec (byteZ b5) 0) as [Ed|Ed]; cbn [negb] in Hp; [|discriminate].
  match type of Hp with context [?x <? ?y] => destruct (Z.ltb_spec x y) as [El|El] end;
    [discriminate|].
  injection Hp as <-. cbn [rqMagic rqDataType rqOpcode rqKeyLength rqExtraLength
                             rqTotalBodyLength].
  repeat apply conj; auto; try lia.
  constructor; unfold uint; cbn [rqMagic rqOpcode rqKeyLength rqExtraLength rqDataType
                                 rqVBucketID rqTotalBodyLength rqOpaque rqCAS];
    first [ apply byteZ_range
          | apply (be_decode_range [_; _])
          | apply (be_decode_range [_; _; _; _])
          | apply (be_decode_range [_; _; _; _; _; _; _; _]) ].
Qed.

(** ** Lookups *)

Lemma Second_range clock : 0 <= Second clock < 60.
Proof. unfold Second. apply Z.mod_pos_bound. lia. Qed.

Lemma GetFromSimpleKV_absent key clock s :
  simplekvMap s !! key = None ->
  GetFromSimpleKV key clock s = ((SimpleValue0, false), s).
Proof.
  intros Hk. unfold GetFromSimpleKV, GetFromSimpleKV_env. rewrite Hk. reflexivity.
Qed.

Lemma GetFromSimpleKV_live key clock s e :
  simplekvMap s !! key = Some e ->
  TTL e = 0 \/ Second clock <= TTL e ->
  GetFromSimpleKV key clock s = ((e, true), s).
Proof. intros Hk Hl. apply (GetFromSimpleKV_env_live key clock s e Hk id Hl). Qed.

Lemma GetFromSimpleKV_expired key clock s e :
  simplekvMap s !! key = Some e ->
  TTL e <> 0 -> TTL e < Second clock ->
  GetFromSimpleKV key clock s
  = ((SimpleValue0, false), mkStore (delete key (simplekvMap s)) (casID s)).
Proof.
  intros Hk Hne Hlt. unfold GetFromSimpleKV.
  rewrite (GetFromSimpleKV_env_expired key clock s e Hk id Hne Hlt).
  cbn [id]. rewrite Hk, Z.eqb_refl. reflexivity.
Qed.

(** ** Error paths of the handlers *)

Lemma readLoop_eof chunks : forall fuel (r t : nat) st,
  rdOf st = chunks -> (length chunks < fuel)%nat ->
  (r <= t)%nat -> (t <= length (rbOf st))%nat ->
  (length (concat chunks) < t - r)%nat ->
  exists rb', readLoop fuel (Z.of_nat r) (Z.of_nat t) st = (Err EOF, afterRead [] rb' st)
              /\ length rb' = length (rbOf st).
Proof.
  induction chunks as [|c rest IH]; intros fuel r t st Hrd Hfuel Hrt Hrb Hav.
  - destruct fuel as [|fuel]; [cbn in Hfuel; lia|]. cbn [readLoop].
    destruct (Z.ltb_spec (Z.of_nat r) (Z.of_nat t)); [|cbn in Hav; lia].
    unfold mbind at 1, M_bind at 1, Read at 1. unfold rdOf in Hrd. rewrite Hrd.
    exists (rbOf st). split; [|reflexivity].
    f_equal. rewrite <- (afterRead_id st) at 1. unfold rdOf. rewrite Hrd. reflexivity.
  - destruct fuel as [|fuel]; [lia|]. cbn [readLoop].
    cbn [concat] in Hav. rewrite length_app in Hav.
    destruct (Z.ltb_spec (Z.of_nat r) (Z.of_nat t)); [|lia].
    replace (Z.to_nat (Z.of_nat t - Z.of_nat r)) with (t - r)%nat by lia.
    unfold mbind at 1, M_bind at 1. unfold Read at 1.
    unfold rdOf in Hrd. rewrite Hrd.
    unfold mbind at 1, M_bind at 1. unfold modify at 1.
    rewrite Nat2Z.id.
    assert (length c <= t - r)%nat as Hc by lia.
    rewrite Nat.min_r by lia. rewrite Nat.ltb_irrefl. rewrite take_ge by lia.
    unfold len. rewrite <- Nat2Z.inj_add.
    match goal with |- context [readLoop fuel _ _ ?st1] =>
      destruct (IH fuel (r + length c)%nat t st1) as (rb' & Hrun & Hlen)
    end.
    + reflexivity.
    + cbn [length] in Hfuel. lia.
    + lia.
    + unfold rbOf, set_ReadBuf, set_RW. cbn.
      rewrite length_overwrite; unfold rbOf in *; lia.
    + lia.
    + exists rb'. rewrite Hrun. split; [reflexivity|]. rewrite Hlen.
      unfold rbOf, set_ReadBuf, set_RW. cbn.
      apply length_overwrite. unfold rbOf in *. lia.
Qed.

Lemma readBody_eof header st :
  0 <= rqTotalBodyLength header <= MaxReqLen ->
  ReadBuf_ok (rbOf st) ->
  (length (concat (rdOf st)) < Z.to_nat (rqTotalBodyLength header))%nat ->
  exists rb', readBody header st = (Err EOF, afterRead [] rb' st).
Proof.
  intros Ht Hok Hav.
  destruct (readBody_start header st Ht Hok) as (rb0 & Hok0 & Hlen0 & _ & ->).
  destruct (readLoop_eof (rdOf st) (S (length (rdOf st))) 0
              (Z.to_nat (rqTotalBodyLength header)) (afterRead (rdOf st) rb0 st))
    as (rb' & Hrun & _); try reflexivity; try lia.
  { cbn. exact Hlen0. }
  change (Z.of_nat 0) with 0 in Hrun.
  replace (Z.of_nat (Z.to_nat (rqTotalBodyLength header)))
    with (rqTotalBodyLength header) in Hrun by lia.
  rewrite Hrun. exists rb'. reflexivity.
Qed.

Lemma readBody_too_large header st :
  MaxReqLen < rqTotalBodyLength header -> ReadBuf_ok (rbOf st) ->
  readBody header st = (Err ErrTooLarge, st).
Proof.
  intros Ht [k [Hk Hrb]].
  assert (2 ^ Z.of_nat k <= MaxReqLen) as Hpow
    by (change MaxReqLen with (2 ^ 30); apply Z.pow_le_mono_r; lia).
  unfold readBody. cbv [mbind M_bind gets]. fold (rbOf st).
  unfold wrap. rewrite Hrb. rewrite Z.mod_small by (unfold MaxReqLen in *; lia).
  destruct (Z.ltb_spec (2 ^ Z.of_nat k) (rqTotalBodyLength header)); [|lia].
  destruct (Z.ltb_spec MaxReqLen (rqTotalBodyLength header)); [|lia].
  reflexivity.
Qed.

Lemma SetHandler_long_key header st :
  rqExtraLength header = 8 ->
  2 ^ 16 <= 8 + rqKeyLength header < 2 ^ 16 + 8 ->
  rqKeyLength header + rqExtraLength header <= rqTotalBodyLength header <= MaxReqLen ->
  ReadBuf_ok (rbOf st) ->
  (Z.to_nat (rqTotalBodyLength header) <= length (concat (rdOf st)))%nat ->
  exists rd' rb', SetHandler header st = (Err Panic, afterRead rd' rb' st).
Proof.
  intros He Hk Htot Hrb Hav.
  unfold SetHandler. rewrite He. cbn [Z.eqb Pos.eqb negb orb].
  destruct (Z.eqb_spec (rqKeyLength header) 0); [lia|].
  destruct (readBody_run header st) as (rd' & rb' & Hread & _ & _ & Hlen' & _);
    [lia | exact Hrb | exact Hav |].
  set (body := take (Z.to_nat (rqTotalBodyLength header)) (concat (rdOf st))) in *.
  assert (length body = Z.to_nat (rqTotalBodyLength header)) as Hlb
    by (unfold body; rewrite length_take; lia).
  rewrite (bind_run _ _ _ _ _ Hread).
  rewrite (GetUint32_field body) by lia. cbn [must].
  rewrite (bind_run _ _ _ _ _ (liftRes_run _ _)).
  destruct (Z.leb_spec 4 (len body)); [|unfold len in *; lia].
  rewrite (GetUint32_field (drop 4 body)) by (rewrite length_drop; lia). cbn [must].
  rewrite (bind_run _ _ _ _ _ (liftRes_run _ _)).
  rewrite (bind_run _ _ _ _ _ (gets_run _ _)).
  rewrite (bind_run _ _ _ _ _ (gets_run _ _)).
  assert (wrap 16 (8 + rqKeyLength header) = 8 + rqKeyLength header - 2 ^ 16) as ->.
  { unfold wrap. symmetry. apply (Z.mod_unique_pos _ _ 1); lia. }
  destruct (Z.leb_spec 8 (8 + rqKeyLength header - 2 ^ 16)); [lia|].
  cbn [andb]. unfold mbind at 1, M_bind at 1, throw at 1. eauto.
Qed.

(** Writing never touches the store, whether it succeeds or fails. *)
Lemma bind_store {A B} (m : M A) (f : A -> M B) :
  (forall st, store (snd (m st)) = store st) ->
  (forall a st, store (snd (f a st)) = store st) ->
  forall st, store (snd ((m ≫= f) st)) = store st.
Proof.
  intros Hm Hf st. unfold mbind, M_bind. specialize (Hm st).
  destruct (m st) as [[a|e] st1]; cbn [snd] in *; [|exact Hm].
  rewrite Hf. exact Hm.
Qed.

Lemma WriteByte_store c st : store (snd (WriteByte c st)) = store st.
Proof. unfold WriteByte. destruct (room (RW (ctx st))); reflexivity. Qed.

Lemma writeEach_store bs : forall st, store (snd (writeEach bs st)) = store st.
Proof.
  induction bs as [|c bs IH]; [reflexivity|]. cbn [writeEach].
  apply bind_store; [apply WriteByte_store | intros _; exact IH].
Qed.

Ltac store_tac :=
  first [ apply WriteByte_store
        | apply bind_store; [store_tac | intros _; store_tac] ].

Lemma writeResponseHeader_store h : forall st,
  store (snd (writeResponseHeader h st)) = store st.
Proof. unfold writeResponseHeader, for4. cbv zeta. store_tac. Qed.

Lemma set_output_store header out : forall st,
  store (snd (set_output header out st)) = store st.
Proof.
  intros st. unfold set_output. cbv zeta.
  destruct (shouldFail out).
  - destruct (responseCode out =? CodeKeyNotFound);
      [|destruct (responseCode out =? CodeKeyExists)];
      (apply bind_store; [apply writeResponseHeader_store | intros _; apply writeEach_store]).
  - destruct (_ || _ || _); [reflexivity|].
    apply bind_store; [apply writeResponseHeader_store | intros _; apply writeEach_store].
Qed.

Lemma dispatch_absent_replace header key cand s :
  isAdd (rqOpcode header) = false -> isReplace (rqOpcode header) = true ->
  simplekvMap s !! key = None ->
  dispatch header key cand s = (Failed 0x0001 "Not found", s).
Proof.
  intros Ha Hr Hk. unfold dispatch, set_or_replace. rewrite Ha, Hr, Hk. reflexivity.
Qed.

Lemma handlers_refuse (header : RequestHeader) (st : State) :
  (0 < rqExtraLength header -> GetHandler header st = (Err ErrGetExtra, st))
  /\ (rqExtraLength header <= 0 -> rqKeyLength header = 0 ->
        GetHandler header st = (Err ErrGetNoKey, st))
  /\ (rqExtraLength header <= 0 -> rqKeyLength header <> 0 ->
        rqTotalBodyLength header
        <> (rqKeyLength header + rqExtraLength header) mod 2 ^ 32 ->
        GetHandler header st = (Err ErrGetHasValue, st))
  /\ (rqExtraLength header <> 8 \/ rqKeyLength header = 0 ->
        SetHandler header st = (Err ErrSetShape, st)).
Proof.
  repeat apply conj.
  - intros H. unfold GetHandler. destruct (Z.ltb_spec 0 (rqExtraLength header)); [|lia].
    reflexivity.
  - intros H H0. unfold GetHandler.
    destruct (Z.ltb_spec 0 (rqExtraLength header)); [lia|].
    rewrite H0. reflexivity.
  - intros H H0 Ht. unfold GetHandler.
    destruct (Z.ltb_spec 0 (rqExtraLength header)); [lia|].
    destruct (Z.eqb_spec (rqKeyLength header) 0); [contradiction|].
    unfold wrap.
    destruct (Z.eqb_spec (rqTotalBodyLength header)
                ((rqKeyLength header + rqExtraLength header) mod 2 ^ 32));
      [contradiction | reflexivity].
  - intros H. unfold SetHandler.
    destruct (Z.eqb_spec (rqExtraLength header) 8), (Z.eqb_spec (rqKeyLength header) 0);
      cbn [negb orb]; try reflexivity.
    destruct H; contradiction.
Qed.

(** ** Requests without a body *)

Lemma hasBody_false header :
  wf_RequestHeader header ->
  (hasBody header = false <->
   rqKeyLength header = 0 /\ rqExtraLength header = 0 /\ rqTotalBodyLength header = 0).
Proof.
  intros [_ _ Hk He _ _ Ht _ _]. unfold uint, hasBody in *.
  destruct (Z.ltb_spec 0 (rqKeyLength header)), (Z.ltb_spec 0 (rqExtraLength header)),
    (Z.ltb_spec 0 (rqTotalBodyLength header)); cbn [orb];
    split; try discriminate; try lia; intros; reflexivity.
Qed.

Lemma nobody_refuses header st :
  hasBody header = true ->
  VersionHandler header st = (Err ErrNoBody, st)
  /\ NoOpHandler header st = (Err ErrNoBody, st)
  /\ QuitHandler header st = (Err ErrNoBody, st).
Proof.
  intros H. unfold VersionHandler, NoOpHandler, QuitHandler. rewrite H. auto.
Qed.

(** ** One command *)

Lemma header_read st :
  (24 <= length (rbOf st))%nat -> (24 <= length (concat (rdOf st)))%nat ->
  exists rd',
    readLoop (S (length (rdOf st))) 0 24 st
    = (Ok tt, afterRead rd' (overwrite 0 (take 24 (concat (rdOf st))) (rbOf st)) st)
    /\ concat rd' = drop 24 (concat (rdOf st)).
Proof.
  intros Hrb Hav.
  destruct (readLoop_run (rdOf st) (S (length (rdOf st))) 0 24 st)
    as (rd' & Hrun & Hcat & _); try reflexivity; try lia.
  exists rd'. split; [exact Hrun | exact Hcat].
Qed.

Lemma take_header_read (hb rb : list byte) :
  length hb = 24%nat -> take 24 (overwrite 0 hb rb) = hb.
Proof. intros H. rewrite <- H at 1. apply take_overwrite_0. Qed.

Lemma ReadBuf_ok_overwrite (hb rb : list byte) :
  (length hb <= length rb)%nat -> ReadBuf_ok rb -> ReadBuf_ok (overwrite 0 hb rb).
Proof.
  intros Hl [k [Hk Hrb]]. exists k. split; [exact Hk|].
  unfold len in *. rewrite length_overwrite by lia. exact Hrb.
Qed.

Lemma handleCommand_parsed c :
  let st := cState c in
  (24 <= length (rbOf st))%nat -> (24 <= length (concat (rdOf st)))%nat ->
  exists rd',
    concat rd' = drop 24 (concat (rdOf st))
    /\ handleCommand c
       = let st1 := afterHeader rd' st in
         let next st' := mkConn st' (wrap 64 (CommandSeq c + 1)) (clock st) in
         let bufHeader := take 24 (concat (rdOf st)) in
         match parseRequestHeader bufHeader with
         | Err e =>
             match errorText e bufHeader with
             | Some text =>
                 (Err e,
                  next (snd (Write (bytes_of "Error " ++ bytes_of text ++ [x0a]) st1)))
             | None => (Err e, next st1)
             end
         | Ok reqHeader =>
             match OpHandler !! rqOpcode reqHeader with
             | Some Handle =>
                 let (r, st2) := (Handle : HandleFunc) reqHeader st1 in (r, next st2)
             | None => (Err Panic, next st1)
             end
         end.
Proof.
  intros st Hrb Hav. destruct (header_read st Hrb Hav) as (rd' & Hrun & Hcat).
  exists rd'. split; [exact Hcat|].
  unfold handleCommand. fold st. fold (rbOf st) (rdOf st).
  destruct (Nat.ltb_spec (length (rbOf st)) 24); [lia|].
  rewrite Hrun. cbv zeta. fold (afterHeader rd' st).
  change (ReadBuf (ctx (afterHeader rd' st)))
    with (overwrite 0 (take 24 (concat (rdOf st))) (rbOf st)).
  rewrite take_header_read by (rewrite length_take; lia).
  reflexivity.
Qed.

Lemma be_bytes_be_decode (bs : list byte) : be_bytes (length bs) (be_decode bs) = bs.
Proof.
  induction bs as [|b bs IH] using rev_ind; [reflexivity|].
  rewrite length_app, Nat.add_1_r, be_decode_snoc. cbn [length be_bytes].
  pose proof (byteZ_range b).
  replace ((be_decode bs * 256 + byteZ b) / 256) with (be_decode bs)
    by (Z.div_mod_to_equations; lia).
  rewrite IH. f_equal. f_equal.
  rewrite <- (to_byte_byteZ b) at 2. apply to_byte_mod.
  Z.div_mod_to_equations; lia.
Qed.

Lemma to_byte_small z : 0 <= z < 2 ^ 8 -> byteZ (to_byte z) = z.
Proof. intros H. rewrite byteZ_to_byte. apply Z.mod_small. lia. Qed.

Lemma parse_requestBytes h rest :
  valid_header h -> parseRequestHeader (requestBytes h ++ rest) = Ok h.
Proof.
  intros [[Hm Ho Hk He Hd Hv Ht Hq Hc] Hmag Hop Hdt Htot]. unfold uint in *.
  unfold requestBytes. cbn [be_bytes app]. rewrite parse_explicit.
  rewrite !to_byte_small by assumption.
  rewrite !be_decode_2, !be_decode_4, be_decode_8.
  rewrite !Z.mod_small by assumption.
  rewrite Hmag. unfold MagicRequest. cbn [Z.eqb Pos.eqb negb].
  rewrite bool_decide_eq_true_2 by (apply OpHandler_dom; exact Hop). cbn [negb].
  rewrite Hdt. cbn [Z.eqb negb].
  destruct (Z.ltb_spec (rqTotalBodyLength h) (rqKeyLength h + rqExtraLength h)); [lia|].
  destruct h; cbn in *. subst. reflexivity.
Qed.

Lemma parse_take_24 buf h :
  parseRequestHeader buf = Ok h -> take 24 buf = requestBytes h.
Proof.
  intros Hp.
  destruct (Nat.lt_ge_cases (length buf) 24) as [Hlt|Hge].
  { destruct (parse_short buf Hlt) as [e He]. congruence. }
  destruct buf as
    [|b0 [|b1 [|b2 [|b3 [|b4 [|b5 [|b6 [|b7 [|b8 [|b9 [|b10 [|b11 [|b12 [|b13
     [|b14 [|b15 [|b16 [|b17 [|b18 [|b19 [|b20 [|b21 [|b22 [|b23 rest
     ]]]]]]]]]]]]]]]]]]]]]]]]; cbn [length] in Hge; try lia.
  rewrite parse_explicit in Hp.
  repeat match type of Hp with
         | (if ?c then _ else _) = _ => destruct c; [discriminate|]
         end.
  injection Hp as <-. unfold requestBytes.
  cbn [rqMagic rqOpcode rqKeyLength rqExtraLength rqDataType rqVBucketID
       rqTotalBodyLength rqOpaque rqCAS].
  rewrite !to_byte_byteZ.
  repeat match goal with
         | |- context [be_bytes ?n (be_decode ?bs)] =>
             change (be_bytes n (be_decode bs))
               with (be_bytes (length bs) (be_decode bs));
             rewrite (be_bytes_be_decode bs)
         end.
  cbn [take app]. rewrite take_0. reflexivity.
Qed.

Lemma length_requestBytes h : length (requestBytes h) = 24%nat.
Proof. reflexivity. Qed.

Lemma parse_errors buf e :
  (24 <= length buf)%nat -> parseRequestHeader buf = Err e ->
  is_Some (errorText e buf).
Proof.
  intros Hge Hp.
  destruct buf as
    [|b0 [|b1 [|b2 [|b3 [|b4 [|b5 [|b6 [|b7 [|b8 [|b9 [|b10 [|b11 [|b12 [|b13
     [|b14 [|b15 [|b16 [|b17 [|b18 [|b19 [|b20 [|b21 [|b22 [|b23 rest
     ]]]]]]]]]]]]]]]]]]]]]]]]; cbn [length] in Hge; try lia.
  rewrite parse_explicit in Hp.
  repeat match type of Hp with
         | (if ?c then _ else _) = _ => destruct c; [injection Hp as <-; cbn; eauto|]
         end.
  discriminate.
Qed.

Lemma OpHandler_get op :
  op ∈ [OpGet; OpGetQ; OpGetK; OpGetKQ] -> OpHandler !! op = Some GetHandler.
Proof.
  rewrite !elem_of_cons, elem_of_nil.
  intros [-> | [-> | [-> | [-> | []]]]]; reflexivity.
Qed.

Lemma OpHandler_set op :
  op ∈ [OpSet; OpSetQ; OpAdd; OpAddQ; OpReplace; OpReplaceQ] ->
  OpHandler !! op = Some SetHandler.
Proof.
  rewrite !elem_of_cons, elem_of_nil.
  intros [-> | [-> | [-> | [-> | [-> | [-> | []]]]]]]; reflexivity.
Qed.

Lemma handleCommand_valid c h tail :
  let st := cState c in
  valid_header h ->
  (24 <= length (rbOf st))%nat ->
  concat (rdOf st) = requestBytes h ++ tail ->
  exists rd' Handle,
    concat rd' = tail
    /\ OpHandler !! rqOpcode h = Some Handle
    /\ handleCommand c
       = let (r, st2) := (Handle : HandleFunc) h (afterHeader rd' st) in
         (r, mkConn st2 (wrap 64 (CommandSeq c + 1)) (clock st)).
Proof.
  intros st Hv Hrb Hin.
  assert (24 <= length (concat (rdOf st)))%nat as Hav
    by (rewrite Hin, length_app, length_requestBytes; lia).
  destruct (handleCommand_parsed c Hrb Hav) as (rd' & Hcat & Hrun).
  fold st in Hcat, Hrun. cbv zeta in Hrun.
  rewrite Hin in Hcat, Hrun.
  rewrite drop_app_length' in Hcat by reflexivity.
  rewrite take_app_length' in Hrun by reflexivity.
  rewrite <- (app_nil_r (requestBytes h)) in Hrun at 1.
  rewrite (parse_requestBytes h [] Hv) in Hrun.
  destruct (proj2 (OpHandler_dom (rqOpcode h)) (vh_opcode h Hv)) as [Handle HH].
  rewrite HH in Hrun. exists rd', Handle. auto.
Qed.

Lemma handleCommand_get_run (c : Conn) (h : RequestHeader) (key rest : list byte) :
  let st := cState c in
  valid_header h ->
  rqOpcode h ∈ [OpGet; OpGetQ; OpGetK; OpGetKQ] ->
  rqExtraLength h = 0 -> 0 < rqKeyLength h -> rqTotalBodyLength h = rqKeyLength h ->
  len key = rqKeyLength h ->
  concat (rdOf st) = requestBytes h ++ key ++ rest ->
  ReadBuf_ok (rbOf st) -> (24 <= length (rbOf st))%nat ->
  store_sized (store st) ->
  let lookup := GetFromSimpleKV (string_of key) (clock st) (store st) in
  let hit := if snd (fst lookup) then Some (fst (fst lookup)) else None in
  let resp := get_response h key hit in
  (length (wire resp) <= roomOf st)%nat ->
  exists st',
    handleCommand c = (Ok tt, mkConn st' (wrap 64 (CommandSeq c + 1)) (clock st))
    /\ wrOf st' = wrOf st ++ wire resp
    /\ store st' = snd lookup
    /\ concat (rdOf st') = rest
    /\ clock st' = clock st
    /\ roomOf st' = (roomOf st - length (wire resp))%nat
    /\ ReadBuf_ok (rbOf st') /\ (24 <= length (rbOf st'))%nat.
Proof.
  intros st Hv Hop He Hk Ht Hlk Hin Hok Hrb Hsz lookup hit resp Hroom.
  destruct (handleCommand_valid c h (key ++ rest) Hv Hrb Hin)
    as (rd' & Handle & Hcat & HH & ->).
  rewrite (OpHandler_get _ Hop) in HH. injection HH as <-.
  fold st. set (st1 := afterHeader rd' st).
  assert (length key = Z.to_nat (rqKeyLength h)) as Hlen by (unfold len in Hlk; lia).
  assert (take (Z.to_nat (rqKeyLength h)) (concat (rdOf st1)) = key) as Hkey.
  { change (rdOf st1) with rd'. rewrite Hcat, <- Hlen. apply take_app_length. }
  destruct (GetHandler_run h st1) as (st' & Hrun & Hwr & Hst & Hrb' & rd2 & Hcat2 & Hst' & Hgrow).
  - apply Hv.
  - exact He.
  - exact Hk.
  - exact Ht.
  - apply ReadBuf_ok_overwrite; [rewrite length_take; lia | exact Hok].
  - change (rdOf st1) with rd'. rewrite Hcat, length_app. lia.
  - exact Hsz.
  - rewrite Hkey. exact Hroom.
  - rewrite Hkey in *. change (clock st1) with (clock st) in *.
    change (store st1) with (store st) in *. fold lookup hit resp in Hwr, Hst, Hst'.
    change ((GetHandler : HandleFunc) h st1) with (GetHandler h st1).
    rewrite Hrun. exists st'. split; [reflexivity|].
    split; [exact Hwr|]. split; [exact Hst|].
    assert (length (rbOf st1) = length (rbOf st)) as Hl1.
    { apply length_overwrite. rewrite length_take. lia. }
    split; [|split; [|split; [|split; [exact Hrb' | lia]]]].
    + rewrite Hst'. cbn. change (rdOf st1) with rd' in Hcat2.
      rewrite Hcat2, Hcat, <- Hlen. apply drop_app_length.
    + rewrite Hst'. reflexivity.
    + rewrite Hst'. reflexivity.
Qed.

Lemma dispatch_store_sized header key body clock s :
  store_sized s -> len body <= MaxReqLen ->
  store_sized (snd (dispatch header key (candidate header body clock) s)).
Proof.
  intros Hsz Hb.
  destruct (dispatch_cases header key (candidate header body clock) s)
    as [(status & message & -> & _) | ->]; [exact Hsz|].
  intros k e. unfold store_entry. cbn [snd simplekvMap]. intros Hk.
  apply lookup_insert_Some in Hk as [[_ <-] | [_ Hk]]; [|eauto].
  cbn [RawData set_svCAS candidate]. unfold body_value, len in *.
  rewrite length_drop. lia.
Qed.

Lemma handleCommand_set_run (c : Conn) (h : RequestHeader) (body rest : list byte) :
  let st := cState c in
  valid_header h ->
  rqOpcode h ∈ [OpSet; OpSetQ; OpAdd; OpAddQ; OpReplace; OpReplaceQ] ->
  rqExtraLength h = 8 -> 0 < rqKeyLength h -> 8 + rqKeyLength h < 2 ^ 16 ->
  rqTotalBodyLength h <= MaxReqLen ->
  len body = rqTotalBodyLength h ->
  concat (rdOf st) = requestBytes h ++ body ++ rest ->
  ReadBuf_ok (rbOf st) -> (24 <= length (rbOf st))%nat ->
  (44 <= roomOf st)%nat ->
  let key := string_of (body_key h body) in
  let d := dispatch h key (candidate h body (clock st)) (store st) in
  let resp := set_response h (fst d) in
  exists st',
    handleCommand c = (Ok tt, mkConn st' (wrap 64 (CommandSeq c + 1)) (clock st))
    /\ wrOf st' = wrOf st ++ wire resp
    /\ store st' = snd d
    /\ concat (rdOf st') = rest
    /\ clock st' = clock st
    /\ roomOf st' = (roomOf st - length (wire resp))%nat
    /\ ReadBuf_ok (rbOf st') /\ (24 <= length (rbOf st'))%nat.
Proof.
  intros st Hv Hop He Hk Hk16 Hmax Hlb Hin Hok Hrb Hroom key d resp.
  destruct (handleCommand_valid c h (body ++ rest) Hv Hrb Hin)
    as (rd' & Handle & Hcat & HH & ->).
  rewrite (OpHandler_set _ Hop) in HH. injection HH as <-.
  fold st. set (st1 := afterHeader rd' st).
  assert (length body = Z.to_nat (rqTotalBodyLength h)) as Hlen
    by (unfold len in Hlb; lia).
  assert (set_body h st1 = body) as Hbody.
  { unfold set_body. change (rdOf st1) with rd'. rewrite Hcat, <- Hlen.
    apply take_app_length. }
  assert (length (rbOf st1) = length (rbOf st)) as Hl1.
  { apply length_overwrite. rewrite length_take. lia. }
  destruct (SetHandler_run h st1)
    as (st' & Hrun & Hwr & Hst & Hrb' & rd2 & Hcat2 & Hst' & Hgrow).
  { constructor; auto.
    - apply Hv.
    - apply ReadBuf_ok_overwrite; [rewrite length_take; lia | exact Hok].
    - change (rdOf st1) with rd'. rewrite Hcat, length_app. lia. }
  rewrite Hbody in *. change (clock st1) with (clock st) in *.
  change (store st1) with (store st) in *. fold key d resp in Hwr, Hst, Hst'.
  change ((SetHandler : HandleFunc) h st1) with (SetHandler h st1).
  rewrite Hrun. exists st'. split; [reflexivity|].
  split; [exact Hwr|]. split; [exact Hst|].
  split; [|split; [|split; [|split; [exact Hrb' | lia]]]].
  - rewrite Hst'. cbn. change (rdOf st1) with rd' in Hcat2.
    rewrite Hcat2, Hcat, <- Hlen. apply drop_app_length.
  - rewrite Hst'. reflexivity.
  - rewrite Hst'. reflexivity.
Qed.

Lemma OpHandler_nobody op :
  op ∈ [OpVersion; OpNoOp; OpQuit] ->
  OpHandler !! op = Some VersionHandler \/ OpHandler !! op = Some NoOpHandler
  \/ OpHandler !! op = Some QuitHandler.
Proof.
  rewrite !elem_of_cons, elem_of_nil.
  intros [-> | [-> | [-> | []]]]; auto.
Qed.

(** * Main theorems *)

(** Closed arithmetic side conditions of the sample requests. *)
Ltac ex_arith :=
  first [ reflexivity | vm_compute; reflexivity | vm_compute; discriminate
        | vm_compute; lia ].



(** C2. A valid GET-family request (no extras, a key, no value) is
    answered by [get_response]: on a miss nothing for the quiet opcodes
    and otherwise status KeyNotFound with the 9 bytes "Not found", extras
    and key length 0, CAS 0; on a hit status NoError, extras length 4, the
    entry's CAS, and as body the big-endian flag, the key for GetK and
    GetKQ only, and the value, with total body length the sum of the three.
    The key is what the connection delivers, in whatever chunks; the store
    holds values no longer than [MaxReqLen]. *)
Theorem GetHandler_response (header : RequestHeader) (st : State) :
  wf_RequestHeader header ->
  rqExtraLength header = 0 -> 0 < rqKeyLength header ->
  rqTotalBodyLength header = rqKeyLength header ->
  ReadBuf_ok (rbOf st) ->
  (Z.to_nat (rqKeyLength header) <= length (concat (rdOf st)))%nat ->
  store_sized (store st) ->
  let key := take (Z.to_nat (rqKeyLength header)) (concat (rdOf st)) in
  let lookup := GetFromSimpleKV (string_of key) (clock st) (store st) in
  let hit := if snd (fst lookup) then Some (fst (fst lookup)) else None in
  let resp := get_response header key hit in
  (length (wire resp) <= roomOf st)%nat ->
  exists st', GetHandler header st = (Ok tt, st')
              /\ wrOf st' = wrOf st ++ wire resp
              /\ store st' = snd lookup.
Proof.
  intros Hwf He Hk Ht Hrb Hav Hsz key lookup hit resp Hroom.
  destruct (GetHandler_run header st Hwf He Hk Ht Hrb Hav Hsz Hroom)
    as (st' & Hrun & Hwr & Hst & _).
  exists st'. auto.
Qed.

Lemma GetHandler_response_witness :
  exists st',
    GetHandler ex_get (ex_state ex_store 125 [bytes_of "Hel"; bytes_of "lo"])
    = (Ok tt, st')
    /\ wrOf st' = headerBytes ex_response
                  ++ [x00; x00; x00; x05] ++ bytes_of "Hello" ++ bytes_of "World"
    /\ store st' = ex_store.
Proof.
  apply (GetHandler_response ex_get
           (ex_state ex_store 125 [bytes_of "Hel"; bytes_of "lo"])).
  - split; unfold uint; cbn; lia.
  - reflexivity.
  - reflexivity.
  - reflexivity.
  - exists 5%nat. split; [lia | reflexivity].
  - cbn. lia.
  - intros k e Hk. unfold ex_state, ex_store in Hk. cbn [store simplekvMap] in Hk.
    apply lookup_singleton_Some in Hk as [_ <-]. discriminate.
  - vm_compute. lia.
Defined.

(** C3. The entry a SET-family request stores has as TTL deadline the
    raw 32-bit TTL plus [time.Now().Second()], the second within the
    current minute, when the raw TTL is positive, and 0 (no expiry) when
    it is 0. *)
Theorem SetHandler_ttl_deadline (header : RequestHeader) (st : State) :
  set_ready header st ->
  let body := set_body header st in
  let key := string_of (body_key header body) in
  let raw_ttl := body_raw_ttl body in
  let d := dispatch header key (candidate header body (clock st)) (store st) in
  0 <= raw_ttl < 2 ^ 32
  /\ exists st', SetHandler header st = (Ok tt, st')
     /\ match fst d with
        | Stored _ =>
            exists e, simplekvMap (store st') !! key = Some e
                      /\ (0 < raw_ttl -> TTL e = raw_ttl + clock st mod 60)
                      /\ (raw_ttl = 0 -> TTL e = 0)
        | Failed _ _ => store st' = store st
        end.
Proof.
  intros Hready body key raw_ttl d.
  destruct (SetHandler_run header st Hready) as (st' & Hrun & _ & Hst & _).
  fold body key d in Hst.
  assert (0 <= raw_ttl < 2 ^ 32) as Hraw.
  { pose proof (be_decode_range (take 4 (drop 4 body))) as Hr.
    assert (len (take 4 (drop 4 body)) <= 4) as Hl
      by (unfold len; rewrite length_take; lia).
    assert (256 ^ len (take 4 (drop 4 body)) <= 256 ^ 4) as Hp
      by (apply Z.pow_le_mono_r; unfold len in *; lia).
    change (256 ^ 4) with (2 ^ 32) in Hp. unfold raw_ttl, body_raw_ttl, field. lia. }
  split; [exact Hraw|]. exists st'. split; [exact Hrun|]. rewrite Hst.
  destruct (dispatch_cases header key (candidate header body (clock st)) (store st))
    as [(status & message & Hd & _) | Hd]; fold d in Hd; rewrite Hd; cbn [fst snd].
  - reflexivity.
  - exists (fst (store_entry key (candidate header body (clock st)) (store st))).
    split; [apply store_entry_lookup|].
    cbn [store_entry fst set_svCAS TTL candidate]. fold raw_ttl.
    unfold ttl_deadline, Second.
    split; intros H; destruct (Z.ltb_spec 0 raw_ttl); lia.
Qed.

Lemma SetHandler_ttl_deadline_witness :
  exists st',
    SetHandler (ex_set 0x01) (ex_state ex_store0 125 [ex_set_body]) = (Ok tt, st')
    /\ exists e, simplekvMap (store st') !! "Hello"%string = Some e /\ TTL e = 10 + 5.
Proof.
  assert (set_ready (ex_set 0x01) (ex_state ex_store0 125 [ex_set_body])) as Hready.
  { split; [ex_arith .. | exists 5%nat; split; [lia | reflexivity] | ex_arith | ex_arith]. }
  pose proof (SetHandler_ttl_deadline _ _ Hready) as H. cbv zeta in H.
  destruct H as (_ & st' & Hrun & Hm).
  match type of Hm with match fst ?d with _ => _ end =>
    assert (exists e0, fst d = Stored e0) as [e0 Hd]
      by (eexists; vm_compute; reflexivity);
    rewrite Hd in Hm
  end.
  destruct Hm as (e & Hk & Hpos & _).
  exists st'. split; [exact Hrun|]. exists e. split; [exact Hk|].
  apply Hpos. vm_compute. reflexivity.
Defined.



(** C4. Expiry happens on lookup only.  A lookup of an entry whose TTL
    deadline is nonzero and before [time.Now().Second()] deletes the entry
    and reports a miss; with other connections active between the two
    critical sections the entry is deleted only when the CAS found under
    the exclusive lock equals the one seen under the shared lock.  A
    lookup of an entry with deadline 0, or with a deadline not yet passed,
    returns that entry.  [AddToSimpleKV] and [SetToSimpleKV] never remove
    a key, and a lookup leaves every other key alone. *)
Theorem GetFromSimpleKV_lazy_expiry (key : string) (clock : Z) (s : Store)
    (e : SimpleValue) :
  simplekvMap s !! key = Some e ->
  (TTL e <> 0 -> TTL e < Second clock ->
     GetFromSimpleKV key clock s
     = ((SimpleValue0, false), mkStore (delete key (simplekvMap s)) (casID s))
     /\ forall env : Store -> Store,
          GetFromSimpleKV_env env key clock s
          = match simplekvMap (env s) !! key with
            | Some e' =>
                if svCAS e' =? svCAS e
                then ((SimpleValue0, false),
                      mkStore (delete key (simplekvMap (env s))) (casID (env s)))
                else ((e', true), env s)
            | None => ((SimpleValue0, false), env s)
            end)
  /\ (TTL e = 0 \/ Second clock <= TTL e ->
        forall env : Store -> Store,
          GetFromSimpleKV_env env key clock s = ((e, true), s))
  /\ (forall k, is_Some (simplekvMap s !! k) ->
        (forall key' newVal,
           is_Some (simplekvMap (snd (AddToSimpleKV key' newVal s)) !! k))
        /\ (forall key' newVal cas replace,
              is_Some (simplekvMap (snd (SetToSimpleKV key' newVal cas replace s)) !! k))
        /\ (k <> key ->
              simplekvMap (snd (GetFromSimpleKV key clock s)) !! k = simplekvMap s !! k)).
Proof.
  intros Hk. repeat apply conj.
  - intros Hne Hlt. split.
    + unfold GetFromSimpleKV.
      rewrite (GetFromSimpleKV_env_expired key clock s e Hk id Hne Hlt).
      cbn [id]. rewrite Hk, Z.eqb_refl. reflexivity.
    + intros env. apply GetFromSimpleKV_env_expired; assumption.
  - intros Hlive env. apply GetFromSimpleKV_env_live; assumption.
  - intros k Hin. repeat apply conj.
    + intros key' newVal. apply AddToSimpleKV_keeps. exact Hin.
    + intros key' newVal cas replace. apply SetToSimpleKV_keeps. exact Hin.
    + apply GetFromSimpleKV_other.
Qed.

Lemma GetFromSimpleKV_lazy_expiry_witness :
  GetFromSimpleKV "Hello" 125 ex_store = ((ex_value, true), ex_store)
  /\ GetFromSimpleKV "Hello" 137 ex_store = ((SimpleValue0, false), mkStore ∅ 1).
Proof.
  assert (simplekvMap ex_store !! "Hello"%string = Some ex_value) as Hk by reflexivity.
  split.
  - apply (GetFromSimpleKV_lazy_expiry "Hello" 125 ex_store ex_value Hk).
    right. vm_compute. discriminate.
  - destruct (GetFromSimpleKV_lazy_expiry "Hello" 137 ex_store ex_value Hk)
      as ((Hseq & _) & _); [ex_arith ..|].
    rewrite Hseq. reflexivity.
Defined.

(** C6. A key of 65528 bytes.  The parser accepts the ReplaceQ request
    below, and replacing an absent key is a failure, for which a response
    with status KeyNotFound is due under every opcode; [SetHandler] instead
    panics on [buf[8 : 8+header.KeyLength]], whose uint16 bound has wrapped
    to 0, and nothing is written. *)
Theorem SetHandler_long_key_no_response :
  let header := mkRequestHeader 0x80 0x13 65528 8 0 0 65536 7 0 in
  let st := ex_state ex_store0 0 [replicate (Z.to_nat 65536) x00] in
  let body := set_body header st in
  let key := string_of (body_key header body) in
  let d := dispatch header key (candidate header body (clock st)) (store st) in
  parseRequestHeader (requestBytes header) = Ok header
  /\ fst d = Failed 0x0001 "Not found"
  /\ wire (set_response header (fst d))
     = headerBytes (mkResponseHeader 0x81 0x13 0 0 0 0x0001 9 7 0) ++ bytes_of "Not found"
  /\ fst (SetHandler header st) = Err Panic
  /\ wrOf (snd (SetHandler header st)) = []
  /\ store (snd (SetHandler header st)) = ex_store0.
Proof.
  intros header st body key d.
  assert (d = (Failed 0x0001 "Not found", ex_store0)) as Hd.
  { apply dispatch_absent_replace; [reflexivity | reflexivity | apply lookup_empty]. }
  split; [reflexivity|]. rewrite Hd. cbn [fst].
  split; [reflexivity|]. split; [reflexivity|].
  destruct (SetHandler_long_key header st) as (rd' & rb' & ->).
  - reflexivity.
  - cbn. lia.
  - cbn. unfold MaxReqLen. lia.
  - exists 5%nat. split; [lia | reflexivity].
  - cbn [st header ex_state rdOf ctx RW rd concat rqTotalBodyLength].
    rewrite app_nil_r, length_replicate. lia.
  - repeat split.
Qed.

(** C8. No store operation puts CAS 0 on a live entry; a successful add,
    set or replace stamps the value the shared counter has after one
    increment, or after a second one when the first gave 0, and leaves the
    counter there; so, as long as the 64-bit counter does not wrap, the CAS
    values of successive successful mutations are strictly increasing,
    hence distinct, and no two live entries share one. *)
Theorem cas_nonzero_increasing (ops : list operation) (s : Store) :
  (live_nonzero s -> live_nonzero (snd (run ops s)))
  /\ (forall o c, fst (apply_op o s) = Some c ->
        c = (let c1 := AddUint64 (casID s) 1 in
             if c1 =? 0 then AddUint64 c1 1 else c1)
        /\ c <> 0
        /\ casID (snd (apply_op o s)) = c
        /\ exists key e, simplekvMap (snd (apply_op o s)) !! key = Some e
                         /\ svCAS e = c)
  /\ (0 <= casID s -> casID s + len ops < 2 ^ 64 -> live_issued s ->
        StronglySorted Z.lt (fst (run ops s))
        /\ NoDup (fst (run ops s))
        /\ Forall (fun c => casID s < c) (fst (run ops s))
        /\ live_issued (snd (run ops s))
        /\ (live_unique s -> live_unique (snd (run ops s)))).
Proof.
  repeat apply conj.
  - revert s. induction ops as [|o ops IH]; intros s Hnz; [exact Hnz|].
    cbn [run]. pose proof (live_nonzero_step o s Hnz) as H1.
    destruct (apply_op o s) as [r s1]. specialize (IH s1 H1).
    destruct (run ops s1) as [cs s2]. exact IH.
  - intros o c Hc.
    destruct (apply_op_cases o s) as [Ho | [[key Ho] | [key [v Ho]]]];
      rewrite Ho in Hc |- *; cbn [fst snd] in Hc |- *; try discriminate.
    injection Hc as <-. repeat apply conj.
    + reflexivity.
    + apply fresh_cas_nonzero.
    + reflexivity.
    + exists key, (set_svCAS v (fresh_cas (casID s))). split; [|reflexivity].
      cbn. apply lookup_insert_eq.
  - intros H0 Hw Hi. pose proof (run_sorted ops s H0 Hw Hi) as H.
    destruct (run ops s) as [cs s']. destruct H as (Hs & Hf & Hi' & Hu).
    cbn [fst snd]. repeat apply conj; auto.
    clear -Hs. induction Hs as [|c cs Hs IH Hc]; constructor; [|exact IH].
    intros Hin. rewrite Forall_forall in Hc. apply Hc in Hin. lia.
Qed.

Lemma cas_nonzero_increasing_witness :
  fst (run [DoSet "a" ex_value 0 false; DoAdd "Hello" ex_value;
            DoAdd "b" ex_value; DoGet "Hello" 137; DoSet "a" ex_value 2 true]
           ex_store) = [2; 3; 4]
  /\ StronglySorted Z.lt [2; 3; 4].
Proof.
  split; [reflexivity|].
  change [2; 3; 4]
    with (fst (run [DoSet "a" ex_value 0 false; DoAdd "Hello" ex_value;
                    DoAdd "b" ex_value; DoGet "Hello" 137; DoSet "a" ex_value 2 true]
                   ex_store)).
  apply (cas_nonzero_increasing _ ex_store).
  - ex_arith.
  - ex_arith.
  - intros k e Hk. unfold ex_store in Hk. cbn [simplekvMap] in Hk.
    apply lookup_singleton_Some in Hk as [_ <-]. split; ex_arith.
Defined.

(** C10. A mutation that fails leaves the map and the CAS counter as they
    were: [AddToSimpleKV] on already_exists, [SetToSimpleKV] on not_found
    and on cas_mismatch.  The counter moves on the success paths only. *)
Theorem failed_mutation_no_effect
    (key : string) (newVal : SimpleValue) (cas : Z) (replace : bool) (s : Store) :
  (AddResult_of (fst (AddToSimpleKV key newVal s)) = already_exists ->
     snd (AddToSimpleKV key newVal s) = s)
  /\ (SetResult_of (fst (SetToSimpleKV key newVal cas replace s)) = not_found
      \/ SetResult_of (fst (SetToSimpleKV key newVal cas replace s)) = cas_mismatch ->
        snd (SetToSimpleKV key newVal cas replace s) = s)
  /\ (snd (AddToSimpleKV key newVal s) <> s ->
        exists e, AddResult_of (fst (AddToSimpleKV key newVal s)) = added e)
  /\ (snd (SetToSimpleKV key newVal cas replace s) <> s ->
        exists e, SetResult_of (fst (SetToSimpleKV key newVal cas replace s)) = stored e).
Proof.
  repeat apply conj.
  - destruct (AddToSimpleKV_cases key newVal s) as [[-> _] | [-> _]];
      cbn [fst snd AddResult_of]; [reflexivity | discriminate].
  - destruct (SetToSimpleKV_cases key newVal cas replace s) as [[nf ->] | ->];
      cbn [fst snd SetResult_of]; [reflexivity | intros [H|H]; discriminate].
  - destruct (AddToSimpleKV_cases key newVal s) as [[-> _] | [-> _]];
      cbn [fst snd AddResult_of]; [contradiction | eauto].
  - destruct (SetToSimpleKV_cases key newVal cas replace s) as [[nf ->] | ->];
      cbn [fst snd SetResult_of]; [contradiction | eauto].
Qed.

Lemma failed_mutation_no_effect_witness :
  snd (AddToSimpleKV "Hello" ex_value ex_store) = ex_store
  /\ snd (SetToSimpleKV "Hello" ex_value 9 false ex_store) = ex_store
  /\ snd (SetToSimpleKV "k" ex_value 0 true ex_store) = ex_store.
Proof.
  repeat apply conj.
  - apply (failed_mutation_no_effect "Hello" ex_value 0 false ex_store). reflexivity.
  - apply (failed_mutation_no_effect "Hello" ex_value 9 false ex_store).
    right. reflexivity.
  - apply (failed_mutation_no_effect "k" ex_value 0 true ex_store).
    left. reflexivity.
Defined.

(** C7. On 24 bytes [parseRequestHeader] fails exactly when the magic
    byte is not 0x80, or the opcode is not one of the 13 of the dispatch
    table, or the data type is not 0x00, or the total body length is below
    key length plus extras length; when it succeeds every field is the
    big-endian value of its byte range, vbucket id, opaque and CAS
    included. *)
Theorem parseRequestHeader_spec (buf : list byte) :
  length buf = 24%nat ->
  let magic := field buf 0 1 in
  let opcode := field buf 1 1 in
  let keyLength := field buf 2 2 in
  let extraLength := field buf 4 1 in
  let dataType := field buf 5 1 in
  let vbucketID := field buf 6 2 in
  let totalBodyLength := field buf 8 4 in
  let opaque := field buf 12 4 in
  let cas := field buf 16 8 in
  ((exists e, parseRequestHeader buf = Err e) <->
     (magic <> 0x80 \/ opcode ∉ opcodes \/ dataType <> 0x00
      \/ totalBodyLength < keyLength + extraLength))
  /\ (forall h, parseRequestHeader buf = Ok h ->
        h = mkRequestHeader magic opcode keyLength extraLength dataType vbucketID
              totalBodyLength opaque cas).
Proof.
  intros Hlen.
  destruct buf as
    [|b0 [|b1 [|b2 [|b3 [|b4 [|b5 [|b6 [|b7 [|b8 [|b9 [|b10 [|b11 [|b12 [|b13 [|b14 [|b15 [|b16 [|b17 [|b18 [|b19 [|b20 [|b21 [|b22 [|b23 [|b24 rest]]]]]]]]]]]]]]]]]]]]]]]]];
    try discriminate Hlen. clear Hlen.
  unfold field. cbn [take drop]. rewrite !be_decode_1.
  unfold parseRequestHeader.
  cbn [index sliceFrom must lookup list_lookup drop length Nat.leb mbind Res_bind].
  rewrite !GetUint16_be, !GetUint32_be, GetUint64_be.
  cbn [must mbind Res_bind].
  match goal with |- context [wrap 64 (be_decode ?l) <? wrap 64 (wrap 64 (be_decode ?k) + wrap 64 (byteZ ?e))] =>
    pose proof (be_decode_range l) as Ht; pose proof (be_decode_range k) as Hk;
    pose proof (byteZ_range e) as He;
    change (256 ^ len l) with (2 ^ 32) in Ht; change (256 ^ len k) with (2 ^ 16) in Hk;
    replace (wrap 64 (be_decode l)) with (be_decode l) by (unfold wrap; rewrite Z.mod_small; lia);
    replace (wrap 64 (wrap 64 (be_decode k) + wrap 64 (byteZ e))) with (be_decode k + byteZ e)
      by (unfold wrap; rewrite !Z.mod_small; rewrite ?Z.mod_small; lia)
  end.
  rewrite <- OpHandler_dom. unfold MagicRequest.
  destruct (Z.eqb_spec (byteZ b0) 128) as [Em|Em]; cbn [negb].
  2: { split; [split; [intros _; left; exact Em | intros _; eauto] | intros h [=]]. }
  destruct (bool_decide_reflect (is_Some (OpHandler !! byteZ b1))) as [Eo|Eo]; cbn [negb].
  2: { split; [split; [intros _; right; left; exact Eo | intros _; eauto] | intros h [=]]. }
  destruct (Z.eqb_spec (byteZ b5) 0) as [Ed|Ed]; cbn [negb].
  2: { split; [split; [intros _; do 2 right; left; exact Ed | intros _; eauto] | intros h [=]]. }
  match goal with |- context [?x <? ?y] => destruct (Z.ltb_spec x y) as [El|El] end.
  { split; [split; [intros _; do 3 right; exact El | intros _; eauto] | intros h [=]]. }
  split.
  - split; [intros [e [=]] | intros [?|[?|[?|?]]]; [contradiction|contradiction|contradiction|lia]].
  - intros h [= <-]. reflexivity.
Qed.

Lemma parseRequestHeader_spec_witness :
  ((exists e, parseRequestHeader ex_header_bytes = Err e) <->
     (field ex_header_bytes 0 1 <> 0x80 \/ field ex_header_bytes 1 1 ∉ opcodes
      \/ field ex_header_bytes 5 1 <> 0x00
      \/ field ex_header_bytes 8 4
         < field ex_header_bytes 2 2 + field ex_header_bytes 4 1))
  /\ (forall h, parseRequestHeader ex_header_bytes = Ok h -> h = ex_set 0x01).
Proof.
  apply (parseRequestHeader_spec ex_header_bytes). reflexivity.
Defined.

(** C9. [writeResponseHeader] puts 24 bytes on the connection, and
    reading them back big-endian at the offsets of the wire format (0
    magic, 1 opcode, 2-3 key length, 4 extras length, 5 data type, 6-7
    status, 8-11 total body length, 12-15 opaque, 16-23 CAS) gives the
    header that was written. *)
Theorem writeResponseHeader_roundtrip (h : ResponseHeader) (st : State) :
  wf_ResponseHeader h -> (24 <= roomOf st)%nat ->
  exists bs, writeResponseHeader h st = (Ok tt, emit bs st)
             /\ length bs = 24%nat
             /\ decodeResponseHeader bs = Some h.
Proof.
  intros Hwf Hroom. exists (headerBytes h).
  split; [apply writeResponseHeader_run; exact Hroom|].
  split; [reflexivity | apply decode_headerBytes; exact Hwf].
Qed.

Lemma writeResponseHeader_roundtrip_witness :
  exists bs,
    writeResponseHeader ex_response (ex_state ex_store0 0 [])
    = (Ok tt, emit bs (ex_state ex_store0 0 []))
    /\ length bs = 24%nat
    /\ decodeResponseHeader bs = Some ex_response.
Proof.
  apply (writeResponseHeader_roundtrip ex_response (ex_state ex_store0 0 [])).
  - split; unfold uint, ex_response; cbn; lia.
  - ex_arith.
Defined.

(** * Further properties of the code *)

(** ** The byte codec *)

(** X1. The decoders of [utils.go] read a big-endian prefix and look at
    nothing else: on a slice of at least 2, 4 and 8 bytes they return the
    big-endian value of these first bytes, which fits the result type, and
    on a shorter slice they panic. *)
Theorem GetUint_prefix (buf : list byte) :
  (GetUint16 buf = None <-> (length buf < 2)%nat)
  /\ (GetUint32 buf = None <-> (length buf < 4)%nat)
  /\ (GetUint64 buf = None <-> (length buf < 8)%nat)
  /\ (forall v, GetUint16 buf = Some v -> v = be_decode (take 2 buf) /\ uint 16 v)
  /\ (forall v, GetUint32 buf = Some v -> v = be_decode (take 4 buf) /\ uint 32 v)
  /\ (forall v, GetUint64 buf = Some v -> v = be_decode (take 8 buf) /\ uint 64 v).
Proof.
  split; [apply GetUint16_None|]. split; [apply GetUint32_None|].
  split; [apply GetUint64_None|]. repeat apply conj.
  - destruct buf as [|b0 [|b1 rest]]; try discriminate.
    rewrite GetUint16_be. intros v [= <-]. split; [reflexivity|].
    apply (be_decode_range [b0; b1]).
  - destruct buf as [|b0 [|b1 [|b2 [|b3 rest]]]]; try discriminate.
    rewrite GetUint32_be. intros v [= <-]. split; [reflexivity|].
    apply (be_decode_range [b0; b1; b2; b3]).
  - destruct buf as [|b0 [|b1 [|b2 [|b3 [|b4 [|b5 [|b6 [|b7 rest]]]]]]]];
      try discriminate.
    rewrite GetUint64_be. intros v [= <-]. split; [reflexivity|].
    apply (be_decode_range [b0; b1; b2; b3; b4; b5; b6; b7]).
Qed.

Lemma GetUint_prefix_witness :
  GetUint32 [x01; x02; x03] = None
  /\ GetUint32 [x00; x00; x01; x02; xff] = Some 258.
Proof.
  split.
  - apply (GetUint_prefix [x01; x02; x03]). cbn. lia.
  - assert (GetUint32 [x00; x00; x01; x02; xff] = Some 258) as H by reflexivity.
    apply (GetUint_prefix [x00; x00; x01; x02; xff]) in H as [H _].
    rewrite H. reflexivity.
Defined.

(** X2. Splitting an integer into bytes undoes decoding: the bytes
    [GetNthByteFromUint16] and [GetNthByteFromUint32] take out of a decoded
    value are the bytes it was decoded from, most significant first, and
    every position other than 0, 1 and 2 (0 for 16 bits) gives the last
    byte. *)
Theorem GetNthByte_of_GetUint (b0 b1 b2 b3 : byte) (rest : list byte) :
  (forall v, GetUint16 (b0 :: b1 :: rest) = Some v ->
     GetNthByteFromUint16 v 0 = b0
     /\ forall pos, pos <> 0 -> GetNthByteFromUint16 v pos = b1)
  /\ (forall v, GetUint32 (b0 :: b1 :: b2 :: b3 :: rest) = Some v ->
        GetNthByteFromUint32 v 0 = b0 /\ GetNthByteFromUint32 v 1 = b1
        /\ GetNthByteFromUint32 v 2 = b2
        /\ forall pos, pos < 0 \/ 2 < pos -> GetNthByteFromUint32 v pos = b3).
Proof.
  pose proof (byteZ_range b0). pose proof (byteZ_range b1).
  pose proof (byteZ_range b2). pose proof (byteZ_range b3).
  split.
  - rewrite GetUint16_be. intros v [= <-].
    assert (be_decode [b0; b1] = byteZ b0 * 256 + byteZ b1) as -> by (cbn; lia).
    split.
    + rewrite Nth16_0. rewrite <- (to_byte_byteZ b0) at 2. apply to_byte_mod.
      Z.div_mod_to_equations; lia.
    + intros pos Hpos.
      assert (GetNthByteFromUint16 (byteZ b0 * 256 + byteZ b1) pos
              = GetNthByteFromUint16 (byteZ b0 * 256 + byteZ b1) 1) as ->
        by (destruct pos; [contradiction | reflexivity | reflexivity]).
      rewrite Nth16_1. rewrite <- (to_byte_byteZ b1) at 2. apply to_byte_mod.
      Z.div_mod_to_equations; lia.
  - rewrite GetUint32_be. intros v [= <-].
    assert (be_decode [b0; b1; b2; b3]
            = ((byteZ b0 * 256 + byteZ b1) * 256 + byteZ b2) * 256 + byteZ b3) as ->
      by (cbn; lia).
    set (v := ((byteZ b0 * 256 + byteZ b1) * 256 + byteZ b2) * 256 + byteZ b3).
    destruct (Nth32_at v) as (H0' & H1' & H2' & H3').
    repeat apply conj.
    + rewrite H0'. rewrite <- (to_byte_byteZ b0). apply to_byte_mod.
      subst v. Z.div_mod_to_equations; lia.
    + rewrite H1'. rewrite <- (to_byte_byteZ b1). apply to_byte_mod.
      subst v. Z.div_mod_to_equations; lia.
    + rewrite H2'. rewrite <- (to_byte_byteZ b2). apply to_byte_mod.
      subst v. Z.div_mod_to_equations; lia.
    + intros pos Hpos.
      assert (GetNthByteFromUint32 v pos = GetNthByteFromUint32 v 3) as ->.
      { destruct pos as [|p|p]; [lia | | reflexivity].
        destruct p as [[p|p|]|[p|p|]|]; try reflexivity; lia. }
      rewrite H3'. rewrite <- (to_byte_byteZ b3). apply to_byte_mod.
      subst v. Z.div_mod_to_equations; lia.
Qed.

Lemma GetNthByte_of_GetUint_witness :
  GetNthByteFromUint32 0x01020304 0 = x01 /\ GetNthByteFromUint32 0x01020304 7 = x04.
Proof.
  assert (GetUint32 [x01; x02; x03; x04; x05] = Some 0x01020304) as H by reflexivity.
  apply (GetNthByte_of_GetUint x01 x02 x03 x04 [x05]) in H as (H0 & _ & _ & H3).
  split; [exact H0 | apply H3; lia].
Defined.

(** X3. Decoding undoes splitting: for a value of the type's range, the
    bytes at positions 0.. put together by [GetUint16] and [GetUint32]
    give the value back, whatever follows them. *)
Theorem GetUint_of_GetNthByte (v : Z) (rest : list byte) :
  (uint 16 v ->
     GetUint16 (GetNthByteFromUint16 v 0 :: GetNthByteFromUint16 v 1 :: rest) = Some v)
  /\ (uint 32 v ->
        GetUint32 (GetNthByteFromUint32 v 0 :: GetNthByteFromUint32 v 1
                   :: GetNthByteFromUint32 v 2 :: GetNthByteFromUint32 v 3 :: rest)
        = Some v).
Proof.
  unfold uint. split; intros Hv.
  - rewrite GetUint16_be, Nth16_0, Nth16_1, be_decode_2. f_equal.
    apply Z.mod_small. exact Hv.
  - rewrite Nth32_app. cbn [be_bytes app]. rewrite GetUint32_be, be_decode_4.
    f_equal. apply Z.mod_small. exact Hv.
Qed.

Lemma GetUint_of_GetNthByte_witness :
  GetUint32 (GetNthByteFromUint32 0xdeadbeef 0 :: GetNthByteFromUint32 0xdeadbeef 1
             :: GetNthByteFromUint32 0xdeadbeef 2 :: GetNthByteFromUint32 0xdeadbeef 3
             :: [x07]) = Some 0xdeadbeef.
Proof.
  apply (GetUint_of_GetNthByte 0xdeadbeef [x07]). unfold uint. lia.
Defined.

(** ** The parser *)

(** X4. [parseRequestHeader] reads exactly 24 bytes: an input shorter than
    that never parses (it ends in an error or in an index panic), and what
    follows the 24th byte has no influence on the result. *)
Theorem parseRequestHeader_reads_24 (buf rest : list byte) :
  ((length buf < 24)%nat -> exists e, parseRequestHeader buf = Err e)
  /\ (length buf = 24%nat -> parseRequestHeader (buf ++ rest) = parseRequestHeader buf).
Proof.
  split; [apply parse_short|]. intros Hlen.
  destruct buf as
    [|b0 [|b1 [|b2 [|b3 [|b4 [|b5 [|b6 [|b7 [|b8 [|b9 [|b10 [|b11 [|b12 [|b13
     [|b14 [|b15 [|b16 [|b17 [|b18 [|b19 [|b20 [|b21 [|b22 [|b23 [|b24 tl]
     ]]]]]]]]]]]]]]]]]]]]]]]]; try discriminate Hlen.
  cbn [app]. rewrite !parse_explicit. reflexivity.
Qed.

Lemma parseRequestHeader_reads_24_witness :
  (exists e, parseRequestHeader (take 23 ex_header_bytes) = Err e)
  /\ parseRequestHeader (ex_header_bytes ++ ex_set_body)
     = parseRequestHeader ex_header_bytes.
Proof.
  split.
  - apply (parseRequestHeader_reads_24 (take 23 ex_header_bytes) []). cbn. lia.
  - apply (parseRequestHeader_reads_24 ex_header_bytes ex_set_body). reflexivity.
Defined.

(** X5. Parsing is the inverse of the wire format on the headers the
    server accepts: [parseRequestHeader] returns a header exactly when the
    input starts with the 24 bytes that encode it and the header is valid,
    that is, every field is within its Go type, the magic is 0x80, the
    opcode has a handler, the data type is 0 and the total body length
    covers key and extras. *)
Theorem parseRequestHeader_roundtrip (buf : list byte) (h : RequestHeader) :
  parseRequestHeader buf = Ok h
  <-> valid_header h /\ (24 <= length buf)%nat /\ take 24 buf = requestBytes h.
Proof.
  split.
  - intros Hp. destruct (parse_ok buf h Hp) as (Hwf & Hm & Hd & Ho & Ht & Hl).
    split; [|split; [exact Hl | apply parse_take_24; exact Hp]].
    constructor; auto. apply OpHandler_dom. exact Ho.
  - intros (Hv & Hl & Ht). rewrite <- (take_drop 24 buf), Ht.
    apply parse_requestBytes. exact Hv.
Qed.

Lemma parseRequestHeader_roundtrip_witness :
  parseRequestHeader (ex_header_bytes ++ ex_set_body) = Ok (ex_set 0x01).
Proof.
  apply (parseRequestHeader_roundtrip (ex_header_bytes ++ ex_set_body) (ex_set 0x01)).
  split; [|split; [cbn; lia | reflexivity]].
  constructor; [split; unfold uint; cbn; lia | reflexivity | | reflexivity | cbn; lia].
  apply OpHandler_dom. eexists. reflexivity.
Defined.

(** X6. The checks of [parseRequestHeader] are made in the order magic,
    opcode, data type, body length, and the first that fails decides the
    error: a wrong magic is reported whatever the rest holds, an unknown
    opcode only under a right magic, and so on. *)
Theorem parseRequestHeader_first_error (buf : list byte) :
  length buf = 24%nat ->
  let magic := field buf 0 1 in
  let opcode := field buf 1 1 in
  let dataType := field buf 5 1 in
  (magic <> 0x80 -> parseRequestHeader buf = Err (ErrMagic magic))
  /\ (magic = 0x80 -> opcode ∉ opcodes -> parseRequestHeader buf = Err (ErrOpcode opcode))
  /\ (magic = 0x80 -> opcode ∈ opcodes -> dataType <> 0 ->
        parseRequestHeader buf = Err (ErrDataType dataType))
  /\ (magic = 0x80 -> opcode ∈ opcodes -> dataType = 0 ->
        field buf 8 4 < field buf 2 2 + field buf 4 1 ->
        parseRequestHeader buf = Err ErrBodyLength).
Proof.
  intros Hlen.
  destruct buf as
    [|b0 [|b1 [|b2 [|b3 [|b4 [|b5 [|b6 [|b7 [|b8 [|b9 [|b10 [|b11 [|b12 [|b13
     [|b14 [|b15 [|b16 [|b17 [|b18 [|b19 [|b20 [|b21 [|b22 [|b23 [|b24 tl]
     ]]]]]]]]]]]]]]]]]]]]]]]]; try discriminate Hlen.
  clear Hlen. unfold field. cbn [take drop]. rewrite !be_decode_1.
  rewrite parse_explicit. rewrite <- OpHandler_dom.
  destruct (Z.eqb_spec (byteZ b0) 128) as [Em|Em]; cbn [negb].
  2: { repeat apply conj; intros; first [reflexivity | contradiction]. }
  destruct (bool_decide_reflect (is_Some (OpHandler !! byteZ b1))) as [Eo|Eo]; cbn [negb].
  2: { repeat apply conj; intros; first [reflexivity | contradiction]. }
  destruct (Z.eqb_spec (byteZ b5) 0) as [Ed|Ed]; cbn [negb].
  2: { repeat apply conj; intros; first [reflexivity | contradiction]. }
  match goal with |- context [?x <? ?y] => destruct (Z.ltb_spec x y) as [El|El] end;
    repeat apply conj; intros; first [reflexivity | contradiction | lia].
Qed.

Lemma parseRequestHeader_first_error_witness :
  parseRequestHeader (x81 :: x55 :: drop 2 ex_header_bytes) = Err (ErrMagic 0x81)
  /\ parseRequestHeader (x80 :: x55 :: drop 2 ex_header_bytes) = Err (ErrOpcode 0x55).
Proof.
  split.
  - apply (parseRequestHeader_first_error (x81 :: x55 :: drop 2 ex_header_bytes));
      [reflexivity | discriminate].
  - apply (parseRequestHeader_first_error (x80 :: x55 :: drop 2 ex_header_bytes));
      [reflexivity | reflexivity |].
    change (field (x80 :: x55 :: drop 2 ex_header_bytes) 1 1) with 85.
    unfold opcodes. rewrite !not_elem_of_cons. repeat split; try discriminate.
    apply not_elem_of_nil.
Defined.

(** ** The store *)

(** X7. What is stored is what is read back: after a successful
    [AddToSimpleKV] or [SetToSimpleKV] the entry under the key is the
    returned one, which is the candidate with only its CAS changed, and a
    lookup made while its TTL is 0 or not yet passed returns it and leaves
    the store alone. *)
Theorem store_then_lookup (key : string) (newVal : SimpleValue) (cas : Z)
    (replace : bool) (s : Store) (clock : Z) :
  TTL newVal = 0 \/ Second clock <= TTL newVal ->
  (forall e s', AddToSimpleKV key newVal s = ((e, true), s') ->
     GetFromSimpleKV key clock s' = ((e, true), s')
     /\ RawData e = RawData newVal /\ Flag e = Flag newVal /\ TTL e = TTL newVal)
  /\ (forall e nf s', SetToSimpleKV key newVal cas replace s = ((e, nf, true), s') ->
        GetFromSimpleKV key clock s' = ((e, true), s')
        /\ RawData e = RawData newVal /\ Flag e = Flag newVal /\ TTL e = TTL newVal).
Proof.
  intros Hlive. split.
  - intros e s' Hadd.
    destruct (AddToSimpleKV_cases key newVal s) as [[H _] | [H _]];
      rewrite H in Hadd; [discriminate|]. injection Hadd as <- <-.
    split; [|auto]. apply GetFromSimpleKV_live; [apply store_entry_lookup | exact Hlive].
  - intros e nf s' Hset.
    destruct (SetToSimpleKV_cases key newVal cas replace s) as [[nf' H] | H];
      rewrite H in Hset; [discriminate|]. injection Hset as <- <- <-.
    split; [|auto]. apply GetFromSimpleKV_live; [apply store_entry_lookup | exact Hlive].
Qed.

Lemma store_then_lookup_witness :
  GetFromSimpleKV "k" 125 (snd (AddToSimpleKV "k" ex_value ex_store))
  = ((set_svCAS ex_value 2, true), snd (AddToSimpleKV "k" ex_value ex_store)).
Proof.
  apply (store_then_lookup "k" ex_value 0 false ex_store 125).
  - right. vm_compute. discriminate.
  - reflexivity.
Defined.

(** X8. The store primitives touch one key: after [AddToSimpleKV],
    [SetToSimpleKV] or [GetFromSimpleKV] on a key, every other key maps to
    what it mapped to before, whether the operation succeeded or not. *)
Theorem store_other_keys (key k : string) (newVal : SimpleValue) (cas : Z)
    (replace : bool) (clock : Z) (s : Store) :
  k <> key ->
  simplekvMap (snd (AddToSimpleKV key newVal s)) !! k = simplekvMap s !! k
  /\ simplekvMap (snd (SetToSimpleKV key newVal cas replace s)) !! k = simplekvMap s !! k
  /\ simplekvMap (snd (GetFromSimpleKV key clock s)) !! k = simplekvMap s !! k.
Proof.
  intros Hne. repeat apply conj.
  - destruct (AddToSimpleKV_cases key newVal s) as [[-> _] | [-> _]]; [reflexivity|].
    cbn. apply lookup_insert_ne. congruence.
  - destruct (SetToSimpleKV_cases key newVal cas replace s) as [[nf ->] | ->];
      [reflexivity|].
    cbn. apply lookup_insert_ne. congruence.
  - destruct (GetFromSimpleKV_cases key clock s) as [-> | ->]; [reflexivity|].
    cbn. apply lookup_delete_ne. congruence.
Qed.

Lemma store_other_keys_witness :
  simplekvMap (snd (SetToSimpleKV "k" ex_value 0 false ex_store)) !! "Hello"%string
  = Some ex_value
  /\ simplekvMap (snd (GetFromSimpleKV "k" 137 ex_store)) !! "Hello"%string
     = Some ex_value.
Proof.
  split.
  - apply (store_other_keys "k" "Hello" ex_value 0 false 0 ex_store). discriminate.
  - apply (store_other_keys "k" "Hello" ex_value 0 false 137 ex_store). discriminate.
Defined.

(** X9. Add is first-writer-wins: once [AddToSimpleKV] has stored an entry
    for a key, a second add for that key fails and changes neither the map
    nor the counter, and the first entry stays. *)
Theorem add_twice (key : string) (v1 v2 : SimpleValue) (s : Store) :
  simplekvMap s !! key = None ->
  let r1 := AddToSimpleKV key v1 s in
  snd (fst r1) = true
  /\ AddToSimpleKV key v2 (snd r1) = ((v2, false), snd r1)
  /\ simplekvMap (snd r1) !! key = Some (fst (fst r1)).
Proof.
  intros Hk r1. subst r1.
  destruct (AddToSimpleKV_cases key v1 s) as [[_ [x Hx]] | [H _]]; [congruence|].
  rewrite H. cbn [fst snd]. split; [reflexivity|].
  pose proof (store_entry_lookup key v1 s) as Hl. split; [|exact Hl].
  unfold AddToSimpleKV. rewrite Hl. reflexivity.
Qed.

Lemma add_twice_witness :
  AddToSimpleKV "k" ex_value (snd (AddToSimpleKV "k" SimpleValue0 ex_store))
  = ((ex_value, false), snd (AddToSimpleKV "k" SimpleValue0 ex_store)).
Proof.
  apply (add_twice "k" SimpleValue0 ex_value ex_store). reflexivity.
Defined.

(** X10. A CAS token works once.  While the counter has not wrapped and
    every live CAS was issued by it, a [SetToSimpleKV] that presents the
    current CAS of the entry succeeds and gives the entry a larger CAS, so
    presenting the same token again is answered with a CAS mismatch. *)
Theorem cas_token_single_use (key : string) (v1 v2 cur : SimpleValue)
    (replace : bool) (s : Store) :
  live_issued s -> 0 <= casID s -> casID s + 1 < 2 ^ 64 ->
  simplekvMap s !! key = Some cur ->
  let token := svCAS cur in
  let r1 := SetToSimpleKV key v1 token replace s in
  r1 = ((set_svCAS v1 (casID s + 1), false, true),
        mkStore (<[key := set_svCAS v1 (casID s + 1)]> (simplekvMap s)) (casID s + 1))
  /\ token < casID s + 1
  /\ SetToSimpleKV key v2 token replace (snd r1) = ((v2, false, false), snd r1).
Proof.
  intros Hi H0 Hw Hk token r1. subst token r1.
  pose proof (Hi key cur Hk) as Hcur.
  assert (SetToSimpleKV key v1 (svCAS cur) replace s
          = ((set_svCAS v1 (casID s + 1), false, true),
             mkStore (<[key := set_svCAS v1 (casID s + 1)]> (simplekvMap s))
                     (casID s + 1))) as H1.
  { unfold SetToSimpleKV. rewrite bumpCAS_fresh, Hk, fresh_cas_succ by lia.
    rewrite bool_decide_eq_true_2 by eauto. cbn [negb andb default from_option id].
    rewrite Z.eqb_refl. rewrite andb_false_r. reflexivity. }
  rewrite H1. cbn [snd]. split; [reflexivity|]. split; [lia|].
  unfold SetToSimpleKV. cbn [simplekvMap casID]. rewrite lookup_insert_eq.
  rewrite bool_decide_eq_true_2 by eauto. cbn [negb andb default from_option id svCAS set_svCAS].
  destruct (Z.eqb_spec (svCAS cur) 0); [lia|].
  destruct (Z.eqb_spec (svCAS cur) (casID s + 1)); [lia|]. reflexivity.
Qed.

Lemma cas_token_single_use_witness :
  SetToSimpleKV "Hello" ex_value 1 false
    (snd (SetToSimpleKV "Hello" SimpleValue0 1 false ex_store))
  = ((ex_value, false, false), snd (SetToSimpleKV "Hello" SimpleValue0 1 false ex_store)).
Proof.
  apply (cas_token_single_use "Hello" SimpleValue0 ex_value ex_value false ex_store).
  - intros k e Hk. unfold ex_store in Hk. cbn [simplekvMap] in Hk.
    apply lookup_singleton_Some in Hk as [_ <-]. split; ex_arith.
  - ex_arith.
  - ex_arith.
  - reflexivity.
Defined.

(** X11. Only a lookup notices expiry.  An entry whose deadline has passed
    still counts as present for [AddToSimpleKV], which fails on it, and
    for a replace, which overwrites it; after one [GetFromSimpleKV] has
    seen it the key is gone, so an add succeeds and a replace reports the
    key as missing. *)
Theorem expired_entry_until_lookup (key : string) (newVal e : SimpleValue)
    (cas : Z) (clock : Z) (s : Store) :
  simplekvMap s !! key = Some e ->
  TTL e <> 0 -> TTL e < Second clock ->
  let s' := snd (GetFromSimpleKV key clock s) in
  AddToSimpleKV key newVal s = ((newVal, false), s)
  /\ snd (fst (SetToSimpleKV key newVal 0 true s)) = true
  /\ simplekvMap s' !! key = None
  /\ snd (fst (AddToSimpleKV key newVal s')) = true
  /\ SetToSimpleKV key newVal cas true s' = ((newVal, true, false), s').
Proof.
  intros Hk Hne Hlt s'. subst s'.
  rewrite (GetFromSimpleKV_expired key clock s e Hk Hne Hlt). cbn [snd].
  repeat apply conj.
  - unfold AddToSimpleKV. rewrite Hk. reflexivity.
  - unfold SetToSimpleKV. rewrite bumpCAS_fresh, Hk.
    rewrite bool_decide_eq_true_2 by eauto. reflexivity.
  - cbn. apply lookup_delete_eq.
  - unfold AddToSimpleKV. cbn [simplekvMap]. rewrite lookup_delete_eq, bumpCAS_fresh.
    reflexivity.
  - unfold SetToSimpleKV. cbn [simplekvMap]. rewrite lookup_delete_eq.
    rewrite bool_decide_eq_false_2 by (intros [? [=]]). reflexivity.
Qed.

Lemma expired_entry_until_lookup_witness :
  AddToSimpleKV "Hello" SimpleValue0 ex_store = ((SimpleValue0, false), ex_store)
  /\ snd (fst (AddToSimpleKV "Hello" SimpleValue0
                 (snd (GetFromSimpleKV "Hello" 137 ex_store)))) = true.
Proof.
  assert (simplekvMap ex_store !! "Hello"%string = Some ex_value) as Hk by reflexivity.
  destruct (expired_entry_until_lookup "Hello" SimpleValue0 ex_value 0 137 ex_store Hk)
    as (H1 & _ & _ & H2 & _); [ex_arith | ex_arith |].
  split; assumption.
Defined.

(** X12. The deadline is compared with the second of the minute, which
    never exceeds 59: an entry whose TTL field is 0 or at least 59 is
    returned by every lookup, at every time and whatever other connections
    do, and every entry with a TTL field of 0 or more is returned by a
    lookup made in second 0 of a minute. *)
Theorem lookup_never_expires (key : string) (clock : Z) (s : Store) (e : SimpleValue)
    (env : Store -> Store) :
  simplekvMap s !! key = Some e ->
  (TTL e = 0 \/ 59 <= TTL e -> GetFromSimpleKV_env env key clock s = ((e, true), s))
  /\ (0 <= TTL e -> clock mod 60 = 0 ->
        GetFromSimpleKV_env env key clock s = ((e, true), s)).
Proof.
  intros Hk. pose proof (Second_range clock) as Hs. split.
  - intros Ht. apply GetFromSimpleKV_env_live; [exact Hk | lia].
  - intros Ht Hc. apply GetFromSimpleKV_env_live; [exact Hk|]. unfold Second in *. lia.
Qed.

Lemma lookup_never_expires_witness :
  GetFromSimpleKV "Hello" 120 ex_store = ((ex_value, true), ex_store).
Proof.
  apply (lookup_never_expires "Hello" 120 ex_store ex_value id); [reflexivity | | ];
    ex_arith.
Defined.

(** X13. A lookup settles: a second [GetFromSimpleKV] of the same key at
    the same time gives the answer of the first and changes nothing more,
    so an expired entry is removed once. *)
Theorem lookup_twice (key : string) (clock : Z) (s : Store) :
  let r := GetFromSimpleKV key clock s in
  GetFromSimpleKV key clock (snd r) = (fst r, snd r).
Proof.
  intros r. subst r.
  destruct (simplekvMap s !! key) as [e|] eqn:Hk.
  - destruct (Z.eq_dec (TTL e) 0) as [Hz|Hnz].
    { rewrite (GetFromSimpleKV_live key clock s e Hk) by auto. cbn [fst snd].
      apply GetFromSimpleKV_live; auto. }
    destruct (Z.lt_ge_cases (TTL e) (Second clock)) as [Hlt|Hge].
    + rewrite (GetFromSimpleKV_expired key clock s e Hk Hnz Hlt). cbn [fst snd].
      apply GetFromSimpleKV_absent. cbn. apply lookup_delete_eq.
    + rewrite (GetFromSimpleKV_live key clock s e Hk) by auto. cbn [fst snd].
      apply GetFromSimpleKV_live; auto.
  - rewrite (GetFromSimpleKV_absent key clock s Hk). cbn [fst snd].
    apply GetFromSimpleKV_absent. exact Hk.
Qed.

(** ** The handlers *)

(** X14. The size limit: a SET-family request whose total body length
    exceeds [MaxReqLen] (2^30 bytes) is refused with the "too large" error
    before anything is read, on every connection whose read buffer has the
    size the server gives it. *)
Theorem SetHandler_too_large (header : RequestHeader) (st : State) :
  rqExtraLength header = 8 -> rqKeyLength header <> 0 ->
  MaxReqLen < rqTotalBodyLength header ->
  ReadBuf_ok (rbOf st) ->
  SetHandler header st = (Err ErrTooLarge, st).
Proof.
  intros He Hk Ht Hrb. unfold SetHandler. rewrite He. cbn [Z.eqb Pos.eqb negb orb].
  destruct (Z.eqb_spec (rqKeyLength header) 0); [contradiction|].
  unfold mbind at 1, M_bind at 1. rewrite (readBody_too_large header st Ht Hrb).
  reflexivity.
Qed.

Lemma SetHandler_too_large_witness :
  SetHandler (mkRequestHeader 0x80 0x01 5 8 0 0 (MaxReqLen + 1) 7 0)
             (ex_state ex_store 0 [ex_set_body])
  = (Err ErrTooLarge, ex_state ex_store 0 [ex_set_body]).
Proof.
  apply SetHandler_too_large; [reflexivity | discriminate | ex_arith |].
  exists 5%nat. split; [lia | reflexivity].
Defined.

(** X15. A body cut short: when the connection delivers fewer bytes than
    the announced total body length and then ends, [GetHandler] and
    [SetHandler] return [io.EOF] after draining the input, having written
    nothing and left the store as it was. *)
Theorem truncated_body_eof (header : RequestHeader) (st : State) :
  ReadBuf_ok (rbOf st) ->
  0 < rqKeyLength header ->
  rqTotalBodyLength header <= MaxReqLen ->
  (length (concat (rdOf st)) < Z.to_nat (rqTotalBodyLength header))%nat ->
  (rqExtraLength header = 0 -> rqTotalBodyLength header = rqKeyLength header ->
     exists st', GetHandler header st = (Err EOF, st')
                 /\ store st' = store st /\ wrOf st' = wrOf st /\ rdOf st' = [])
  /\ (rqExtraLength header = 8 ->
        exists st', SetHandler header st = (Err EOF, st')
                    /\ store st' = store st /\ wrOf st' = wrOf st /\ rdOf st' = []).
Proof.
  intros Hrb Hk Hmax Hav.
  assert (0 <= rqTotalBodyLength header <= MaxReqLen) as Ht by lia.
  destruct (readBody_eof header st Ht Hrb Hav) as (rb' & Hread).
  split.
  - intros He Htot. unfold GetHandler. rewrite He, Htot. cbn [Z.ltb Z.compare].
    destruct (Z.eqb_spec (rqKeyLength header) 0); [lia|].
    assert (0 <= rqKeyLength header < 2 ^ 32) by (unfold MaxReqLen in *; lia).
    unfold wrap at 1. rewrite Z.add_0_r, Z.mod_small by lia. rewrite Z.eqb_refl.
    cbn [negb]. unfold mbind at 1, M_bind at 1. rewrite Hread.
    eexists. split; [reflexivity|]. auto.
  - intros He. unfold SetHandler. rewrite He. cbn [Z.eqb Pos.eqb negb orb].
    destruct (Z.eqb_spec (rqKeyLength header) 0); [lia|].
    unfold mbind at 1, M_bind at 1. rewrite Hread.
    eexists. split; [reflexivity|]. auto.
Qed.

Lemma truncated_body_eof_witness :
  exists st',
    SetHandler (ex_set 0x01) (ex_state ex_store 0 [take 10 ex_set_body]) = (Err EOF, st')
    /\ store st' = ex_store /\ wrOf st' = [] /\ rdOf st' = [].
Proof.
  apply (truncated_body_eof (ex_set 0x01) (ex_state ex_store 0 [take 10 ex_set_body]));
    try ex_arith.
  exists 5%nat. split; [lia | reflexivity].
Defined.

(** X16. A key too long for the uint16 sum: for a SET-family request with
    a key of 65528 bytes or more, [8+header.KeyLength] wraps below 8 and
    the slice expression [buf[8 : 8+header.KeyLength]] panics, after the
    body has been read and before the store is touched or anything is
    written. *)
Theorem SetHandler_long_key_panics (header : RequestHeader) (st : State) :
  rqExtraLength header = 8 ->
  2 ^ 16 <= 8 + rqKeyLength header < 2 ^ 16 + 8 ->
  rqKeyLength header + rqExtraLength header <= rqTotalBodyLength header <= MaxReqLen ->
  ReadBuf_ok (rbOf st) ->
  (Z.to_nat (rqTotalBodyLength header) <= length (concat (rdOf st)))%nat ->
  fst (SetHandler header st) = Err Panic
  /\ store (snd (SetHandler header st)) = store st
  /\ wrOf (snd (SetHandler header st)) = wrOf st.
Proof.
  intros He Hk Htot Hrb Hav.
  unfold SetHandler. rewrite He. cbn [Z.eqb Pos.eqb negb orb].
  destruct (Z.eqb_spec (rqKeyLength header) 0); [lia|].
  destruct (readBody_run header st) as (rd' & rb' & Hread & _ & _ & Hlen' & _);
    [lia | exact Hrb | exact Hav |].
  set (body := take (Z.to_nat (rqTotalBodyLength header)) (concat (rdOf st))) in *.
  assert (length body = Z.to_nat (rqTotalBodyLength header)) as Hlb
    by (unfold body; rewrite length_take; lia).
  rewrite (bind_run _ _ _ _ _ Hread).
  rewrite (GetUint32_field body) by lia. cbn [must].
  rewrite (bind_run _ _ _ _ _ (liftRes_run _ _)).
  destruct (Z.leb_spec 4 (len body)); [|unfold len in *; lia].
  rewrite (GetUint32_field (drop 4 body)) by (rewrite length_drop; lia). cbn [must].
  rewrite (bind_run _ _ _ _ _ (liftRes_run _ _)).
  rewrite (bind_run _ _ _ _ _ (gets_run _ _)).
  rewrite (bind_run _ _ _ _ _ (gets_run _ _)).
  assert (wrap 16 (8 + rqKeyLength header) = 8 + rqKeyLength header - 2 ^ 16) as ->.
  { unfold wrap. symmetry. apply (Z.mod_unique_pos _ _ 1); lia. }
  destruct (Z.leb_spec 8 (8 + rqKeyLength header - 2 ^ 16)); [lia|].
  cbn [andb]. unfold mbind at 1, M_bind at 1, throw at 1. auto.
Qed.

Lemma SetHandler_long_key_panics_witness :
  fst (SetHandler (mkRequestHeader 0x80 0x01 65528 8 0 0 65536 7 0)
         (ex_state ex_store 0 [replicate (Z.to_nat 65536) x00]))
  = Err Panic
  /\ store (snd (SetHandler (mkRequestHeader 0x80 0x01 65528 8 0 0 65536 7 0)
                   (ex_state ex_store 0 [replicate (Z.to_nat 65536) x00])))
     = ex_store.
Proof.
  destruct (SetHandler_long_key_panics
              (mkRequestHeader 0x80 0x01 65528 8 0 0 65536 7 0)
              (ex_state ex_store 0 [replicate (Z.to_nat 65536) x00]))
    as (H1 & H2 & _).
  - reflexivity.
  - cbn. lia.
  - cbn. unfold MaxReqLen. lia.
  - exists 5%nat. split; [lia | reflexivity].
  - cbn [ex_state rdOf ctx RW rd concat rqTotalBodyLength].
    rewrite app_nil_r, length_replicate. lia.
  - split; [exact H1 | exact H2].
Defined.

(** X17. No write undoes a mutation.  For a SET-family request of the
    right shape whose body is on the connection, the store [SetHandler]
    leaves is the one its store access produced, whatever becomes of the
    response: with room to write it or without, an entry that was stored
    stays under its key. *)
Theorem SetHandler_mutation_stays (header : RequestHeader) (st : State) :
  rqExtraLength header = 8 ->
  0 < rqKeyLength header ->
  8 + rqKeyLength header < 2 ^ 16 ->
  rqKeyLength header + rqExtraLength header <= rqTotalBodyLength header <= MaxReqLen ->
  ReadBuf_ok (rbOf st) ->
  (Z.to_nat (rqTotalBodyLength header) <= length (concat (rdOf st)))%nat ->
  let body := set_body header st in
  let key := string_of (body_key header body) in
  let d := dispatch header key (candidate header body (clock st)) (store st) in
  store (snd (SetHandler header st)) = snd d
  /\ forall e, fst d = Stored e ->
       simplekvMap (store (snd (SetHandler header st))) !! key = Some e.
Proof.
  intros He Hk Hk16 [Htot Hmax] Hrb Hav body key d.
  destruct (SetHandler_access header st He Hk Hk16 Htot Hmax Hrb Hav)
    as (out & rd' & rb' & Hacc & _).
  fold body key d in Hacc.
  assert (store (snd (SetHandler header st)) = snd d) as Hst.
  { rewrite Hacc, set_output_store. reflexivity. }
  split; [exact Hst|]. intros e Hd. rewrite Hst. subst d.
  destruct (dispatch_cases header key (candidate header body (clock st)) (store st))
    as [(status & message & Hf & _) | Hs].
  - rewrite Hf in Hd. discriminate.
  - rewrite Hs in Hd |- *. cbn [fst snd] in Hd |- *. injection Hd as <-.
    apply store_entry_lookup.
Qed.

Lemma SetHandler_mutation_stays_witness :
  simplekvMap (store (snd (SetHandler (ex_set 0x01) (ex_state ex_store0 0 [ex_set_body]))))
    !! "Hello"%string
  = Some (mkSimpleValue (bytes_of "World") 5 1 10).
Proof.
  pose proof (SetHandler_mutation_stays (ex_set 0x01)
                (ex_state ex_store0 0 [ex_set_body])) as H. cbv zeta in H.
  destruct H as [_ H].
  - reflexivity.
  - reflexivity.
  - reflexivity.
  - split; [cbn; lia | vm_compute; discriminate].
  - exists 5%nat. split; [lia | reflexivity].
  - cbn. lia.
  - apply H. vm_compute. reflexivity.
Defined.

(** X18. [VersionHandler] answers a request without key, extras and value
    with status NoError and the six bytes "1.4.24", echoing opcode and
    opaque, and touches neither the input nor the store; with a key,
    extras or a value it fails and writes nothing. *)
Theorem VersionHandler_response (header : RequestHeader) (st : State) :
  wf_RequestHeader header ->
  (rqKeyLength header = 0 -> rqExtraLength header = 0 -> rqTotalBodyLength header = 0 ->
   (30 <= roomOf st)%nat ->
     VersionHandler header st
     = (Ok tt, emit (headerBytes (mkResponseHeader 0x81 (rqOpcode header) 0 0 0 0x0000 6
                                    (rqOpaque header) 0)
                     ++ bytes_of "1.4.24") st))
  /\ (rqKeyLength header <> 0 \/ rqExtraLength header <> 0
      \/ rqTotalBodyLength header <> 0 ->
        VersionHandler header st = (Err ErrNoBody, st)).
Proof.
  intros Hwf. pose proof (hasBody_false header Hwf) as Hb. split.
  - intros Hk He Ht Hroom. unfold VersionHandler.
    rewrite (proj2 Hb) by auto.
    run_with writeResponseHeader_run.
    rewrite writeAll_run by (rewrite roomOf_emit, length_headerBytes; cbn; lia).
    rewrite emit_emit. reflexivity.
  - intros Hne. unfold VersionHandler.
    destruct (hasBody header); [reflexivity|]. destruct Hb as [Hb _].
    specialize (Hb eq_refl). lia.
Qed.

Lemma VersionHandler_response_witness :
  VersionHandler (mkRequestHeader 0x80 0x0b 0 0 0 0 0 9 0) (ex_state ex_store 0 [])
  = (Ok tt, emit (headerBytes (mkResponseHeader 0x81 0x0b 0 0 0 0 6 9 0)
                  ++ bytes_of "1.4.24") (ex_state ex_store 0 [])).
Proof.
  apply (VersionHandler_response (mkRequestHeader 0x80 0x0b 0 0 0 0 0 9 0)
           (ex_state ex_store 0 [])); try reflexivity.
  - split; unfold uint; cbn; lia.
  - ex_arith.
Defined.

(** X19. [NoOpHandler] and [QuitHandler] both answer a request without
    key, extras and value with a bare header of status NoError; the no-op
    then returns normally, while quit returns [io.EOF], the value on which
    the connection loop stops.  With a key, extras or a value both fail
    and write nothing. *)
Theorem NoOp_Quit_response (header : RequestHeader) (st : State) :
  wf_RequestHeader header ->
  let resp := headerBytes (mkResponseHeader 0x81 (rqOpcode header) 0 0 0 0x0000 0
                             (rqOpaque header) 0) in
  (rqKeyLength header = 0 -> rqExtraLength header = 0 -> rqTotalBodyLength header = 0 ->
   (24 <= roomOf st)%nat ->
     NoOpHandler header st = (Ok tt, emit resp st)
     /\ QuitHandler header st = (Err EOF, emit resp st))
  /\ (rqKeyLength header <> 0 \/ rqExtraLength header <> 0
      \/ rqTotalBodyLength header <> 0 ->
        NoOpHandler header st = (Err ErrNoBody, st)
        /\ QuitHandler header st = (Err ErrNoBody, st)).
Proof.
  intros Hwf resp. pose proof (hasBody_false header Hwf) as Hb. split.
  - intros Hk He Ht Hroom. unfold NoOpHandler, QuitHandler.
    rewrite (proj2 Hb) by auto. split.
    + apply writeResponseHeader_run. exact Hroom.
    + run_with writeResponseHeader_run. reflexivity.
  - intros Hne. unfold NoOpHandler, QuitHandler.
    destruct (hasBody header); [split; reflexivity|]. destruct Hb as [Hb _].
    specialize (Hb eq_refl). lia.
Qed.

Lemma NoOp_Quit_response_witness :
  (NoOpHandler (mkRequestHeader 0x80 0x07 0 0 0 0 0 9 0) (ex_state ex_store 0 [])
   = (Ok tt, emit (headerBytes (mkResponseHeader 0x81 0x07 0 0 0 0 0 9 0))
                  (ex_state ex_store 0 []))
   /\ QuitHandler (mkRequestHeader 0x80 0x07 0 0 0 0 0 9 0) (ex_state ex_store 0 [])
      = (Err EOF, emit (headerBytes (mkResponseHeader 0x81 0x07 0 0 0 0 0 9 0))
                       (ex_state ex_store 0 []))).
Proof.
  apply (NoOp_Quit_response (mkRequestHeader 0x80 0x07 0 0 0 0 0 9 0)
           (ex_state ex_store 0 [])); try reflexivity.
  - split; unfold uint; cbn; lia.
  - ex_arith.
Defined.

(** X20. What the handlers need they also leave behind.  After a GET- or
    SET-family request that is answered, the read buffer still has a
    power of two up to 2^30 as its size and has not shrunk, and every
    stored value is still within [MaxReqLen]: the next request on the
    connection meets the same conditions. *)
Theorem handlers_keep_invariants (header : RequestHeader) (st : State) :
  let kept st' :=
    ReadBuf_ok (rbOf st') /\ (length (rbOf st) <= length (rbOf st'))%nat
    /\ store_sized (store st') in
  let key := take (Z.to_nat (rqKeyLength header)) (concat (rdOf st)) in
  let lookup := GetFromSimpleKV (string_of key) (clock st) (store st) in
  let hit := if snd (fst lookup) then Some (fst (fst lookup)) else None in
  ReadBuf_ok (rbOf st) -> store_sized (store st) ->
  (wf_RequestHeader header ->
   rqExtraLength header = 0 -> 0 < rqKeyLength header ->
   rqTotalBodyLength header = rqKeyLength header ->
   (Z.to_nat (rqKeyLength header) <= length (concat (rdOf st)))%nat ->
   (length (wire (get_response header key hit)) <= roomOf st)%nat ->
   fst (GetHandler header st) = Ok tt /\ kept (snd (GetHandler header st)))
  /\ (set_ready header st ->
      fst (SetHandler header st) = Ok tt /\ kept (snd (SetHandler header st))).
Proof.
  intros kept key lookup hit Hrb Hsz. split.
  - intros Hwf He Hk Ht Hav Hroom.
    destruct (GetHandler_run header st Hwf He Hk Ht Hrb Hav Hsz Hroom)
      as (st' & Hrun & _ & Hst & Hrb' & rd' & _ & _ & Hgrow).
    rewrite Hrun. cbn [fst snd]. split; [reflexivity|].
    split; [exact Hrb'|]. split; [exact Hgrow|].
    rewrite Hst. apply GetFromSimpleKV_store_sized. exact Hsz.
  - intros Hready.
    destruct (SetHandler_run header st Hready)
      as (st' & Hrun & _ & Hst & Hrb' & rd' & _ & _ & Hgrow).
    rewrite Hrun. cbn [fst snd]. split; [reflexivity|].
    split; [exact Hrb'|]. split; [exact Hgrow|].
    destruct (SetHandler_store_sized header st Hready Hsz) as (st2 & Hrun2 & Hsz2 & _).
    rewrite Hrun in Hrun2. injection Hrun2 as <-. exact Hsz2.
Qed.

Lemma handlers_keep_invariants_witness :
  fst (SetHandler (ex_set 0x01) (ex_state ex_store 0 [ex_set_body])) = Ok tt
  /\ store_sized (store (snd (SetHandler (ex_set 0x01)
                                (ex_state ex_store 0 [ex_set_body])))).
Proof.
  destruct (handlers_keep_invariants (ex_set 0x01) (ex_state ex_store 0 [ex_set_body]))
    as [_ H].
  - exists 5%nat. split; [lia | reflexivity].
  - intros k e Hk. unfold ex_state, ex_store in Hk. cbn [store simplekvMap] in Hk.
    apply lookup_singleton_Some in Hk as [_ <-]. vm_compute. discriminate.
  - destruct H as (H1 & _ & _ & H2).
    + constructor; [reflexivity | reflexivity | cbn; lia | cbn; lia
                    | vm_compute; discriminate | exists 5%nat; split; [lia | reflexivity]
                    | cbn; lia | cbn; lia].
    + split; [exact H1 | exact H2].
Defined.

(** X27. Response emission of the SET family, for a key of at most
    65527 bytes ([set_ready]).  After a store access that succeeded a
    quiet opcode emits nothing and the others a header with status
    NoError, no body and the CAS of the entry now stored; after one that
    failed a response goes out for every opcode, with status KeyNotFound
    and body "Not found" or status KeyExists and body
    "Data exists for key.", and CAS 0. *)
Theorem SetHandler_response (header : RequestHeader) (st : State) :
  set_ready header st ->
  let body := set_body header st in
  let key := string_of (body_key header body) in
  let d := dispatch header key (candidate header body (clock st)) (store st) in
  exists st', SetHandler header st = (Ok tt, st')
    /\ store st' = snd d
    /\ match fst d with
       | Stored e =>
           simplekvMap (store st') !! key = Some e
           /\ wrOf st' = wrOf st
                ++ (if quietSet (rqOpcode header) then []
                    else headerBytes (mkResponseHeader 0x81 (rqOpcode header) 0 0 0
                                        0x0000 0 (rqOpaque header) (svCAS e)))
       | Failed status message =>
           store st' = store st
           /\ wrOf st' = wrOf st
                ++ headerBytes (mkResponseHeader 0x81 (rqOpcode header) 0 0 0
                                  status (len (bytes_of message)) (rqOpaque header) 0)
                ++ bytes_of message
           /\ (status = 0x0001 /\ message = "Not found"%string
               \/ status = 0x0002 /\ message = "Data exists for key."%string)
       end.
Proof.
  intros Hready body key d.
  destruct (SetHandler_run header st Hready) as (st' & Hrun & Hwr & Hst & _).
  fold body key d in Hwr, Hst.
  exists st'. split; [exact Hrun|]. split; [exact Hst|].
  rewrite Hwr, Hst.
  destruct (dispatch_cases header key (candidate header body (clock st)) (store st))
    as [(status & message & Hd & Hmsg) | Hd]; fold d in Hd; rewrite Hd;
    cbn [fst snd set_response].
  - cbn [wire respHeader respBody]. auto.
  - split; [apply store_entry_lookup|].
    destruct (quietSet (rqOpcode header)); cbn [wire respHeader respBody];
      rewrite ?app_nil_r; reflexivity.
Qed.

Lemma SetHandler_response_witness :
  (exists st',
     SetHandler (ex_set 0x01) (ex_state ex_store 125 [ex_set_body]) = (Ok tt, st')
     /\ wrOf st' = headerBytes (mkResponseHeader 0x81 0x01 0 0 0 0 0 7 2))
  /\ (exists st',
        SetHandler (ex_set 0x13) (ex_state ex_store0 125 [ex_set_body]) = (Ok tt, st')
        /\ wrOf st' = headerBytes (mkResponseHeader 0x81 0x13 0 0 0 1 9 7 0)
                      ++ bytes_of "Not found").
Proof.
  assert (forall op s, set_ready (ex_set op) (ex_state s 125 [ex_set_body])) as Hready.
  { intros op s.
    split; [ex_arith .. | exists 5%nat; split; [lia | reflexivity] | ex_arith | ex_arith]. }
  split.
  - pose proof (SetHandler_response _ _ (Hready 0x01 ex_store)) as H. cbv zeta in H.
    destruct H as (st' & Hrun & _ & Hm). exists st'. split; [exact Hrun|].
    match type of Hm with match fst ?d with _ => _ end =>
      assert (exists e0, fst d = Stored e0 /\ svCAS e0 = 2) as (e0 & Hd & Hc)
        by (eexists; split; vm_compute; reflexivity);
      rewrite Hd in Hm
    end.
    destruct Hm as (_ & ->). rewrite Hc. reflexivity.
  - pose proof (SetHandler_response _ _ (Hready 0x13 ex_store0)) as H. cbv zeta in H.
    destruct H as (st' & Hrun & _ & Hm). exists st'. split; [exact Hrun|].
    match type of Hm with match fst ?d with _ => _ end =>
      assert (fst d = Failed 1 "Not found") as Hd by (vm_compute; reflexivity);
      rewrite Hd in Hm
    end.
    destruct Hm as (_ & -> & _). reflexivity.
Defined.

(** ** A command on the connection *)

(** X21. A connection that ends before a whole header has arrived:
    [handleCommand] returns [io.EOF] after draining the input, counts no
    command, writes nothing and leaves the store as it was.  This is how
    a client that closes an idle connection is seen. *)
Theorem handleCommand_short_header (c : Conn) :
  let st := cState c in
  (24 <= length (rbOf st))%nat ->
  (length (concat (rdOf st)) < 24)%nat ->
  exists st',
    handleCommand c = (Err EOF, mkConn st' (CommandSeq c) (LastReqTime c))
    /\ store st' = store st /\ wrOf st' = wrOf st /\ rdOf st' = [].
Proof.
  intros st Hrb Hav.
  destruct (readLoop_eof (rdOf st) (S (length (rdOf st))) 0 24 st)
    as (rb' & Hrun & _); try reflexivity; try lia.
  unfold handleCommand. fold st. fold (rbOf st) (rdOf st).
  destruct (Nat.ltb_spec (length (rbOf st)) 24); [lia|].
  change (Z.of_nat 0) with 0 in Hrun. change (Z.of_nat 24) with 24 in Hrun.
  rewrite Hrun. eexists. split; [reflexivity|]. repeat split.
Qed.

Lemma handleCommand_short_header_witness :
  exists st',
    handleCommand (ex_conn (ex_state ex_store 0 [take 10 ex_header_bytes; [x00; x01]]))
    = (Err EOF, mkConn st' 0 0)
    /\ store st' = ex_store /\ wrOf st' = [] /\ rdOf st' = [].
Proof.
  apply (handleCommand_short_header
           (ex_conn (ex_state ex_store 0 [take 10 ex_header_bytes; [x00; x01]])));
    cbn; lia.
Defined.

(** X22. A header that does not parse ends the command after its 24
    bytes: [handleCommand] returns the parser's error, the connection
    receives the line "Error ", the error's text and a newline when it has
    room for it, the command is counted, no byte beyond the header is read
    and the store is not touched. *)
Theorem handleCommand_bad_header (c : Conn) (e : error) :
  let st := cState c in
  let bufHeader := take 24 (concat (rdOf st)) in
  (24 <= length (rbOf st))%nat ->
  (24 <= length (concat (rdOf st)))%nat ->
  parseRequestHeader bufHeader = Err e ->
  exists text rd',
    errorText e bufHeader = Some text
    /\ concat rd' = drop 24 (concat (rdOf st))
    /\ fst (handleCommand c) = Err e
    /\ store (cState (snd (handleCommand c))) = store st
    /\ rdOf (cState (snd (handleCommand c))) = rd'
    /\ CommandSeq (snd (handleCommand c)) = wrap 64 (CommandSeq c + 1)
    /\ let line := bytes_of "Error " ++ bytes_of text ++ [x0a] in
       ((length line <= roomOf st)%nat ->
        wrOf (cState (snd (handleCommand c))) = wrOf st ++ line).
Proof.
  intros st bufHeader Hrb Hav Hp.
  destruct (handleCommand_parsed c Hrb Hav) as (rd' & Hcat & Hrun). fold st in Hcat, Hrun.
  cbv zeta in Hrun. fold bufHeader in Hrun. rewrite Hp in Hrun.
  destruct (parse_errors bufHeader e) as [text Ht]; [|exact Hp|].
  { unfold bufHeader. rewrite length_take. lia. }
  rewrite Ht in Hrun. exists text, rd'. rewrite Hrun. cbn [fst snd cState CommandSeq].
  split; [exact Ht|]. split; [exact Hcat|]. split; [reflexivity|].
  set (line := bytes_of "Error " ++ bytes_of text ++ [x0a]).
  unfold Write. change (room (RW (ctx (afterHeader rd' st)))) with (roomOf st).
  destruct (Nat.leb_spec (length line) (roomOf st)); cbn [snd];
    repeat split; intros; lia.
Qed.

Lemma handleCommand_bad_header_witness :
  fst (handleCommand (ex_conn (ex_state ex_store 0 [x81 :: drop 1 ex_header_bytes;
                                                    ex_set_body])))
  = Err (ErrMagic 0x81)
  /\ wrOf (cState (snd (handleCommand
             (ex_conn (ex_state ex_store 0 [x81 :: drop 1 ex_header_bytes;
                                            ex_set_body])))))
     = bytes_of "Error Magic byte is not 0x80: 81" ++ [x0a]
  /\ concat (rdOf (cState (snd (handleCommand
               (ex_conn (ex_state ex_store 0 [x81 :: drop 1 ex_header_bytes;
                                              ex_set_body]))))))
     = ex_set_body.
Proof.
  set (c := ex_conn (ex_state ex_store 0 [x81 :: drop 1 ex_header_bytes; ex_set_body])).
  destruct (handleCommand_bad_header c (ErrMagic 0x81))
    as (text & rd' & Ht & Hcat & He & _ & Hrd & _ & Hwr);
    [cbn; lia | cbn; lia | reflexivity |].
  injection Ht as <-. split; [exact He|]. split.
  - rewrite Hwr; [reflexivity | vm_compute; lia].
  - rewrite Hrd, Hcat. reflexivity.
Defined.

(** X23. A request the parser lets through but whose shape the opcode
    does not allow is dropped without a word to the client: after the 24
    bytes of the header [handleCommand] returns the handler's error, and
    nothing has been written, nothing of the body read and the store left
    as it was.  This is so for the GET family with extras, without key or
    with a value, for the SET family with extras other than 8 bytes or
    without key, and for version, no-op and quit with any body. *)
Theorem handleCommand_refused (c : Conn) (h : RequestHeader) (tail : list byte) :
  let st := cState c in
  let quiet_end e :=
    fst (handleCommand c) = Err e
    /\ wrOf (cState (snd (handleCommand c))) = wrOf st
    /\ store (cState (snd (handleCommand c))) = store st
    /\ concat (rdOf (cState (snd (handleCommand c)))) = tail in
  valid_header h ->
  (24 <= length (rbOf st))%nat ->
  concat (rdOf st) = requestBytes h ++ tail ->
  (rqOpcode h ∈ [OpGet; OpGetQ; OpGetK; OpGetKQ] ->
     (0 < rqExtraLength h -> quiet_end ErrGetExtra)
     /\ (rqExtraLength h = 0 -> rqKeyLength h = 0 -> quiet_end ErrGetNoKey)
     /\ (rqExtraLength h = 0 -> 0 < rqKeyLength h ->
         rqTotalBodyLength h <> rqKeyLength h -> quiet_end ErrGetHasValue))
  /\ (rqOpcode h ∈ [OpSet; OpSetQ; OpAdd; OpAddQ; OpReplace; OpReplaceQ] ->
      rqExtraLength h <> 8 \/ rqKeyLength h = 0 -> quiet_end ErrSetShape)
  /\ (rqOpcode h ∈ [OpVersion; OpNoOp; OpQuit] ->
      0 < rqTotalBodyLength h -> quiet_end ErrNoBody).
Proof.
  intros st quiet_end Hv Hrb Hin.
  destruct (handleCommand_valid c h tail Hv Hrb Hin) as (rd' & Handle & Hcat & HH & Hrun).
  fold st in Hrun. set (st1 := afterHeader rd' st) in *.
  assert (forall e, (Handle : HandleFunc) h st1 = (Err e, st1) -> quiet_end e) as Hend.
  { intros e He. unfold quiet_end. rewrite Hrun, He. cbn [fst snd cState].
    repeat split. exact Hcat. }
  destruct (handlers_refuse h st1) as (Hg1 & Hg2 & Hg3 & Hs).
  destruct Hv as [[_ _ Hkl Hel _ _ Htl _ _] _ _ _ Htot]. unfold uint in *.
  split; [|split].
  - intros Hop. rewrite (OpHandler_get _ Hop) in HH. injection HH as <-.
    repeat apply conj; intros; apply Hend.
    + apply Hg1. assumption.
    + apply Hg2; lia.
    + apply Hg3; try lia.
      replace (rqExtraLength h) with 0 by lia. rewrite Z.add_0_r.
      rewrite Z.mod_small by lia. assumption.
  - intros Hop Hshape. rewrite (OpHandler_set _ Hop) in HH. injection HH as <-.
    apply Hend. apply Hs. exact Hshape.
  - intros Hop Hbody.
    assert (hasBody h = true) as Hb.
    { unfold hasBody. destruct (Z.ltb_spec 0 (rqTotalBodyLength h)); [|lia].
      rewrite !orb_true_r. reflexivity. }
    destruct (nobody_refuses h st1 Hb) as (Hv1 & Hn1 & Hq1).
    destruct (OpHandler_nobody _ Hop) as [H1 | [H1 | H1]];
      rewrite H1 in HH; injection HH as <-; apply Hend; assumption.
Qed.

Lemma handleCommand_refused_witness :
  fst (handleCommand (ex_conn (ex_state ex_store 0
                                 [requestBytes (ex_set 0x00); ex_set_body])))
  = Err ErrGetExtra
  /\ wrOf (cState (snd (handleCommand (ex_conn (ex_state ex_store 0
                                          [requestBytes (ex_set 0x00); ex_set_body])))))
     = []
  /\ store (cState (snd (handleCommand (ex_conn (ex_state ex_store 0
                                           [requestBytes (ex_set 0x00); ex_set_body])))))
     = ex_store
  /\ concat (rdOf (cState (snd (handleCommand
                (ex_conn (ex_state ex_store 0
                            [requestBytes (ex_set 0x00); ex_set_body]))))))
     = ex_set_body.
Proof.
  apply (handleCommand_refused
           (ex_conn (ex_state ex_store 0 [requestBytes (ex_set 0x00); ex_set_body]))
           (ex_set 0x00) ex_set_body).
  - constructor; [split; unfold uint; cbn; lia | reflexivity | | reflexivity | cbn; lia].
    apply OpHandler_dom. eexists. reflexivity.
  - cbn. lia.
  - cbn [ex_conn cState ex_state rdOf ctx RW rd concat]. rewrite app_nil_r. reflexivity.
  - unfold ex_set. cbn [rqOpcode]. rewrite !elem_of_cons. auto.
  - reflexivity.
Defined.

(** X24. A GET-family request on the wire, header and key in whatever
    pieces the connection delivers them: [handleCommand] reads exactly
    the request, counts it, looks the key up once and writes the response
    of the GET family for the result of the lookup; what follows the
    request stays to be read. *)
Theorem handleCommand_get (c : Conn) (h : RequestHeader) (key rest : list byte) :
  let st := cState c in
  valid_header h ->
  rqOpcode h ∈ [OpGet; OpGetQ; OpGetK; OpGetKQ] ->
  rqExtraLength h = 0 -> 0 < rqKeyLength h -> rqTotalBodyLength h = rqKeyLength h ->
  len key = rqKeyLength h ->
  concat (rdOf st) = requestBytes h ++ key ++ rest ->
  ReadBuf_ok (rbOf st) -> (24 <= length (rbOf st))%nat ->
  store_sized (store st) ->
  let lookup := GetFromSimpleKV (string_of key) (clock st) (store st) in
  let hit := if snd (fst lookup) then Some (fst (fst lookup)) else None in
  let resp := get_response h key hit in
  (length (wire resp) <= roomOf st)%nat ->
  exists c',
    handleCommand c = (Ok tt, c')
    /\ wrOf (cState c') = wrOf st ++ wire resp
    /\ store (cState c') = snd lookup
    /\ concat (rdOf (cState c')) = rest
    /\ CommandSeq c' = wrap 64 (CommandSeq c + 1).
Proof.
  intros st Hv Hop He Hk Ht Hlk Hin Hok Hrb Hsz lookup hit resp Hroom.
  destruct (handleCommand_get_run c h key rest Hv Hop He Hk Ht Hlk Hin Hok Hrb Hsz Hroom)
    as (st' & Hrun & Hwr & Hst & Hrd & _).
  eexists. split; [exact Hrun|]. cbn [cState CommandSeq]. auto.
Qed.

Lemma handleCommand_get_witness :
  exists c',
    handleCommand (ex_conn (ex_state ex_store 0 [requestBytes ex_get; bytes_of "Hel";
                                                 bytes_of "lo" ++ [x80]]))
    = (Ok tt, c')
    /\ wrOf (cState c')
       = headerBytes ex_response ++ [x00; x00; x00; x05] ++ bytes_of "HelloWorld"
    /\ concat (rdOf (cState c')) = [x80].
Proof.
  destruct (handleCommand_get
              (ex_conn (ex_state ex_store 0 [requestBytes ex_get; bytes_of "Hel";
                                             bytes_of "lo" ++ [x80]]))
              ex_get (bytes_of "Hello") [x80])
    as (c' & Hrun & Hwr & _ & Hrd & _).
  - constructor; [split; unfold uint; cbn; lia | reflexivity | | reflexivity | cbn; lia].
    apply OpHandler_dom. eexists. reflexivity.
  - unfold ex_get. cbn [rqOpcode]. rewrite !elem_of_cons. auto.
  - reflexivity.
  - reflexivity.
  - reflexivity.
  - reflexivity.
  - reflexivity.
  - exists 5%nat. split; [lia | reflexivity].
  - cbn. lia.
  - intros k e Hk. unfold ex_conn, ex_state, ex_store in Hk.
    cbn [cState store simplekvMap] in Hk.
    apply lookup_singleton_Some in Hk as [_ <-]. vm_compute. discriminate.
  - vm_compute. lia.
  - exists c'. split; [exact Hrun|]. split; [|exact Hrd].
    rewrite Hwr. vm_compute. reflexivity.
Defined.

(** X25. A SET-family request on the wire: [handleCommand] reads the
    header and the whole body, however the connection cuts them, counts
    the command, makes the one store access of the opcode with the entry
    decoded from the body, and writes the response of the SET family;
    what follows the request stays to be read. *)
Theorem handleCommand_set (c : Conn) (h : RequestHeader) (body rest : list byte) :
  let st := cState c in
  valid_header h ->
  rqOpcode h ∈ [OpSet; OpSetQ; OpAdd; OpAddQ; OpReplace; OpReplaceQ] ->
  rqExtraLength h = 8 -> 0 < rqKeyLength h -> 8 + rqKeyLength h < 2 ^ 16 ->
  rqTotalBodyLength h <= MaxReqLen ->
  len body = rqTotalBodyLength h ->
  concat (rdOf st) = requestBytes h ++ body ++ rest ->
  ReadBuf_ok (rbOf st) -> (24 <= length (rbOf st))%nat ->
  (44 <= roomOf st)%nat ->
  let key := string_of (body_key h body) in
  let d := dispatch h key (candidate h body (clock st)) (store st) in
  exists c',
    handleCommand c = (Ok tt, c')
    /\ wrOf (cState c') = wrOf st ++ wire (set_response h (fst d))
    /\ store (cState c') = snd d
    /\ concat (rdOf (cState c')) = rest
    /\ CommandSeq c' = wrap 64 (CommandSeq c + 1).
Proof.
  intros st Hv Hop He Hk Hk16 Hmax Hlb Hin Hok Hrb Hroom key d.
  destruct (handleCommand_set_run c h body rest Hv Hop He Hk Hk16 Hmax Hlb Hin Hok Hrb
              Hroom) as (st' & Hrun & Hwr & Hst & Hrd & _).
  eexists. split; [exact Hrun|]. cbn [cState CommandSeq]. auto.
Qed.

Lemma handleCommand_set_witness :
  exists c',
    handleCommand (ex_conn (ex_state ex_store0 0 [ex_header_bytes ++ take 3 ex_set_body;
                                                  drop 3 ex_set_body]))
    = (Ok tt, c')
    /\ wrOf (cState c') = headerBytes (mkResponseHeader 0x81 0x01 0 0 0 0 0 7 1)
    /\ simplekvMap (store (cState c')) !! "Hello"%string
       = Some (mkSimpleValue (bytes_of "World") 5 1 10).
Proof.
  destruct (handleCommand_set
              (ex_conn (ex_state ex_store0 0 [ex_header_bytes ++ take 3 ex_set_body;
                                              drop 3 ex_set_body]))
              (ex_set 0x01) ex_set_body [])
    as (c' & Hrun & Hwr & Hst & _).
  - constructor; [split; unfold uint; cbn; lia | reflexivity | | reflexivity | cbn; lia].
    apply OpHandler_dom. eexists. reflexivity.
  - unfold ex_set. cbn [rqOpcode]. rewrite !elem_of_cons. auto.
  - reflexivity.
  - reflexivity.
  - reflexivity.
  - vm_compute. discriminate.
  - reflexivity.
  - reflexivity.
  - exists 5%nat. split; [lia | reflexivity].
  - cbn. lia.
  - cbn. lia.
  - exists c'. split; [exact Hrun|]. split.
    + rewrite Hwr. vm_compute. reflexivity.
    + rewrite Hst. vm_compute. reflexivity.
Defined.

(** X26. What a client stores it reads back.  When a SET-family request
    that stores its entry is followed on the connection by a GET-family
    request for the same key, handled at a time the entry's deadline
    allows, the two commands answer with the response of the store and
    then with a hit that carries the flag and the value of the request and
    the CAS the store response announced. *)
Theorem set_then_get (c : Conn) (hs hg : RequestHeader) (body rest : list byte)
    (e : SimpleValue) (clock2 : Z) :
  let st := cState c in
  let key := body_key hs body in
  valid_header hs ->
  rqOpcode hs ∈ [OpSet; OpSetQ; OpAdd; OpAddQ; OpReplace; OpReplaceQ] ->
  rqExtraLength hs = 8 -> 0 < rqKeyLength hs -> 8 + rqKeyLength hs < 2 ^ 16 ->
  rqTotalBodyLength hs <= MaxReqLen ->
  len body = rqTotalBodyLength hs ->
  valid_header hg ->
  rqOpcode hg ∈ [OpGet; OpGetQ; OpGetK; OpGetKQ] ->
  rqExtraLength hg = 0 -> rqKeyLength hg = rqKeyLength hs ->
  rqTotalBodyLength hg = rqKeyLength hg ->
  concat (rdOf st) = requestBytes hs ++ body ++ requestBytes hg ++ key ++ rest ->
  ReadBuf_ok (rbOf st) -> (24 <= length (rbOf st))%nat ->
  store_sized (store st) ->
  fst (dispatch hs (string_of key) (candidate hs body (clock st)) (store st)) = Stored e ->
  TTL e = 0 \/ Second clock2 <= TTL e ->
  let stored := wire (set_response hs (Stored e)) in
  let hit := wire (get_response hg key (Some e)) in
  (44 <= roomOf st)%nat -> (length (stored ++ hit) <= roomOf st)%nat ->
  exists c1 c2,
    handleCommand c = (Ok tt, c1) /\ handleCommand (later clock2 c1) = (Ok tt, c2)
    /\ wrOf (cState c2) = wrOf st ++ stored ++ hit
    /\ RawData e = body_value hs body /\ Flag e = body_flag body
    /\ TTL e = ttl_deadline (body_raw_ttl body) (Second (clock st))
    /\ concat (rdOf (cState c2)) = rest.
Proof.
  intros st key Hvs Hops Hes Hks Hk16 Hmax Hlb Hvg Hopg Heg Hkg Htg Hin Hok Hrb Hsz
    Hd Hlive stored hit Hroom Hroom2.
  assert (length body = Z.to_nat (rqTotalBodyLength hs)) as Hlenb
    by (unfold len in Hlb; lia).
  assert (rqKeyLength hs + rqExtraLength hs <= rqTotalBodyLength hs) as Htot
    by apply Hvs.
  assert (len key = rqKeyLength hg) as Hlk.
  { unfold key, body_key, len. rewrite length_take, length_drop. lia. }
  destruct (handleCommand_set_run c hs body (requestBytes hg ++ key ++ rest))
    as (st1 & Hrun1 & Hwr1 & Hst1 & Hrd1 & Hclk1 & Hroom1 & Hok1 & Hrb1); auto.
  fold st key in Hrun1, Hwr1, Hst1, Hroom1. rewrite Hd in Hwr1, Hroom1.
  fold stored in Hwr1, Hroom1.
  set (d := dispatch hs (string_of key) (candidate hs body (clock st)) (store st)) in *.
  (* the entry is in the store *)
  assert (e = fst (store_entry (string_of key) (candidate hs body (clock st)) (store st))
          /\ simplekvMap (snd d) !! string_of key = Some e) as [He Hlook].
  { destruct (dispatch_cases hs (string_of key) (candidate hs body (clock st)) (store st))
      as [(status & message & Hf & _) | Hs]; fold d in Hf || fold d in Hs.
    - rewrite Hf in Hd. discriminate.
    - rewrite Hs in Hd |- *. cbn [fst snd] in Hd |- *. injection Hd as <-.
      split; [reflexivity | apply store_entry_lookup]. }
  set (c1 := mkConn st1 (wrap 64 (CommandSeq c + 1)) (clock st)) in *.
  set (c1' := later clock2 c1).
  assert (0 < rqKeyLength hg) as Hkg0 by lia.
  assert (concat (rdOf (cState c1')) = requestBytes hg ++ key ++ rest) as Hin2
    by exact Hrd1.
  assert (store_sized (store (cState c1'))) as Hsz1.
  { cbn [cState c1 c1' later store]. rewrite Hst1.
    apply dispatch_store_sized; [exact Hsz | lia]. }
  assert (GetFromSimpleKV (string_of key) (clock (cState c1')) (store (cState c1'))
          = ((e, true), snd d)) as Hget.
  { cbn [cState c1 c1' later store clock]. rewrite Hst1.
    apply (GetFromSimpleKV_live _ _ _ _ Hlook Hlive). }
  pose proof (handleCommand_get_run c1' hg key rest Hvg Hopg Heg Hkg0 Htg Hlk Hin2 Hok1 Hrb1
                Hsz1) as Hstep.
  cbv zeta in Hstep. rewrite Hget in Hstep. cbn [fst snd] in Hstep. fold hit in Hstep.
  destruct Hstep as (st2 & Hrun2 & Hwr2 & _ & Hrd2 & _).
  { change (roomOf (cState c1')) with (roomOf st1).
    rewrite Hroom1. rewrite length_app in Hroom2. lia. }
  change (wrOf (cState c1')) with (wrOf st1) in Hwr2.
  exists c1. eexists. split; [exact Hrun1|]. split; [exact Hrun2|].
  cbn [cState]. rewrite Hwr2, Hwr1, <- app_assoc.
  split; [reflexivity|]. rewrite He. auto.
Qed.

Lemma set_then_get_witness :
  exists c1 c2,
    handleCommand (ex_conn (ex_state ex_store0 0
                     [ex_header_bytes; ex_set_body ++ requestBytes ex_get;
                      bytes_of "Hello"]))
    = (Ok tt, c1)
    /\ handleCommand (later 65 c1) = (Ok tt, c2)
    /\ wrOf (cState c2)
       = headerBytes (mkResponseHeader 0x81 0x01 0 0 0 0 0 7 1)
         ++ headerBytes (mkResponseHeader 0x81 0x0c 5 4 0 0 14 7 1)
         ++ [x00; x00; x00; x05] ++ bytes_of "HelloWorld".
Proof.
  destruct (set_then_get
              (ex_conn (ex_state ex_store0 0
                 [ex_header_bytes; ex_set_body ++ requestBytes ex_get; bytes_of "Hello"]))
              (ex_set 0x01) ex_get ex_set_body []
              (mkSimpleValue (bytes_of "World") 5 1 10) 65)
    as (c1 & c2 & H1 & H2 & Hwr & _).
  - constructor; [split; unfold uint; cbn; lia | reflexivity | | reflexivity | cbn; lia].
    apply OpHandler_dom. eexists. reflexivity.
  - unfold ex_set. cbn [rqOpcode]. rewrite !elem_of_cons. auto.
  - reflexivity.
  - reflexivity.
  - reflexivity.
  - vm_compute. discriminate.
  - reflexivity.
  - constructor; [split; unfold uint; cbn; lia | reflexivity | | reflexivity | cbn; lia].
    apply OpHandler_dom. eexists. reflexivity.
  - unfold ex_get. cbn [rqOpcode]. rewrite !elem_of_cons. auto.
  - reflexivity.
  - reflexivity.
  - reflexivity.
  - reflexivity.
  - exists 5%nat. split; [lia | reflexivity].
  - cbn. lia.
  - intros k e Hk. unfold ex_conn, ex_state, ex_store0 in Hk.
    cbn [cState store simplekvMap] in Hk. rewrite lookup_empty in Hk. discriminate.
  - vm_compute. reflexivity.
  - right. vm_compute. discriminate.
  - cbn. lia.
  - vm_compute. lia.
  - exists c1, c2. split; [exact H1|]. split; [exact H2|].
    rewrite Hwr. vm_compute. reflexivity.
Defined.
